(** * LiquidCore: context-group lifecycle, task dispatcher and zombie collector

    A shallow embedding of [Common/ContextGroup.cpp].  Pointers are natural
    numbers, [std::vector]/[std::list] are lists, the process-wide
    [std::map<Isolate*, ContextGroup*>] is a [gmap].  Every call that leaves
    the file (engine, libuv, JNI, libc), every mutex operation and the field
    writes whose order matters are recorded as an [Event]; the functions
    thread the process-wide statics and the fields of the group through a
    small monad that also collects these events and can abort (the
    [__android_log_assert] calls). *)

From Stdlib Require Import ZArith List Bool Lia.
From stdpp Require Import base tactics option list strings gmap relations.
Import ListNotations.
Local Open Scope Z_scope.

(** ** Handles and events *)

Abbreviation Isolate := nat (only parsing).
Abbreviation GroupPtr := nat (only parsing).
Abbreviation Handle := nat (only parsing).

Inductive Mutex := s_mutex | m_async_mutex | m_zombie_mutex.

#[global] Instance Mutex_eq_dec : EqDecision Mutex.
Proof. solve_decision. Defined.

(** [jobject]: a JNI reference.  [jclass_chain] lists, from the object's own
    class upwards, whether [GetMethodID(cls, "inContextCallback", ...)]
    returns without a pending exception at that class; after the last class
    [GetSuperclass] returns NULL. *)
Record jobject := mkJobject { jref : nat; jclass_chain : list bool }.

Inductive Event :=
  | EvLock (m : Mutex)
  | EvUnlock (m : Mutex)
  (* process-wide engine runtime *)
  | EvCreateDefaultPlatform (threads : nat)
  | EvInitializePlatform
  | EvV8Initialize
  | EvV8Dispose
  | EvShutdownPlatform
  | EvDeletePlatform
  (* engine instance *)
  | EvIsolateNew (iso : Isolate) (with_snapshot : bool)
  | EvAddGCPrologueCallback (iso : Isolate)
  | EvRemoveGCPrologueCallback (iso : Isolate)
  | EvSetMicrotasksPolicy (iso : Isolate)
  | EvIsolateDispose (iso : Isolate)
  (* managed objects and zombies *)
  | EvValueDispose (v : nat)
  | EvContextDispose (c : nat)
  | EvValueReset (v : nat)
  | EvContextReset (c : nat)
  | EvEnterContext (c : nat)
  | EvProcessExit (c : nat) (exit_code : Z)
  | EvLeaveContext (c : nat)
  | EvLogAssert
  | EvSetDefunct
  | EvRegistryErase (iso : Isolate)
  (* task queue *)
  | EvClearRunnables
  | EvClearAsyncHandle
  | EvEnqueue (rid : nat)
  | EvRunNative (rid : nat)
  | EvAttachCurrentThread
  | EvDetachCurrentThread
  | EvCallVoidMethod (rid : nat) (thiz runnable : nat)
  | EvDeleteGlobalRef (ref : nat)
  | EvDeleteRunnable (rid : nat)
  | EvDeleteGroupData (h : Handle)
  | EvUvAsyncInit (h : Handle)
  | EvUvAsyncSend (h : Handle)
  | EvUvClose (h : Handle)
  (* GC fan-out *)
  | EvGCCallback (cb : nat) (gctype flags : Z) (data : nat)
  | EvOtherGroupGCPrologue (group : GroupPtr) (gctype flags : Z)
  (* buffers and files *)
  | EvDeleteStartupData
  | EvFopen (ok : bool)
  | EvFclose
  | EvDeleteBuffer
  | EvBadAlloc (size : Z).

#[global] Instance Event_eq_dec : EqDecision Event.
Proof. solve_decision. Defined.

(** ** Process-wide statics *)

(** [int] arithmetic: two's complement wrap-around on 32 bits. *)
Definition INT_MAX : Z := 2147483647.
Definition wrap_int (z : Z) : Z := (z + 2 ^ 31) mod 2 ^ 32 - 2 ^ 31.

(** [s_platform], [s_init_count], [s_isolate_map]; [v8_initialized] is a
    ghost flag set by [V8::Initialize] and cleared by [V8::Dispose]. *)
Record Process := mkProcess {
  s_platform : option nat;
  s_init_count : Z;
  s_isolate_map : gmap nat nat;
  v8_initialized : bool
}.

Definition initial_process : Process :=
  {| s_platform := None; s_init_count := 0; s_isolate_map := ∅;
     v8_initialized := false |}.

Definition set_s_platform (x : option nat) (p : Process) : Process :=
  {| s_platform := x; s_init_count := s_init_count p;
     s_isolate_map := s_isolate_map p; v8_initialized := v8_initialized p |}.
Definition set_s_init_count (x : Z) (p : Process) : Process :=
  {| s_platform := s_platform p; s_init_count := x;
     s_isolate_map := s_isolate_map p; v8_initialized := v8_initialized p |}.
Definition set_s_isolate_map (x : gmap nat nat) (p : Process) : Process :=
  {| s_platform := s_platform p; s_init_count := s_init_count p;
     s_isolate_map := x; v8_initialized := v8_initialized p |}.
Definition set_v8_initialized (x : bool) (p : Process) : Process :=
  {| s_platform := s_platform p; s_init_count := s_init_count p;
     s_isolate_map := s_isolate_map p; v8_initialized := x |}.

(** ** Objects owned by a group *)

(** [struct Runnable].  [c_runnable] is [Some id] for a native closure and
    [None] for a Java runnable.  [getEnvStat] is what [jvm->GetEnv] answers
    on the draining thread.  [arrivals] are the runnables that are pushed on
    [m_runnables] (by any thread) while the body of this one executes with
    the queue mutex released; what else a body does is not modelled. *)
#[warnings="-register-all"]
Inductive Runnable := mkRunnable {
  rid : nat;
  thiz : jobject;
  runnable : jobject;
  getEnvStat : Z;
  c_runnable : option nat;
  arrivals : list Runnable
}.

Definition JNI_OK : Z := 0.
Definition JNI_EDETACHED : Z := -2.

(** A [boost::shared_ptr<JSContext>] in the zombie list.  [IsDefunct] is the
    answer of [ctx->IsDefunct()] when the drain loop examines the entry. *)
Record JSContext := mkJSContext { ctx_id : nat; IsDefunct : bool }.
Record JSValue := mkJSValue { val_id : nat }.

(** A [boost::weak_ptr]: [lock()] yields the target while it is alive. *)
Record weak_ptr := mkWeak { target : nat; alive : bool }.
Definition weak_lock (w : weak_ptr) : option nat :=
  if alive w then Some (target w) else None.

(** A [std::unique_ptr<GCCallback>]: the address of the heap cell and the
    two fields stored in it. *)
Record GCCallback := mkGCCallback { gc_addr : nat; gc_cb : nat; gc_data : nat }.

Record StartupData := mkStartupData { sd_data : option (list Byte.byte); raw_size : Z }.

Record ContextGroup := mkContextGroup {
  m_isolate : nat;
  m_manage_isolate : bool;
  m_uv_loop : option nat;
  m_thread_id : nat;
  m_async_handle : option nat;
  m_isDefunct : bool;
  m_startup_data : StartupData;
  snapshot_blob : bool;
  m_gc_callbacks : list GCCallback;
  m_managedValues : list weak_ptr;
  m_managedContexts : list weak_ptr;
  m_value_zombies : list JSValue;
  m_context_zombies : list JSContext;
  m_runnables : list Runnable
}.

Definition set_m_async_handle (x : option nat) (g : ContextGroup) : ContextGroup :=
  {| m_isolate := m_isolate g; m_manage_isolate := m_manage_isolate g;
     m_uv_loop := m_uv_loop g; m_thread_id := m_thread_id g;
     m_async_handle := x; m_isDefunct := m_isDefunct g;
     m_startup_data := m_startup_data g; snapshot_blob := snapshot_blob g;
     m_gc_callbacks := m_gc_callbacks g;
     m_managedValues := m_managedValues g;
     m_managedContexts := m_managedContexts g;
     m_value_zombies := m_value_zombies g;
     m_context_zombies := m_context_zombies g;
     m_runnables := m_runnables g |}.
Definition set_m_isDefunct (x : bool) (g : ContextGroup) : ContextGroup :=
  {| m_isolate := m_isolate g; m_manage_isolate := m_manage_isolate g;
     m_uv_loop := m_uv_loop g; m_thread_id := m_thread_id g;
     m_async_handle := m_async_handle g; m_isDefunct := x;
     m_startup_data := m_startup_data g; snapshot_blob := snapshot_blob g;
     m_gc_callbacks := m_gc_callbacks g;
     m_managedValues := m_managedValues g;
     m_managedContexts := m_managedContexts g;
     m_value_zombies := m_value_zombies g;
     m_context_zombies := m_context_zombies g;
     m_runnables := m_runnables g |}.
Definition set_m_gc_callbacks (x : list GCCallback) (g : ContextGroup) : ContextGroup :=
  {| m_isolate := m_isolate g; m_manage_isolate := m_manage_isolate g;
     m_uv_loop := m_uv_loop g; m_thread_id := m_thread_id g;
     m_async_handle := m_async_handle g; m_isDefunct := m_isDefunct g;
     m_startup_data := m_startup_data g; snapshot_blob := snapshot_blob g;
     m_gc_callbacks := x;
     m_managedValues := m_managedValues g;
     m_managedContexts := m_managedContexts g;
     m_value_zombies := m_value_zombies g;
     m_context_zombies := m_context_zombies g;
     m_runnables := m_runnables g |}.
Definition set_m_managedValues (x : list weak_ptr) (g : ContextGroup) : ContextGroup :=
  {| m_isolate := m_isolate g; m_manage_isolate := m_manage_isolate g;
     m_uv_loop := m_uv_loop g; m_thread_id := m_thread_id g;
     m_async_handle := m_async_handle g; m_isDefunct := m_isDefunct g;
     m_startup_data := m_startup_data g; snapshot_blob := snapshot_blob g;
     m_gc_callbacks := m_gc_callbacks g;
     m_managedValues := x;
     m_managedContexts := m_managedContexts g;
     m_value_zombies := m_value_zombies g;
     m_context_zombies := m_context_zombies g;
     m_runnables := m_runnables g |}.
Definition set_m_managedContexts (x : list weak_ptr) (g : ContextGroup) : ContextGroup :=
  {| m_isolate := m_isolate g; m_manage_isolate := m_manage_isolate g;
     m_uv_loop := m_uv_loop g; m_thread_id := m_thread_id g;
     m_async_handle := m_async_handle g; m_isDefunct := m_isDefunct g;
     m_startup_data := m_startup_data g; snapshot_blob := snapshot_blob g;
     m_gc_callbacks := m_gc_callbacks g;
     m_managedValues := m_managedValues g;
     m_managedContexts := x;
     m_value_zombies := m_value_zombies g;
     m_context_zombies := m_context_zombies g;
     m_runnables := m_runnables g |}.
Definition set_m_value_zombies (x : list JSValue) (g : ContextGroup) : ContextGroup :=
  {| m_isolate := m_isolate g; m_manage_isolate := m_manage_isolate g;
     m_uv_loop := m_uv_loop g; m_thread_id := m_thread_id g;
     m_async_handle := m_async_handle g; m_isDefunct := m_isDefunct g;
     m_startup_data := m_startup_data g; snapshot_blob := snapshot_blob g;
     m_gc_callbacks := m_gc_callbacks g;
     m_managedValues := m_managedValues g;
     m_managedContexts := m_managedContexts g;
     m_value_zombies := x;
     m_context_zombies := m_context_zombies g;
     m_runnables := m_runnables g |}.
Definition set_m_context_zombies (x : list JSContext) (g : ContextGroup) : ContextGroup :=
  {| m_isolate := m_isolate g; m_manage_isolate := m_manage_isolate g;
     m_uv_loop := m_uv_loop g; m_thread_id := m_thread_id g;
     m_async_handle := m_async_handle g; m_isDefunct := m_isDefunct g;
     m_startup_data := m_startup_data g; snapshot_blob := snapshot_blob g;
     m_gc_callbacks := m_gc_callbacks g;
     m_managedValues := m_managedValues g;
     m_managedContexts := m_managedContexts g;
     m_value_zombies := m_value_zombies g;
     m_context_zombies := x;
     m_runnables := m_runnables g |}.
Definition set_m_runnables (x : list Runnable) (g : ContextGroup) : ContextGroup :=
  {| m_isolate := m_isolate g; m_manage_isolate := m_manage_isolate g;
     m_uv_loop := m_uv_loop g; m_thread_id := m_thread_id g;
     m_async_handle := m_async_handle g; m_isDefunct := m_isDefunct g;
     m_startup_data := m_startup_data g; snapshot_blob := snapshot_blob g;
     m_gc_callbacks := m_gc_callbacks g;
     m_managedValues := m_managedValues g;
     m_managedContexts := m_managedContexts g;
     m_value_zombies := m_value_zombies g;
     m_context_zombies := m_context_zombies g;
     m_runnables := x |}.

(** ** The monad: statics and [this], collected events, abort *)

(** [self] is the address of the group ([this]); [this] its fields. *)
Record World := mkWorld { proc : Process; self : nat; this : ContextGroup }.

Inductive Outcome (A : Type) :=
  | Ret (a : A)        (* returned normally *)
  | Abort              (* killed by [__android_log_assert], or left by an
                          exception that nothing in these sources catches *)
  | Undefined          (* the C++ has no defined behaviour here *)
  | OutOfFuel.         (* the loop bound given to the model was too small *)
Arguments Ret {A} a.
Arguments Abort {A}.
Arguments Undefined {A}.
Arguments OutOfFuel {A}.

Definition M (A : Type) : Type := World -> Outcome A * World * list Event.

#[global] Instance M_ret : MRet M := fun A a w => (Ret a, w, []).
#[global] Instance M_bind : MBind M := fun A B f m w =>
  match m w with
  | (Ret a, w1, t1) => let '(r, w2, t2) := f a w1 in (r, w2, t1 ++ t2)
  | (Abort, w1, t1) => (Abort, w1, t1)
  | (Undefined, w1, t1) => (Undefined, w1, t1)
  | (OutOfFuel, w1, t1) => (OutOfFuel, w1, t1)
  end.

Definition emit (e : Event) : M unit := fun w => (Ret tt, w, [e]).
Definition abort {A} : M A := fun w => (Abort, w, []).
Definition undefined {A} : M A := fun w => (Undefined, w, []).
Definition out_of_fuel {A} : M A := fun w => (OutOfFuel, w, []).
Definition get_proc : M Process := fun w => (Ret (proc w), w, []).
Definition get_this : M ContextGroup := fun w => (Ret (this w), w, []).
Definition get_self : M nat := fun w => (Ret (self w), w, []).
Definition upd_proc (f : Process -> Process) : M unit :=
  fun w => (Ret tt, {| proc := f (proc w); self := self w; this := this w |}, []).
Definition upd_this (f : ContextGroup -> ContextGroup) : M unit :=
  fun w => (Ret tt, {| proc := proc w; self := self w; this := f (this w) |}, []).
Definition lock (m : Mutex) : M unit := emit (EvLock m).
Definition unlock (m : Mutex) : M unit := emit (EvUnlock m).

Definition outcome {A} (r : Outcome A * World * list Event) : Outcome A := r.1.1.
Definition world {A} (r : Outcome A * World * list Event) : World := r.1.2.
Definition events {A} (r : Outcome A * World * list Event) : list Event := r.2.

(** ** Engine runtime lifecycle *)

(** [ContextGroup::init_v8]. *)
Definition init_v8 : M unit :=
  lock s_mutex;;
  p ← get_proc;
  upd_proc (set_s_init_count (wrap_int (s_init_count p + 1)));;
  (if decide (s_init_count p = 0) then
     emit (EvCreateDefaultPlatform 4);;
     upd_proc (set_s_platform (Some 4%nat));;
     emit EvInitializePlatform;;
     emit EvV8Initialize;;
     upd_proc (set_v8_initialized true)
   else mret tt);;
  unlock s_mutex.

(** [ContextGroup::dispose_v8]; the decrement is commented out in the
    source ("For now, init once and never dispose"). *)
Definition dispose_v8 : M unit :=
  lock s_mutex;;
  p ← get_proc;
  (if decide (s_init_count p = 0) then
     emit EvV8Dispose;;
     upd_proc (set_v8_initialized false);;
     emit EvShutdownPlatform;;
     emit EvDeletePlatform;;
     upd_proc (set_s_platform None)
   else mret tt);;
  unlock s_mutex.

(** Sequences of lifecycle calls, as issued by constructors and disposals. *)
Inductive v8_op := OpInit | OpDispose.

#[global] Instance v8_op_eq_dec : EqDecision v8_op.
Proof. solve_decision. Defined.

Fixpoint run_v8_ops (ops : list v8_op) : M unit :=
  match ops with
  | [] => mret tt
  | OpInit :: ops' => init_v8;; run_v8_ops ops'
  | OpDispose :: ops' => dispose_v8;; run_v8_ops ops'
  end.

Definition count_inits (ops : list v8_op) : Z :=
  Z.of_nat (length (filter (λ o, o = OpInit) ops)).

Definition initial_world : World :=
  {| proc := initial_process; self := 1%nat;
     this := mkContextGroup 0 false None 0 None false
               (mkStartupData None 0) false [] [] [] [] [] [] |}.


(** ** GC callback registry *)

(** [ContextGroup::RegisterGCCallback]; [addr] is the cell [new] returns. *)
Definition RegisterGCCallback (addr cb data : nat) : M unit :=
  upd_this (λ g, set_m_gc_callbacks
                   (m_gc_callbacks g ++ [mkGCCallback addr cb data]) g).

(** [std::list::remove(item)] on a list of [unique_ptr]: equality of
    [unique_ptr] is equality of the addresses they own. *)
Definition list_remove (item : GCCallback) (l : list GCCallback) : list GCCallback :=
  filter (λ e, gc_addr e ≠ gc_addr item) l.

(** The [while] loop of [UnregisterGCCallback]: [pending] are the nodes from
    [it] to [end()].  The iterator is advanced before [remove] is called. *)
Fixpoint unregister_loop (cb data : nat) (pending : list GCCallback) : M unit :=
  match pending with
  | [] => mret tt
  | item :: rest =>
      (if decide (gc_cb item = cb ∧ gc_data item = data) then
         upd_this (λ g, set_m_gc_callbacks (list_remove item (m_gc_callbacks g)) g)
       else mret tt);;
      unregister_loop cb data rest
  end.

(** [ContextGroup::UnregisterGCCallback]. *)
Definition UnregisterGCCallback (cb data : nat) : M unit :=
  g ← get_this;
  unregister_loop cb data (m_gc_callbacks g).

Definition gc_matches (cb data : nat) (e : GCCallback) : Prop :=
  gc_cb e = cb ∧ gc_data e = data.

#[global] Instance gc_matches_dec cb data e : Decision (gc_matches cb data e).
Proof. unfold gc_matches. apply _. Defined.

(** [ContextGroup::GCPrologueCallback], on the callback list of a group. *)
Fixpoint GCPrologueCallback (gctype flags : Z) (items : list GCCallback) : M unit :=
  match items with
  | [] => mret tt
  | item :: rest =>
      emit (EvGCCallback (gc_cb item) gctype flags (gc_data item));;
      GCPrologueCallback gctype flags rest
  end.

(** [ContextGroup::StaticGCPrologueCallback].  When the registry sends the
    event to another group, the call of its [GCPrologueCallback] is one
    event: the callback lists of other groups are not part of the world. *)
Definition StaticGCPrologueCallback (isolate : nat) (gctype flags : Z) : M unit :=
  lock s_mutex;;
  p ← get_proc;
  match s_isolate_map p !! isolate with
  | Some ptr =>
      s ← get_self;
      if decide (ptr = s) then
        g ← get_this;
        GCPrologueCallback gctype flags (m_gc_callbacks g)
      else emit (EvOtherGroupGCPrologue ptr gctype flags)
  | None => mret tt
  end;;
  unlock s_mutex.

(** ** Build configuration *)

Section Build.

(** [DEBUG] is the preprocessor flag tested in [FreeZombies];
    [CONTEXT_GARBAGE_COLLECTED_BUT_PROCESS_STILL_ACTIVE] is a macro of a
    header that is not part of the sources at hand. *)
Variable DEBUG : bool.
Variable CONTEXT_GARBAGE_COLLECTED_BUT_PROCESS_STILL_ACTIVE : Z.

(** [__android_log_assert]: logs and kills the process. *)
Definition android_log_assert {A} : M A :=
  emit EvLogAssert;; abort.

(** ** Zombie collector *)

(** First loop of [FreeZombies]: [vs] is the list from [vit] on. *)
Fixpoint free_value_zombies (vs : list JSValue) : M unit :=
  match vs with
  | [] => mret tt
  | value :: rest =>
      upd_this (set_m_value_zombies rest);;
      emit (EvValueReset (val_id value));;
      free_value_zombies rest
  end.

(** Second loop of [FreeZombies]: [cs] is the list from [it] on.
    [V8_ISOLATE_CTX] and [V8_UNLOCK] bracket the calls into the engine. *)
Fixpoint free_context_zombies (cs : list JSContext) : M unit :=
  match cs with
  | [] => mret tt
  | ctx :: rest =>
      (if IsDefunct ctx then mret tt
       else
         emit (EvEnterContext (ctx_id ctx));;
         emit (EvProcessExit (ctx_id ctx)
                 CONTEXT_GARBAGE_COLLECTED_BUT_PROCESS_STILL_ACTIVE);;
         (if DEBUG then android_log_assert else mret tt);;
         emit (EvLeaveContext (ctx_id ctx)));;
      emit (EvContextReset (ctx_id ctx));;
      free_context_zombies rest
  end.

(** [ContextGroup::FreeZombies]. *)
Definition FreeZombies : M unit :=
  lock m_zombie_mutex;;
  g ← get_this;
  free_value_zombies (m_value_zombies g);;
  upd_this (set_m_value_zombies []);;
  g' ← get_this;
  free_context_zombies (m_context_zombies g');;
  upd_this (set_m_context_zombies []);;
  unlock m_zombie_mutex.

(** ** Task dispatcher *)

(** The [do ... while (true)] that looks [inContextCallback] up, walking to
    the superclass while [GetMethodID] leaves an exception pending. *)
Fixpoint find_method (detached : bool) (chain : list bool) : M unit :=
  match chain with
  | [] => undefined
  | found :: supers =>
      if found then mret tt
      else
        match supers with
        | [] =>
            (if detached then emit EvDetachCurrentThread else mret tt);;
            android_log_assert
        | _ :: _ => find_method detached supers
        end
  end.

Fixpoint push_arrivals (rs : list Runnable) : M unit :=
  match rs with
  | [] => mret tt
  | a :: rest =>
      upd_this (λ g, set_m_runnables (m_runnables g ++ [a]) g);;
      emit (EvEnqueue (rid a));;
      push_arrivals rest
  end.

(** The body of the [while (r)] loop between [unlock] and [lock]. *)
Definition run_body (r : Runnable) : M unit :=
  match c_runnable r with
  | Some _ => emit (EvRunNative (rid r))
  | None =>
      let detached := bool_decide (getEnvStat r = JNI_EDETACHED) in
      (if detached then emit EvAttachCurrentThread else mret tt);;
      find_method detached (jclass_chain (thiz r));;
      emit (EvCallVoidMethod (rid r) (jref (thiz r)) (jref (runnable r)));;
      emit (EvDeleteGlobalRef (jref (thiz r)));;
      emit (EvDeleteGlobalRef (jref (runnable r)));;
      (if detached then emit EvDetachCurrentThread else mret tt)
  end;;
  push_arrivals (arrivals r).

(** [m_runnables.erase(m_runnables.begin())]. *)
Definition erase_begin : M unit :=
  g ← get_this;
  match m_runnables g with
  | [] => undefined
  | _ :: rest => upd_this (set_m_runnables rest)
  end.

(** The [while (r)] loop of [callback], entered with the queue mutex held.
    [fuel] bounds the number of iterations. *)
Fixpoint drain (fuel : nat) : M unit :=
  g ← get_this;
  match m_runnables g with
  | [] => mret tt
  | r :: _ =>
      match fuel with
      | O => out_of_fuel
      | S fuel' =>
          unlock m_async_mutex;;
          run_body r;;
          lock m_async_mutex;;
          erase_begin;;
          emit (EvDeleteRunnable (rid r));;
          drain fuel'
      end
  end.

(** [ContextGroup::callback], for the group the handle's data points to. *)
Definition callback (fuel : nat) (handle : nat) : M unit :=
  emit (EvDeleteGroupData handle);;
  FreeZombies;;
  lock m_async_mutex;;
  drain fuel;;
  emit (EvUvClose handle);;
  upd_this (set_m_async_handle None);;
  emit EvClearAsyncHandle;;
  unlock m_async_mutex.

(** Number of loop iterations a queue needs: every runnable and every
    runnable that arrives while one of them runs. *)
Fixpoint weight (r : Runnable) : nat :=
  S ((fix go (l : list Runnable) : nat :=
        match l with [] => 0 | a :: l' => weight a + go l' end)%nat (arrivals r)).
Definition weights (q : list Runnable) : nat := fold_right (λ r n, (weight r + n)%nat) 0%nat q.

(** The wake-up shared by [MarkZombie], [sync_] and
    [schedule_java_runnable]; [h] is the handle [new uv_async_t] returns. *)
Definition ensure_wake (h : nat) : M unit :=
  g ← get_this;
  match m_async_handle g with
  | Some _ => mret tt
  | None =>
      upd_this (set_m_async_handle (Some h));;
      emit (EvUvAsyncInit h);;
      emit (EvUvAsyncSend h)
  end.

(** [ContextGroup::schedule_java_runnable]. *)
Definition schedule_java_runnable (r : Runnable) (h : nat) : M unit :=
  lock m_async_mutex;;
  upd_this (λ g, set_m_runnables (m_runnables g ++ [r]) g);;
  emit (EvEnqueue (rid r));;
  ensure_wake h;;
  unlock m_async_mutex.

(** [ContextGroup::MarkZombie(shared_ptr<JSContext>)]; [obj_addr] is the
    address compared with [this]. *)
Definition MarkZombie_context (obj_addr : nat) (obj : JSContext) (h : nat) : M unit :=
  s ← get_self;
  if decide (obj_addr = s) then mret tt
  else
    lock m_zombie_mutex;;
    upd_this (λ g, set_m_context_zombies (m_context_zombies g ++ [obj]) g);;
    unlock m_zombie_mutex;;
    lock m_async_mutex;;
    ensure_wake h;;
    unlock m_async_mutex.

(** [ContextGroup::MarkZombie(shared_ptr<JSValue>)]. *)
Definition MarkZombie_value (obj_addr : nat) (obj : JSValue) (h : nat) : M unit :=
  s ← get_self;
  if decide (obj_addr = s) then mret tt
  else
    lock m_zombie_mutex;;
    upd_this (λ g, set_m_value_zombies (m_value_zombies g ++ [obj]) g);;
    unlock m_zombie_mutex;;
    lock m_async_mutex;;
    ensure_wake h;;
    unlock m_async_mutex.

(** [ContextGroup::Manage], for values and for contexts: the group keeps a
    weak reference. *)
Definition Manage_value (obj : nat) : M unit :=
  upd_this (λ g, set_m_managedValues (m_managedValues g ++ [mkWeak obj true]) g).
Definition Manage_context (obj : nat) : M unit :=
  upd_this (λ g, set_m_managedContexts (m_managedContexts g ++ [mkWeak obj true]) g).

(** ** Disposal *)

(** The two loops over the weak lists: [lock()] and, when the target is
    alive, [valid->Dispose()]. *)
Fixpoint dispose_managed (ev : nat -> Event) (l : list weak_ptr) : M unit :=
  match l with
  | [] => mret tt
  | wp :: rest =>
      match weak_lock wp with
      | Some valid => emit (ev valid)
      | None => mret tt
      end;;
      dispose_managed ev rest
  end.

Definition has_startup_data (sd : StartupData) : bool :=
  match sd_data sd with
  | Some _ => negb (raw_size sd =? 0)
  | None => false
  end.

(** [ContextGroup::Dispose]. *)
Definition Dispose : M unit :=
  g ← get_this;
  if m_isDefunct g then mret tt
  else
    upd_this (set_m_runnables []);;
    emit EvClearRunnables;;
    emit (EvRemoveGCPrologueCallback (m_isolate g));;
    dispose_managed EvValueDispose (m_managedValues g);;
    dispose_managed EvContextDispose (m_managedContexts g);;
    upd_this (set_m_isDefunct true);;
    emit EvSetDefunct;;
    upd_this (set_m_managedValues []);;
    upd_this (set_m_managedContexts []);;
    FreeZombies;;
    lock s_mutex;;
    p ← get_proc;
    (if decide (is_Some (s_isolate_map p !! m_isolate g)) then
       upd_proc (set_s_isolate_map (delete (m_isolate g) (s_isolate_map p)));;
       emit (EvRegistryErase (m_isolate g))
     else mret tt);;
    unlock s_mutex;;
    (if m_manage_isolate g then emit (EvIsolateDispose (m_isolate g))
     else dispose_v8);;
    (if has_startup_data (m_startup_data g) then emit EvDeleteStartupData
     else mret tt).

(** ** Construction *)

(** The members a constructor does not assign are default-constructed. *)
Definition construct (iso : nat) (manage : bool) (loop : option nat) (tid : nat)
    (sd : StartupData) (blob : bool) : ContextGroup :=
  {| m_isolate := iso; m_manage_isolate := manage; m_uv_loop := loop;
     m_thread_id := tid; m_async_handle := None; m_isDefunct := false;
     m_startup_data := sd; snapshot_blob := blob;
     m_gc_callbacks := []; m_managedValues := []; m_managedContexts := [];
     m_value_zombies := []; m_context_zombies := []; m_runnables := [] |}.

Definition register_isolate (iso : nat) : M unit :=
  s ← get_self;
  p ← get_proc;
  upd_proc (set_s_isolate_map (<[iso := s]> (s_isolate_map p))).

(** [ContextGroup::ContextGroup()]; [iso] is what [Isolate::New] returns and
    [tid] the calling thread. *)
Definition ContextGroup_ctor (iso tid : nat) : M unit :=
  init_v8;;
  emit (EvIsolateNew iso false);;
  upd_this (λ _, construct iso true None tid (mkStartupData None 0) false);;
  register_isolate iso;;
  emit (EvAddGCPrologueCallback iso);;
  emit (EvSetMicrotasksPolicy iso).

(** The constructor that adopts an existing isolate and event loop. *)
Definition ContextGroup_ctor_isolate (isolate tid : nat) (uv_loop : option nat) : M unit :=
  upd_this (λ _, construct isolate false uv_loop tid (mkStartupData None 0) false);;
  lock s_mutex;;
  register_isolate isolate;;
  unlock s_mutex;;
  emit (EvAddGCPrologueCallback isolate).

(** The constructor from a snapshot buffer and its [int] size. *)
Definition ContextGroup_ctor_snapshot (snapshot : option (list Byte.byte)) (size : Z)
    (iso tid : nat) : M unit :=
  init_v8;;
  let blob := match snapshot with
              | Some _ => negb (size =? 0)
              | None => false
              end in
  emit (EvIsolateNew iso blob);;
  upd_this (λ _, construct iso true None tid (mkStartupData snapshot size) blob);;
  register_isolate iso;;
  emit (EvAddGCPrologueCallback iso);;
  emit (EvSetMicrotasksPolicy iso).

(** A file as [fopen], [fseek], [ftell] and [fread] treat it.  [f_tell] is
    what [ftell] answers after [fseek(fp, 0L, SEEK_END)]: the length for a
    regular file, but [-1] where [ftell] fails (a pipe, a terminal) and
    [LONG_MAX] for a directory; the source checks neither call.  [fread]
    delivers at most [f_readable] bytes of [f_contents]. *)
Record File := mkFile { f_contents : list Byte.byte; f_readable : nat; f_tell : Z }.

(** [LONG_MAX] where [long] has 64 bits. *)
Definition LONG_MAX : Z := 9223372036854775807.

Definition ftell_end (f : File) : Z := f_tell f.
Definition fread (f : File) (n : Z) : list Byte.byte :=
  take (Nat.min (Z.to_nat n) (f_readable f)) (f_contents f).

(** [new char[size]] for a [long size]; [heap] tells which requests the
    allocator grants.  A negative size, and a request the allocator refuses,
    end in [std::bad_alloc] (or the [std::bad_array_new_length] derived from
    it), which [New] does not catch. *)
Definition allocates (heap : Z -> bool) (size : Z) : bool :=
  bool_decide (0 <= size) && heap size.
Definition new_array (heap : Z -> bool) (size : Z) : M unit :=
  if allocates heap size then mret tt
  else emit (EvBadAlloc size);; abort.

(** [ContextGroup::New], run on the storage [make_shared]
    allocated ([this]); [fs] answers [fopen(snapshotFile, "rb")].  The [long]
    size is narrowed to the [int] parameter of the constructor. *)
Definition New (heap : Z -> bool) (fs : string -> option File) (snapshotFile : string)
    (iso tid : nat) : M unit :=
  match fs snapshotFile with
  | Some fp =>
      emit (EvFopen true);;
      let size := ftell_end fp in
      new_array heap size;;
      let buf := fread fp size in
      let read := Z.of_nat (length buf) in
      if decide (read ≠ size) then
        emit EvDeleteBuffer;;
        emit EvFclose;;
        ContextGroup_ctor iso tid
      else
        emit EvFclose;;
        ContextGroup_ctor_snapshot (Some buf) (wrap_int size) iso tid
  | None =>
      emit (EvFopen false);;
      ContextGroup_ctor iso tid
  end.

(** ** Reading traces *)

(** Whether mutex [m] is held after the events of [tr], given whether it was
    held before. *)
Definition lock_step (m : Mutex) (b : bool) (e : Event) : bool :=
  match e with
  | EvLock m' => if decide (m' = m) then true else b
  | EvUnlock m' => if decide (m' = m) then false else b
  | _ => b
  end.
Definition held_from (m : Mutex) (b : bool) (tr : list Event) : bool :=
  fold_left (lock_step m) tr b.
Definition held (m : Mutex) (tr : list Event) : bool := held_from m false tr.

(** A task body being executed: the native closure or the Java runnable
    delivered through [CallVoidMethod]. *)
Definition run_of (e : Event) : option nat :=
  match e with
  | EvRunNative i => Some i
  | EvCallVoidMethod i _ _ => Some i
  | _ => None
  end.
Definition enqueue_of (e : Event) : option nat :=
  match e with
  | EvEnqueue i => Some i
  | _ => None
  end.
Definition executed (tr : list Event) : list nat := omap run_of tr.
Definition enqueued (tr : list Event) : list nat := omap enqueue_of tr.

Definition is_task_body (e : Event) : bool := bool_decide (is_Some (run_of e)).

(** Calls on an engine instance or inside one of its contexts. *)
Definition is_engine_call (e : Event) : bool :=
  match e with
  | EvAddGCPrologueCallback _ | EvRemoveGCPrologueCallback _
  | EvSetMicrotasksPolicy _ | EvIsolateDispose _
  | EvEnterContext _ | EvProcessExit _ _ | EvLeaveContext _ => true
  | _ => false
  end.

(** Callbacks handed to code outside the group: task bodies and the
    registered GC callbacks. *)
Definition is_host_callback (e : Event) : bool :=
  match e with
  | EvRunNative _ | EvCallVoidMethod _ _ _ | EvGCCallback _ _ _ _
  | EvOtherGroupGCPrologue _ _ _ => true
  | _ => false
  end.

Definition is_zombie_event (e : Event) : bool :=
  match e with
  | EvValueReset _ | EvContextReset _ | EvEnterContext _
  | EvProcessExit _ _ | EvLeaveContext _ => true
  | _ => false
  end.

(** Every event of [tr] selected by [P] happens while [m] is in state [b]. *)
Definition at_events (P : Event -> bool) (m : Mutex) (b : bool) (tr : list Event) : Prop :=
  ∀ pre e post, tr = pre ++ e :: post → P e = true → held m pre = b.

(** The same, as a check that runs along the trace from lock state [h]. *)
Fixpoint check_events (P : Event -> bool) (m : Mutex) (b : bool) (h : bool)
    (tr : list Event) : bool :=
  match tr with
  | [] => true
  | e :: tr' =>
      (if P e then bool_decide (h = b) else true)
      && check_events P m b (lock_step m h e) tr'
  end.

(** No mutex of the three is held at any event selected by [P]. *)
Definition outside_all_locks (P : Event -> bool) (tr : list Event) : Prop :=
  ∀ m, at_events P m false tr.

(** The forced exits of a trace: which context, which exit code. *)
Definition exit_of (e : Event) : option (nat * Z) :=
  match e with
  | EvProcessExit c code => Some (c, code)
  | _ => None
  end.
Definition forced_exits (tr : list Event) : list (nat * Z) := omap exit_of tr.

(** [e1] occurs in [tr] and every occurrence of [e2] comes after it. *)
Definition precedes (e1 e2 : Event) (tr : list Event) : Prop :=
  ∃ pre post, tr = pre ++ e1 :: post ∧ e2 ∉ pre.

(** ** Closed forms used in the proofs *)

Definition with_this (f : ContextGroup -> ContextGroup) (w : World) : World :=
  {| proc := proc w; self := self w; this := f (this w) |}.
Definition with_proc (f : Process -> Process) (w : World) : World :=
  {| proc := f (proc w); self := self w; this := this w |}.

Definition with_gc_callbacks (l : list GCCallback) (w : World) : World :=
  {| proc := proc w; self := self w; this := set_m_gc_callbacks l (this w) |}.

(** The list the loop of [UnregisterGCCallback] leaves behind, as a fold
    over the visited nodes. *)
Definition unregister_fold (cb data : nat) (pending cur : list GCCallback) : list GCCallback :=
  foldl (λ cur item,
           if decide (gc_matches cb data item) then list_remove item cur else cur)
        cur pending.

(** What a release build does with one context zombie. *)
Definition zombie_block (ctx : JSContext) : list Event :=
  (if IsDefunct ctx then []
   else [EvEnterContext (ctx_id ctx);
         EvProcessExit (ctx_id ctx) CONTEXT_GARBAGE_COLLECTED_BUT_PROCESS_STILL_ACTIVE;
         EvLeaveContext (ctx_id ctx)])
  ++ [EvContextReset (ctx_id ctx)].

Definition zombies_cleared (w : World) : World :=
  with_this (λ g, set_m_context_zombies [] (set_m_value_zombies [] g)) w.

(** The context zombies a drain finds still running, as (context, exit code)
    pairs. *)
Definition live_zombies (cs : list JSContext) : list (nat * Z) :=
  (λ ctx, (ctx_id ctx, CONTEXT_GARBAGE_COLLECTED_BUT_PROCESS_STILL_ACTIVE))
    <$> filter (λ ctx, IsDefunct ctx = false) cs.

Definition is_lock_event (e : Event) : bool :=
  match e with
  | EvLock _ | EvUnlock _ => true
  | _ => false
  end.

Definition is_dequeue (e : Event) : bool :=
  match e with
  | EvDeleteRunnable _ => true
  | _ => false
  end.

Definition push_back_all (rs : list Runnable) (w : World) : World :=
  with_this (λ g, set_m_runnables (m_runnables g ++ rs) g) w.

(** The group as [Dispose] has left it when it calls [FreeZombies]. *)
Definition torn_down (g : ContextGroup) : ContextGroup :=
  set_m_managedContexts [] (set_m_managedValues []
    (set_m_isDefunct true (set_m_runnables [] g))).

(** The events of [dispose_v8], which only depend on the count. *)
Definition dispose_v8_events (count : Z) : list Event :=
  if decide (count = 0) then
    [EvLock s_mutex; EvV8Dispose; EvShutdownPlatform; EvDeletePlatform;
     EvUnlock s_mutex]
  else [EvLock s_mutex; EvUnlock s_mutex].

(** Steps (1) to (3) of [Dispose], preceded by the clearing of the queue. *)
Definition dispose_head (g : ContextGroup) : list Event :=
  [EvClearRunnables] ++
  [EvRemoveGCPrologueCallback (m_isolate g)] ++
  (EvValueDispose <$> omap weak_lock (m_managedValues g)) ++
  (EvContextDispose <$> omap weak_lock (m_managedContexts g)) ++
  [EvSetDefunct].

(** Steps (5) to (7) of [Dispose]. *)
Definition dispose_tail (p : Process) (g : ContextGroup) : list Event :=
  [EvLock s_mutex] ++
  (if decide (is_Some (s_isolate_map p !! m_isolate g))
   then [EvRegistryErase (m_isolate g)] else []) ++
  [EvUnlock s_mutex] ++
  (if m_manage_isolate g then [EvIsolateDispose (m_isolate g)]
   else dispose_v8_events (s_init_count p)) ++
  (if has_startup_data (m_startup_data g) then [EvDeleteStartupData] else []).

(** Calls on the isolate itself, and calls on the process-wide runtime. *)
Definition is_isolate_call (e : Event) : bool :=
  match e with
  | EvAddGCPrologueCallback _ | EvRemoveGCPrologueCallback _
  | EvSetMicrotasksPolicy _ | EvIsolateDispose _ => true
  | _ => false
  end.
Definition is_runtime_call (e : Event) : bool :=
  match e with
  | EvInitializePlatform | EvV8Initialize | EvV8Dispose | EvShutdownPlatform => true
  | _ => false
  end.

(** ** The blocking call [sync_] against the draining thread

    [sync_] blocks on a condition variable, so it is modelled as a
    transition system of two threads over the state they share: the queue
    mutex, the queue, the wake handle and the flag [signaled].  A schedule is
    a list of moves; each move lets one thread take its next atomic step, if
    that step is enabled.  [body_started] and [body_finished] are ghost flags
    for the runnable handed to [sync_]. *)

Inductive thread := Caller | Owner.

Inductive task := SyncTask | OtherTask (n : nat).

(** Where the caller is in [sync_]. *)
Inductive caller_pc :=
  | C_start        (* before [unique_lock lk(m_async_mutex)] *)
  | C_push         (* holds the mutex; pushes [r] and ensures the wake *)
  | C_check        (* holds the mutex; evaluates the predicate of [cv.wait] *)
  | C_blocked      (* inside [cv.wait], mutex released *)
  | C_reacquire    (* woken up, taking the mutex again *)
  | C_unlock       (* predicate was true; [lk.unlock()] *)
  | C_returned.

(** Where the owning thread is in [callback] and in the closure that [sync_]
    stored in [r->c_runnable]. *)
Inductive owner_pc :=
  | O_idle         (* not in [callback] *)
  | O_lock         (* [group->m_async_mutex.lock()] *)
  | O_pick         (* holds the mutex; looks at the front of the queue *)
  | O_call (t : task)   (* mutex released; calls [r->c_runnable()] *)
  | O_in_body      (* inside [runnable()] *)
  | O_after_body   (* [runnable()] has returned; taking the [lock_guard] *)
  | O_signal       (* holds the mutex; [signaled = true] *)
  | O_notify       (* [cv.notify_one()] *)
  | O_relock       (* [group->m_async_mutex.lock()] after the body *)
  | O_erase.       (* holds the mutex; erases the front of the queue *)

Record sync_state := mkSync {
  holder : option thread;
  signaled : bool;
  queue : list task;
  wake_pending : bool;
  cpc : caller_pc;
  opc : owner_pc;
  body_started : bool;
  body_finished : bool
}.

Inductive move :=
  | MCaller               (* the thread inside [sync_] *)
  | MOwner                (* the owning thread *)
  | MSpurious             (* a spurious wake-up of [cv.wait] *)
  | MEnqueue (n : nat).   (* some other thread schedules task [n] *)

(** [ContextGroup::sync_], one atomic step at a time. *)
Definition sync_ (s : sync_state) : option sync_state :=
  match cpc s with
  | C_start =>
      match holder s with
      | None => Some (mkSync (Some Caller) (signaled s) (queue s) (wake_pending s)
                        C_push (opc s) (body_started s) (body_finished s))
      | Some _ => None
      end
  | C_push =>
      Some (mkSync (holder s) (signaled s) (queue s ++ [SyncTask]) true
              C_check (opc s) (body_started s) (body_finished s))
  | C_check =>
      if signaled s
      then Some (mkSync (holder s) (signaled s) (queue s) (wake_pending s)
                   C_unlock (opc s) (body_started s) (body_finished s))
      else Some (mkSync None (signaled s) (queue s) (wake_pending s)
                   C_blocked (opc s) (body_started s) (body_finished s))
  | C_blocked => None
  | C_reacquire =>
      match holder s with
      | None => Some (mkSync (Some Caller) (signaled s) (queue s) (wake_pending s)
                        C_check (opc s) (body_started s) (body_finished s))
      | Some _ => None
      end
  | C_unlock =>
      Some (mkSync None (signaled s) (queue s) (wake_pending s)
              C_returned (opc s) (body_started s) (body_finished s))
  | C_returned => None
  end.

(** A wake-up of the waiting caller, by [notify_one] or spuriously. *)
Definition wake_caller (pc : caller_pc) : caller_pc :=
  match pc with
  | C_blocked => C_reacquire
  | _ => pc
  end.

(** The owning thread: the loop of [callback], and inside it the closure
    [runnable(); { lock_guard; signaled = true; } cv.notify_one();]. *)
Definition callback_thread (s : sync_state) : option sync_state :=
  match opc s with
  | O_idle =>
      if wake_pending s
      then Some (mkSync (holder s) (signaled s) (queue s) (wake_pending s)
                   (cpc s) O_lock (body_started s) (body_finished s))
      else None
  | O_lock =>
      match holder s with
      | None => Some (mkSync (Some Owner) (signaled s) (queue s) (wake_pending s)
                        (cpc s) O_pick (body_started s) (body_finished s))
      | Some _ => None
      end
  | O_pick =>
      match queue s with
      | [] => Some (mkSync None (signaled s) (queue s) false
                      (cpc s) O_idle (body_started s) (body_finished s))
      | r :: _ => Some (mkSync None (signaled s) (queue s) (wake_pending s)
                          (cpc s) (O_call r) (body_started s) (body_finished s))
      end
  | O_call SyncTask =>
      Some (mkSync (holder s) (signaled s) (queue s) (wake_pending s)
              (cpc s) O_in_body true (body_finished s))
  | O_call (OtherTask _) =>
      Some (mkSync (holder s) (signaled s) (queue s) (wake_pending s)
              (cpc s) O_relock (body_started s) (body_finished s))
  | O_in_body =>
      Some (mkSync (holder s) (signaled s) (queue s) (wake_pending s)
              (cpc s) O_after_body (body_started s) true)
  | O_after_body =>
      match holder s with
      | None => Some (mkSync (Some Owner) (signaled s) (queue s) (wake_pending s)
                        (cpc s) O_signal (body_started s) (body_finished s))
      | Some _ => None
      end
  | O_signal =>
      Some (mkSync None true (queue s) (wake_pending s)
              (cpc s) O_notify (body_started s) (body_finished s))
  | O_notify =>
      Some (mkSync (holder s) (signaled s) (queue s) (wake_pending s)
              (wake_caller (cpc s)) O_relock (body_started s) (body_finished s))
  | O_relock =>
      match holder s with
      | None => Some (mkSync (Some Owner) (signaled s) (queue s) (wake_pending s)
                        (cpc s) O_erase (body_started s) (body_finished s))
      | Some _ => None
      end
  | O_erase =>
      Some (mkSync (holder s) (signaled s) (tail (queue s)) (wake_pending s)
              (cpc s) O_pick (body_started s) (body_finished s))
  end.

(** Another thread runs a scheduling call to completion while the mutex is
    free. *)
Definition other_enqueue (n : nat) (s : sync_state) : option sync_state :=
  match holder s with
  | None => Some (mkSync None (signaled s) (queue s ++ [OtherTask n]) true
                    (cpc s) (opc s) (body_started s) (body_finished s))
  | Some _ => None
  end.

Definition sync_step (m : move) (s : sync_state) : option sync_state :=
  match m with
  | MCaller => sync_ s
  | MOwner => callback_thread s
  | MSpurious =>
      Some (mkSync (holder s) (signaled s) (queue s) (wake_pending s)
              (wake_caller (cpc s)) (opc s) (body_started s) (body_finished s))
  | MEnqueue n => other_enqueue n s
  end.

(** A move that is not enabled leaves the state as it is. *)
Definition sync_run (ms : list move) (s : sync_state) : sync_state :=
  foldl (λ s m, default s (sync_step m s)) s ms.

(** [sync_] is called while the owning thread is anywhere outside the
    closure, with any tasks already queued. *)
Definition sync_init (q : list nat) (pending : bool) : sync_state :=
  mkSync None false (OtherTask <$> q) pending C_start O_idle false false.


(** ** Sample states *)

(** A process in which one group, at address 100, has created isolate 7. *)
Definition sample_process : Process :=
  {| s_platform := Some 4%nat; s_init_count := 1;
     s_isolate_map := {[ 7%nat := 100%nat ]}; v8_initialized := true |}.

Definition sample_world (g : ContextGroup) : World :=
  {| proc := sample_process; self := 100%nat; this := g |}.

Definition sample_group : ContextGroup :=
  construct 7 true None 1 (mkStartupData None 0) false.

(** The same group when it adopted isolate 7 instead of creating it. *)
Definition borrowing_group : ContextGroup :=
  construct 7 false (Some 3%nat) 1 (mkStartupData None 0) false.

(** Two context zombies that are still running, behind a defunct one. *)
Definition zombie_group : ContextGroup :=
  set_m_context_zombies
    [mkJSContext 10 true; mkJSContext 11 false; mkJSContext 12 false]
    (set_m_value_zombies [mkJSValue 20] sample_group).

(** A queue of a native task, during which task 3 arrives, and a Java task
    whose method is found in the superclass. *)
Definition native_task (i : nat) (arr : list Runnable) : Runnable :=
  mkRunnable i (mkJobject 0 []) (mkJobject 0 []) JNI_OK (Some i) arr.
Definition java_task (i : nat) (chain : list bool) : Runnable :=
  mkRunnable i (mkJobject 40 chain) (mkJobject 41 []) JNI_EDETACHED None [].

Definition queue_group : ContextGroup :=
  set_m_async_handle (Some 5%nat)
    (set_m_runnables
       [native_task 1 [native_task 3 []]; java_task 2 [false; true]]
       sample_group).

(** The callback (1, 7) registered twice, around another one. *)
Definition gc_group : ContextGroup :=
  set_m_gc_callbacks
    [mkGCCallback 50 1 7; mkGCCallback 51 2 7; mkGCCallback 52 1 7]
    sample_group.

(** A group with pending tasks and managed objects, one of them gone. *)
Definition busy_group : ContextGroup :=
  set_m_managedContexts [mkWeak 31 true]
    (set_m_managedValues [mkWeak 30 true; mkWeak 32 false]
       (set_m_runnables [native_task 1 []; native_task 2 []] sample_group)).

(** A regular file that can be read to its end, and a directory: [fopen]
    in mode "rb" opens it, and [ftell] at its end answers [LONG_MAX]. *)
Definition regular_file (contents : list Byte.byte) : File :=
  mkFile contents (length contents) (Z.of_nat (length contents)).
Definition directory : File := mkFile [] 0 LONG_MAX.

(** A heap that grants requests of up to 4 GiB. *)
Definition sample_heap : Z -> bool := λ n, bool_decide (n <= 2 ^ 32).

(** The queue of [queue_group], with a zombie context that still runs. *)
Definition stale_group : ContextGroup :=
  set_m_context_zombies [mkJSContext 11 false] queue_group.


(** ** Further readings of traces *)

Definition value_reset_of (e : Event) : option nat :=
  match e with
  | EvValueReset v => Some v
  | _ => None
  end.
Definition value_resets (tr : list Event) : list nat := omap value_reset_of tr.

(** The GC callbacks a trace delivers: callback, GC type, flags, data. *)
Definition gc_delivery_of (e : Event) : option (nat * Z * Z * nat) :=
  match e with
  | EvGCCallback cb gctype flags data => Some (cb, gctype, flags, data)
  | _ => None
  end.
Definition gc_deliveries (tr : list Event) : list (nat * Z * Z * nat) :=
  omap gc_delivery_of tr.

(** The handles a trace sends a wake on. *)
Definition wake_of (e : Event) : option nat :=
  match e with
  | EvUvAsyncSend h => Some h
  | _ => None
  end.
Definition wakes_sent (tr : list Event) : list nat := omap wake_of tr.

Definition count_event (e : Event) (tr : list Event) : nat :=
  length (filter (λ e', e' = e) tr).

(** The mutex protocol of a trace.  The state is the one mutex that is held,
    if any.  A [lock] while some mutex is held, and an [unlock] of a mutex
    that is not the one held, break the protocol (a [std::mutex] is not
    recursive); otherwise the state after the trace is returned. *)
Fixpoint well_locked (st : option Mutex) (tr : list Event) : option (option Mutex) :=
  match tr with
  | [] => Some st
  | EvLock m :: tr' =>
      match st with
      | None => well_locked (Some m) tr'
      | Some _ => None
      end
  | EvUnlock m :: tr' =>
      match st with
      | Some m' => if decide (m' = m) then well_locked None tr' else None
      | None => None
      end
  | _ :: tr' => well_locked st tr'
  end.

(** ** Sequences of calls *)

(** [schedule_java_runnable] called for each runnable in turn; the second
    component is the handle [new uv_async_t] would return for that call. *)
Fixpoint schedule_all (rs : list (Runnable * nat)) : M unit :=
  match rs with
  | [] => mret tt
  | (r, h) :: rest => schedule_java_runnable r h;; schedule_all rest
  end.


(** Whether the body of a runnable can be delivered: a native closure
    always, a Java runnable when [inContextCallback] is found at some class
    of the receiver. *)
Definition method_found (r : Runnable) : bool :=
  match c_runnable r with
  | Some _ => true
  | None => bool_decide (true ∈ jclass_chain (thiz r))
  end.

(** The same for a runnable and everything that arrives while it and its
    arrivals run. *)
Fixpoint deliverable (r : Runnable) : bool :=
  method_found r &&
  (fix go (l : list Runnable) : bool :=
     match l with
     | [] => true
     | a :: l' => deliverable a && go l'
     end) (arrivals r).

(** A run keeps the mutex protocol: its trace, started with no mutex held,
    never breaks it, and when the run returns no mutex is held. *)
Definition keeps_protocol (r : Outcome unit * World * list Event) : Prop :=
  ∃ st, well_locked None (events r) = Some st ∧ (outcome r = Ret tt → st = None).

(** What the shared wake-up emits, given the handle the group had. *)
Definition wake_events (h : nat) (old : option nat) : list Event :=
  match old with
  | Some _ => []
  | None => [EvUvAsyncInit h; EvUvAsyncSend h]
  end.

(** The handle the group has after the shared wake-up. *)
Definition wake_handle (h : nat) (old : option nat) : option nat :=
  Some (default h old).

(** The context zombies a trace lets go of, and the runnables it deletes. *)
Definition context_reset_of (e : Event) : option nat :=
  match e with
  | EvContextReset c => Some c
  | _ => None
  end.
Definition context_resets (tr : list Event) : list nat := omap context_reset_of tr.

Definition delete_of (e : Event) : option nat :=
  match e with
  | EvDeleteRunnable i => Some i
  | _ => None
  end.
Definition deleted (tr : list Event) : list nat := omap delete_of tr.

(** Work is pending for the owning thread: a task or a zombie. *)
Definition has_work (g : ContextGroup) : Prop :=
  m_runnables g ≠ [] ∨ m_value_zombies g ≠ [] ∨ m_context_zombies g ≠ [].

(** Pending work has a wake-up under way. *)
Definition wake_inv (g : ContextGroup) : Prop :=
  has_work g → is_Some (m_async_handle g).


(** ** The two threads of [sync_]: who holds the mutex, and the queue front *)

(** The program points at which a thread holds the queue mutex. *)
Definition owner_holds (pc : owner_pc) : bool :=
  match pc with
  | O_pick | O_signal | O_erase => true
  | _ => false
  end.
Definition caller_holds (pc : caller_pc) : bool :=
  match pc with
  | C_push | C_check | C_unlock => true
  | _ => false
  end.

(** What the owning thread relies on at the front of the queue: the
    runnable it is running, which it erases afterwards. *)
Definition front_needed (pc : owner_pc) (q : list task) : Prop :=
  match pc with
  | O_call t => head q = Some t
  | O_in_body | O_after_body | O_signal | O_notify => head q = Some SyncTask
  | O_relock | O_erase => q ≠ []
  | O_idle | O_lock | O_pick => True
  end.

Definition sync_lock_inv (s : sync_state) : Prop :=
  (holder s = Some Owner ↔ owner_holds (opc s) = true) ∧
  (holder s = Some Caller ↔ caller_holds (cpc s) = true) ∧
  front_needed (opc s) (queue s).

(** A schedule under which [sync_] returns: the caller queues its task and
    blocks; the owning thread wakes up, runs the [n] tasks queued before,
    then the closure, and signals; the caller wakes up and returns. *)
Fixpoint owner_rounds (n : nat) : list move :=
  match n with
  | O => []
  | S n' => [MOwner; MOwner; MOwner; MOwner] ++ owner_rounds n'
  end.
Definition returning_schedule (n : nat) : list move :=
  [MCaller; MCaller; MCaller] ++ [MOwner; MOwner] ++ owner_rounds n ++
  [MOwner; MOwner; MOwner; MOwner; MOwner; MOwner] ++
  [MCaller; MCaller; MCaller].

(** A literal list of events does not hold an event of another shape. *)
Ltac not_in_list :=
  repeat (apply not_elem_of_cons; split; [discriminate |]); apply not_elem_of_nil.
(** ** Closed forms of the lifecycle calls *)

Lemma wrap_int_small z : - 2 ^ 31 <= z <= INT_MAX -> wrap_int z = z.
Proof.
  unfold wrap_int, INT_MAX. intros Hz.
  rewrite Z.mod_small; lia.
Qed.

Lemma init_v8_first w :
  s_init_count (proc w) = 0 ->
  init_v8 w =
    (Ret tt,
     {| proc := {| s_platform := Some 4%nat; s_init_count := 1;
                   s_isolate_map := s_isolate_map (proc w);
                   v8_initialized := true |};
        self := self w; this := this w |},
     [EvLock s_mutex; EvCreateDefaultPlatform 4; EvInitializePlatform;
      EvV8Initialize; EvUnlock s_mutex]).
Proof.
  intros H0. unfold init_v8, mbind, M_bind; simpl.
  rewrite H0. reflexivity.
Qed.

Lemma init_v8_later w :
  s_init_count (proc w) <> 0 ->
  init_v8 w =
    (Ret tt,
     {| proc := set_s_init_count (wrap_int (s_init_count (proc w) + 1)) (proc w);
        self := self w; this := this w |},
     [EvLock s_mutex; EvUnlock s_mutex]).
Proof.
  intros Hne. unfold init_v8, mbind, M_bind; simpl.
  destruct (decide (s_init_count (proc w) = 0)); [contradiction | reflexivity].
Qed.

Lemma dispose_v8_zero w :
  s_init_count (proc w) = 0 ->
  dispose_v8 w =
    (Ret tt,
     {| proc := set_s_platform None (set_v8_initialized false (proc w));
        self := self w; this := this w |},
     [EvLock s_mutex; EvV8Dispose; EvShutdownPlatform; EvDeletePlatform;
      EvUnlock s_mutex]).
Proof.
  intros H0. unfold dispose_v8, mbind, M_bind; simpl.
  destruct (decide (s_init_count (proc w) = 0)); [reflexivity | contradiction].
Qed.

Lemma dispose_v8_nonzero w :
  s_init_count (proc w) <> 0 ->
  dispose_v8 w = (Ret tt, w, [EvLock s_mutex; EvUnlock s_mutex]).
Proof.
  intros Hne. unfold dispose_v8, mbind, M_bind; simpl.
  destruct (decide (s_init_count (proc w) = 0)); [contradiction |].
  destruct w; reflexivity.
Qed.

Lemma dispose_v8_count w :
  s_init_count (proc (world (dispose_v8 w))) = s_init_count (proc w).
Proof.
  destruct (decide (s_init_count (proc w) = 0)) as [H0 | Hne].
  - rewrite (dispose_v8_zero w H0). reflexivity.
  - rewrite (dispose_v8_nonzero w Hne). reflexivity.
Qed.

Lemma init_v8_count w :
  0 <= s_init_count (proc w) < INT_MAX ->
  s_init_count (proc (world (init_v8 w))) = s_init_count (proc w) + 1.
Proof.
  intros Hr.
  destruct (decide (s_init_count (proc w) = 0)) as [H0 | Hne].
  - rewrite (init_v8_first w H0). simpl. lia.
  - rewrite (init_v8_later w Hne). simpl.
    apply wrap_int_small. unfold INT_MAX in *. lia.
Qed.

(** After a run of lifecycle calls from a state in which the runtime is up
    and the count is positive, the runtime is still up. *)
Lemma run_v8_ops_keeps_runtime ops : forall w,
  0 < s_init_count (proc w) ->
  s_init_count (proc w) + count_inits ops <= INT_MAX ->
  outcome (run_v8_ops ops w) = Ret tt /\
  s_init_count (proc (world (run_v8_ops ops w))) =
    s_init_count (proc w) + count_inits ops /\
  v8_initialized (proc (world (run_v8_ops ops w))) = v8_initialized (proc w) /\
  s_platform (proc (world (run_v8_ops ops w))) = s_platform (proc w) /\
  (EvV8Dispose ∉ events (run_v8_ops ops w)) /\
  (EvV8Initialize ∉ events (run_v8_ops ops w)).
Proof.
  induction ops as [| [ | ] ops IH]; intros w Hpos Hmax.
  - unfold count_inits, outcome, world, events; simpl.
    repeat split; try lia; apply not_elem_of_nil.
  - assert (Hc : count_inits (OpInit :: ops) = 1 + count_inits ops).
    { unfold count_inits. rewrite filter_cons_True by done. simpl length. lia. }
    rewrite Hc in *.
    assert (Hn : s_init_count (proc w) <> 0) by lia.
    assert (Hnn : 0 <= count_inits ops) by (unfold count_inits; lia).
    pose proof (init_v8_later w Hn) as Hi.
    simpl. unfold mbind, M_bind. rewrite Hi.
    set (w1 := {| proc := _; self := _; this := _ |}).
    assert (Hw1 : s_init_count (proc w1) = s_init_count (proc w) + 1).
    { subst w1. simpl. apply wrap_int_small. unfold INT_MAX in *. lia. }
    destruct (IH w1) as (Ho & Hcnt & Hv & Hp & Hd & Hini); [lia | lia |].
    destruct (run_v8_ops ops w1) as [[r w2] t2] eqn:E.
    unfold outcome, world, events in *; simpl in *.
    repeat split; try done; try lia.
    + intros Hin. repeat (apply elem_of_cons in Hin as [Hin | Hin]; [discriminate |]).
      done.
    + intros Hin. repeat (apply elem_of_cons in Hin as [Hin | Hin]; [discriminate |]).
      done.
  - assert (Hc : count_inits (OpDispose :: ops) = count_inits ops).
    { unfold count_inits. rewrite filter_cons_False by done. reflexivity. }
    rewrite Hc in *.
    assert (Hn : s_init_count (proc w) <> 0) by lia.
    pose proof (dispose_v8_nonzero w Hn) as Hi.
    simpl. unfold mbind, M_bind. rewrite Hi.
    destruct (IH w) as (Ho & Hcnt & Hv & Hp & Hd & Hini); [lia | lia |].
    destruct (run_v8_ops ops w) as [[r w2] t2] eqn:E.
    unfold outcome, world, events in *; simpl in *.
    repeat split; try done.
    + intros Hin. repeat (apply elem_of_cons in Hin as [Hin | Hin]; [discriminate |]).
      done.
    + intros Hin. repeat (apply elem_of_cons in Hin as [Hin | Hin]; [discriminate |]).
      done.
Qed.
Lemma count_inits_cons_init ops : count_inits (OpInit :: ops) = 1 + count_inits ops.
Proof. unfold count_inits. rewrite filter_cons_True by done. simpl length. lia. Qed.

Lemma count_inits_cons_dispose ops : count_inits (OpDispose :: ops) = count_inits ops.
Proof. unfold count_inits. rewrite filter_cons_False by done. reflexivity. Qed.

Lemma count_inits_nonneg ops : 0 <= count_inits ops.
Proof. unfold count_inits. lia. Qed.

(** From a process in which the runtime was never brought up. *)
Lemma run_v8_ops_from_start ops : forall w,
  s_init_count (proc w) = 0 ->
  v8_initialized (proc w) = false ->
  s_platform (proc w) = None ->
  count_inits ops <= INT_MAX ->
  s_init_count (proc (world (run_v8_ops ops w))) = count_inits ops /\
  v8_initialized (proc (world (run_v8_ops ops w))) = bool_decide (OpInit ∈ ops).
Proof.
  induction ops as [| [ | ] ops IH]; intros w H0 Hv Hp Hmax.
  - unfold world; simpl. rewrite H0, Hv. split; reflexivity.
  - rewrite count_inits_cons_init in *.
    pose proof (count_inits_nonneg ops) as Hnn.
    simpl. unfold mbind, M_bind. rewrite (init_v8_first w H0).
    set (w1 := {| proc := _; self := _; this := _ |}).
    destruct (run_v8_ops_keeps_runtime ops w1) as (_ & Hc & Hi & _);
      [simpl; lia | simpl; lia |].
    destruct (run_v8_ops ops w1) as [[r w2] t2] eqn:E.
    unfold world in *; simpl in *. split; [lia |].
    rewrite Hi. reflexivity.
  - rewrite count_inits_cons_dispose in *.
    simpl. unfold mbind, M_bind. rewrite (dispose_v8_zero w H0).
    set (w1 := {| proc := _; self := _; this := _ |}).
    destruct (IH w1) as (Hc & Hi); try done.
    destruct (run_v8_ops ops w1) as [[r w2] t2] eqn:E.
    unfold world in *; simpl in *. split; [done |].
    rewrite Hi. apply bool_decide_ext. rewrite elem_of_cons.
    split; [by right | by intros [? | ?]].
Qed.

(** C6 (as the code has it): [init_v8] raises the process-wide count by one
    and brings the runtime up exactly when the count was zero; [dispose_v8]
    never lowers the count and shuts the runtime down only while the count is
    zero.  Hence, from process start, the count is the number of [init_v8]
    calls so far and the runtime is up as soon as one of them has happened,
    whatever [dispose_v8] calls follow.  A second [dispose_v8] leaves the
    statics as the first did, and a second [init_v8] only raises the count. *)
Theorem engine_runtime_lifecycle :
  (forall w, 0 <= s_init_count (proc w) < INT_MAX ->
     s_init_count (proc (world (init_v8 w))) = s_init_count (proc w) + 1) /\
  (forall w, EvV8Initialize ∈ events (init_v8 w) <-> s_init_count (proc w) = 0) /\
  (forall w, s_init_count (proc (world (dispose_v8 w))) = s_init_count (proc w)) /\
  (forall w, EvV8Dispose ∈ events (dispose_v8 w) <-> s_init_count (proc w) = 0) /\
  (forall ops, count_inits ops <= INT_MAX ->
     s_init_count (proc (world (run_v8_ops ops initial_world))) = count_inits ops /\
     v8_initialized (proc (world (run_v8_ops ops initial_world)))
       = bool_decide (OpInit ∈ ops)) /\
  (forall w, proc (world ((dispose_v8;; dispose_v8) w)) = proc (world (dispose_v8 w))) /\
  (forall w, 0 <= s_init_count (proc w) <= INT_MAX ->
     s_platform (proc (world ((init_v8;; init_v8) w)))
       = s_platform (proc (world (init_v8 w))) /\
     v8_initialized (proc (world ((init_v8;; init_v8) w)))
       = v8_initialized (proc (world (init_v8 w)))).
Proof.
  repeat apply conj.
  - apply init_v8_count.
  - intros w. destruct (decide (s_init_count (proc w) = 0)) as [H0 | Hne].
    + rewrite (init_v8_first w H0). unfold events; simpl.
      split; [done |]. intros _. set_solver.
    + rewrite (init_v8_later w Hne). unfold events; simpl.
      split; [| done]. intros Hin.
      repeat (apply elem_of_cons in Hin as [Hin | Hin]; [discriminate |]).
      by apply not_elem_of_nil in Hin.
  - apply dispose_v8_count.
  - intros w. destruct (decide (s_init_count (proc w) = 0)) as [H0 | Hne].
    + rewrite (dispose_v8_zero w H0). unfold events; simpl.
      split; [done |]. intros _. set_solver.
    + rewrite (dispose_v8_nonzero w Hne). unfold events; simpl.
      split; [| done]. intros Hin.
      repeat (apply elem_of_cons in Hin as [Hin | Hin]; [discriminate |]).
      by apply not_elem_of_nil in Hin.
  - intros ops Hmax. by apply run_v8_ops_from_start.
  - intros w. unfold mbind, M_bind.
    destruct (decide (s_init_count (proc w) = 0)) as [H0 | Hne].
    + rewrite (dispose_v8_zero w H0).
      set (w1 := {| proc := _; self := _; this := _ |}).
      rewrite (dispose_v8_zero w1) by (subst w1; simpl; done).
      reflexivity.
    + rewrite (dispose_v8_nonzero w Hne).
      rewrite (dispose_v8_nonzero w Hne). reflexivity.
  - intros w Hnn. unfold mbind, M_bind.
    destruct (decide (s_init_count (proc w) = 0)) as [H0 | Hne].
    + rewrite (init_v8_first w H0).
      set (w1 := {| proc := _; self := _; this := _ |}).
      rewrite (init_v8_later w1) by (subst w1; simpl; done).
      split; reflexivity.
    + rewrite (init_v8_later w Hne).
      set (w1 := {| proc := _; self := _; this := _ |}).
      assert (Hw1 : s_init_count (proc w1) <> 0).
      { subst w1; simpl. unfold wrap_int.
        pose proof (Z.mod_pos_bound (s_init_count (proc w) + 1 + 2 ^ 31) (2 ^ 32)
                      ltac:(lia)) as Hb.
        destruct (decide (s_init_count (proc w) < INT_MAX)) as [Hlt | Hge].
        - rewrite Z.mod_small by (unfold INT_MAX in *; lia). lia.
        - assert (Hmaxed : s_init_count (proc w) = INT_MAX) by lia.
          rewrite Hmaxed. unfold INT_MAX. discriminate. }
      rewrite (init_v8_later w1 Hw1). split; reflexivity.
Qed.

(** ** GC callback registry *)

Lemma with_gc_callbacks_id w : with_gc_callbacks (m_gc_callbacks (this w)) w = w.
Proof. destruct w as [p s []]; reflexivity. Qed.

Lemma unregister_loop_fold cb data pending : forall w,
  unregister_loop cb data pending w =
    (Ret tt,
     with_gc_callbacks (unregister_fold cb data pending (m_gc_callbacks (this w))) w,
     []).
Proof.
  induction pending as [| item rest IH]; intros w.
  - unfold unregister_fold; simpl. rewrite with_gc_callbacks_id. reflexivity.
  - cbn [unregister_loop unregister_fold foldl]. unfold mbind, M_bind.
    unfold gc_matches in *.
    destruct (decide (gc_cb item = cb ∧ gc_data item = data)) as [Hm | Hm].
    + unfold upd_this at 1. rewrite IH. reflexivity.
    + unfold mret, M_ret at 1. rewrite IH. reflexivity.
Qed.

(** What the fold keeps: the entries whose cell is not the cell of a visited
    matching node. *)
Lemma unregister_fold_filter cb data pending : forall cur,
  unregister_fold cb data pending cur =
    filter (λ e, Forall (λ item, gc_matches cb data item →
                                 gc_addr e ≠ gc_addr item) pending) cur.
Proof.
  induction pending as [| item rest IH]; intros cur.
  - unfold unregister_fold; simpl. symmetry.
    induction cur as [| e cur IHc]; [done |].
    rewrite filter_cons_True; [by rewrite IHc | constructor].
  - unfold unregister_fold in *. cbn [foldl]. rewrite IH.
    destruct (decide (gc_matches cb data item)) as [Hm | Hm].
    + unfold list_remove. rewrite list_filter_filter.
      apply list_filter_iff. intros e. rewrite Forall_cons. split.
      * intros [Hrest Hne]. split; [done | done].
      * intros [Hhd Hrest]. split; [done | by apply Hhd].
    + apply list_filter_iff. intros e. rewrite Forall_cons. split.
      * intros Hrest. split; [done | done].
      * intros [_ Hrest]. done.
Qed.

Lemma filter_ext_elem {A} (P Q : A -> Prop) `{!∀ x, Decision (P x)}
    `{!∀ x, Decision (Q x)} (l : list A) :
  (∀ x, x ∈ l → P x ↔ Q x) → filter P l = filter Q l.
Proof.
  induction l as [| x l IH]; intros Hext; [done |].
  assert (Hl : filter P l = filter Q l).
  { apply IH. intros y Hy. apply Hext. by right. }
  destruct (decide (P x)) as [HP | HP].
  - rewrite !filter_cons_True; [by rewrite Hl | | done].
    apply Hext; [by left | done].
  - rewrite !filter_cons_False; [done | | done].
    intros HQ. apply HP. apply Hext; [by left | done].
Qed.

Lemma filter_complement_nil {A} (P : A -> Prop) `{!∀ x, Decision (P x)} (l : list A) :
  filter P (filter (λ x, ¬ P x) l) = [].
Proof.
  induction l as [| x l IH]; [done |].
  destruct (decide (P x)) as [HP | HP].
  - rewrite (filter_cons_False (λ x, ¬ P x)) by tauto. exact IH.
  - rewrite (filter_cons_True (λ x, ¬ P x)) by done.
    rewrite filter_cons_False by done. exact IH.
Qed.

Lemma NoDup_addr_inj (l : list GCCallback) e1 e2 :
  NoDup (gc_addr <$> l) → e1 ∈ l → e2 ∈ l → gc_addr e1 = gc_addr e2 → e1 = e2.
Proof.
  induction l as [| x l IH]; intros Hnd H1 H2 Heq.
  - by apply elem_of_nil in H1.
  - rewrite fmap_cons in Hnd. apply NoDup_cons in Hnd as [Hx Hnd].
    apply elem_of_cons in H1 as [-> | H1]; apply elem_of_cons in H2 as [-> | H2].
    + done.
    + exfalso. apply Hx. rewrite Heq. by apply list_elem_of_fmap_2.
    + exfalso. apply Hx. rewrite <- Heq. by apply list_elem_of_fmap_2.
    + by apply IH.
Qed.

Lemma unregister_fold_self cb data l :
  NoDup (gc_addr <$> l) →
  unregister_fold cb data l l = filter (λ e, ¬ gc_matches cb data e) l.
Proof.
  intros Hnd. rewrite unregister_fold_filter.
  apply filter_ext_elem. intros e He. rewrite Forall_forall. split.
  - intros Hall Hm. by apply (Hall e).
  - intros Hnm item Hin Hm Heq.
    apply Hnm. by rewrite (NoDup_addr_inj l e item).
Qed.

Lemma NoDup_addr_filter (P : GCCallback -> Prop) `{!∀ x, Decision (P x)} l :
  NoDup (gc_addr <$> l) → NoDup (gc_addr <$> filter P l).
Proof.
  induction l as [| x l IH]; intros Hnd; [done |].
  rewrite fmap_cons in Hnd. apply NoDup_cons in Hnd as [Hx Hnd].
  destruct (decide (P x)).
  - rewrite filter_cons_True by done. rewrite fmap_cons. apply NoDup_cons.
    split; [| by apply IH].
    intros Hin. apply Hx. apply list_elem_of_fmap in Hin as (y & -> & Hy).
    apply list_elem_of_fmap_2. by apply list_elem_of_filter in Hy as [_ Hy].
  - rewrite filter_cons_False by done. by apply IH.
Qed.

Lemma RegisterGCCallback_NoDup addr cb data w :
  NoDup (gc_addr <$> m_gc_callbacks (this w)) →
  addr ∉ gc_addr <$> m_gc_callbacks (this w) →
  NoDup (gc_addr <$> m_gc_callbacks (this (world (RegisterGCCallback addr cb data w)))).
Proof.
  intros Hnd Hfresh. unfold world; simpl.
  rewrite fmap_app. apply NoDup_app. repeat split; [done | | ].
  - intros x Hx Hin. simpl in Hin. apply list_elem_of_singleton in Hin. by subst.
  - simpl. apply NoDup_singleton.
Qed.

(** C8: on a callback list whose entries own distinct cells (which [new]
    guarantees), [UnregisterGCCallback cb data] returns and leaves exactly
    the entries that do not match, in their order: every entry with this
    callback and this data pointer is gone, duplicates included, and no other
    entry or field is touched.  Registering a pair and unregistering it at
    once leaves no matching entry; on an empty list it leaves no entry. *)
Theorem unregister_removes_all_matching (cb data : nat) (w : World) :
  NoDup (gc_addr <$> m_gc_callbacks (this w)) →
  UnregisterGCCallback cb data w =
    (Ret tt,
     with_gc_callbacks
       (filter (λ e, ¬ gc_matches cb data e) (m_gc_callbacks (this w))) w,
     []) ∧
  (∀ e, e ∈ m_gc_callbacks (this (world (UnregisterGCCallback cb data w))) ↔
        e ∈ m_gc_callbacks (this w) ∧ ¬ gc_matches cb data e) ∧
  NoDup (gc_addr <$> m_gc_callbacks (this (world (UnregisterGCCallback cb data w)))) ∧
  (∀ addr, addr ∉ gc_addr <$> m_gc_callbacks (this w) →
     let w' := world ((RegisterGCCallback addr cb data;;
                       UnregisterGCCallback cb data) w) in
     filter (gc_matches cb data) (m_gc_callbacks (this w')) = [] ∧
     m_gc_callbacks (this w') =
       filter (λ e, ¬ gc_matches cb data e) (m_gc_callbacks (this w)) ∧
     (m_gc_callbacks (this w) = [] → m_gc_callbacks (this w') = [])).
Proof.
  intros Hnd.
  assert (Hrun : ∀ w0, NoDup (gc_addr <$> m_gc_callbacks (this w0)) →
            UnregisterGCCallback cb data w0 =
              (Ret tt,
               with_gc_callbacks
                 (filter (λ e, ¬ gc_matches cb data e) (m_gc_callbacks (this w0))) w0,
               [])).
  { intros w0 Hnd0. unfold UnregisterGCCallback, mbind, M_bind, get_this.
    rewrite unregister_loop_fold. rewrite unregister_fold_self by done.
    reflexivity. }
  repeat apply conj.
  - by apply Hrun.
  - intros e. rewrite (Hrun w Hnd). unfold world; simpl.
    rewrite list_elem_of_filter. tauto.
  - rewrite (Hrun w Hnd). unfold world; simpl. by apply NoDup_addr_filter.
  - intros addr Hfresh w'.
    assert (Hw' : m_gc_callbacks (this w') =
                  filter (λ e, ¬ gc_matches cb data e) (m_gc_callbacks (this w))).
    { subst w'. unfold mbind, M_bind.
      pose proof (RegisterGCCallback_NoDup addr cb data w Hnd Hfresh) as Hnd1.
      unfold RegisterGCCallback, upd_this in *. unfold world in Hnd1; simpl in Hnd1.
      rewrite Hrun by (simpl; done).
      unfold world; simpl. rewrite filter_app.
      rewrite filter_cons_False, filter_nil, app_nil_r; [done |].
      intros Hn. apply Hn. split; reflexivity. }
    repeat apply conj.
    + rewrite Hw'. apply filter_complement_nil.
    + exact Hw'.
    + intros Hnil. rewrite Hw', Hnil. reflexivity.
Qed.

(** ** Zombie collector *)

Lemma with_this_id w : with_this (λ g, g) w = w.
Proof. destruct w; reflexivity. Qed.

Lemma free_value_zombies_run vs : forall w,
  ∃ l, free_value_zombies vs w =
         (Ret tt, with_this (set_m_value_zombies l) w,
          (λ v, EvValueReset (val_id v)) <$> vs).
Proof.
  induction vs as [| v rest IH]; intros w.
  - exists (m_value_zombies (this w)). simpl. unfold mret, M_ret.
    destruct w as [p s []]; reflexivity.
  - cbn [free_value_zombies]. unfold mbind, M_bind, upd_this, emit.
    destruct (IH {| proc := proc w; self := self w;
                    this := set_m_value_zombies rest (this w) |}) as [l Hl].
    exists l. rewrite Hl. reflexivity.
Qed.

(** Release build: every entry is examined and released. *)
Lemma free_context_zombies_release cs : forall w,
  DEBUG = false →
  free_context_zombies cs w = (Ret tt, w, flat_map zombie_block cs).
Proof.
  induction cs as [| ctx rest IH]; intros w HD; [reflexivity |].
  cbn [free_context_zombies flat_map]. unfold zombie_block at 1.
  unfold mbind, M_bind.
  destruct (IsDefunct ctx).
  - unfold mret, M_ret, emit. rewrite IH by done. reflexivity.
  - rewrite HD. unfold mret, M_ret, emit. rewrite IH by done. reflexivity.
Qed.

(** Any build: entries that are already defunct are only released. *)
Lemma free_context_zombies_defunct cs : forall w,
  Forall (λ ctx, IsDefunct ctx = true) cs →
  free_context_zombies cs w =
    (Ret tt, w, (λ ctx, EvContextReset (ctx_id ctx)) <$> cs).
Proof.
  intros w Hall. revert w. induction Hall as [| ctx rest Hd _ IH]; intros w; [reflexivity |].
  cbn [free_context_zombies]. unfold mbind, M_bind. rewrite Hd.
  unfold mret, M_ret, emit. rewrite IH. reflexivity.
Qed.

(** Debug build: the assertion stops the loop at the first live entry. *)
Lemma free_context_zombies_debug cs1 ctx cs2 : forall w,
  DEBUG = true →
  Forall (λ ctx, IsDefunct ctx = true) cs1 →
  IsDefunct ctx = false →
  free_context_zombies (cs1 ++ ctx :: cs2) w =
    (Abort, w,
     ((λ ctx, EvContextReset (ctx_id ctx)) <$> cs1) ++
     [EvEnterContext (ctx_id ctx);
      EvProcessExit (ctx_id ctx) CONTEXT_GARBAGE_COLLECTED_BUT_PROCESS_STILL_ACTIVE;
      EvLogAssert]).
Proof.
  intros w HD Hall Hlive. revert w. induction Hall as [| c rest Hd _ IH]; intros w.
  - cbn [app free_context_zombies fmap list_fmap].
    unfold mbind, M_bind. rewrite Hlive, HD. reflexivity.
  - cbn [app free_context_zombies]. unfold mbind, M_bind.
    rewrite Hd. unfold mret, M_ret, emit. rewrite IH. reflexivity.
Qed.

Lemma FreeZombies_release w :
  DEBUG = false →
  FreeZombies w =
    (Ret tt, zombies_cleared w,
     [EvLock m_zombie_mutex] ++
     ((λ v, EvValueReset (val_id v)) <$> m_value_zombies (this w)) ++
     flat_map zombie_block (m_context_zombies (this w)) ++
     [EvUnlock m_zombie_mutex]).
Proof.
  intros HD. unfold FreeZombies, mbind, M_bind, lock, unlock, emit, get_this, upd_this.
  destruct (free_value_zombies_run (m_value_zombies (this w)) w) as [l Hl].
  rewrite Hl. rewrite free_context_zombies_release by done.
  reflexivity.
Qed.

Lemma FreeZombies_defunct w :
  Forall (λ ctx, IsDefunct ctx = true) (m_context_zombies (this w)) →
  FreeZombies w =
    (Ret tt, zombies_cleared w,
     [EvLock m_zombie_mutex] ++
     ((λ v, EvValueReset (val_id v)) <$> m_value_zombies (this w)) ++
     ((λ ctx, EvContextReset (ctx_id ctx)) <$> m_context_zombies (this w)) ++
     [EvUnlock m_zombie_mutex]).
Proof.
  intros Hall. unfold FreeZombies, mbind, M_bind, lock, unlock, emit, get_this, upd_this.
  destruct (free_value_zombies_run (m_value_zombies (this w)) w) as [l Hl].
  rewrite Hl. rewrite free_context_zombies_defunct by done.
  reflexivity.
Qed.

Lemma FreeZombies_debug w cs1 ctx cs2 :
  DEBUG = true →
  m_context_zombies (this w) = cs1 ++ ctx :: cs2 →
  Forall (λ ctx, IsDefunct ctx = true) cs1 →
  IsDefunct ctx = false →
  FreeZombies w =
    (Abort, with_this (set_m_value_zombies []) w,
     [EvLock m_zombie_mutex] ++
     ((λ v, EvValueReset (val_id v)) <$> m_value_zombies (this w)) ++
     ((λ ctx, EvContextReset (ctx_id ctx)) <$> cs1) ++
     [EvEnterContext (ctx_id ctx);
      EvProcessExit (ctx_id ctx) CONTEXT_GARBAGE_COLLECTED_BUT_PROCESS_STILL_ACTIVE;
      EvLogAssert]).
Proof.
  intros HD Hz Hall Hlive.
  unfold FreeZombies, mbind, M_bind, lock, unlock, emit, get_this, upd_this.
  destruct (free_value_zombies_run (m_value_zombies (this w)) w) as [l Hl].
  rewrite Hl. cbn [this with_this set_m_value_zombies m_context_zombies].
  rewrite Hz. rewrite (free_context_zombies_debug cs1 ctx cs2) by done.
  reflexivity.
Qed.

Lemma forced_exits_app t1 t2 : forced_exits (t1 ++ t2) = forced_exits t1 ++ forced_exits t2.
Proof. apply omap_app. Qed.

Lemma forced_exits_value_resets (vs : list JSValue) :
  forced_exits ((λ v, EvValueReset (val_id v)) <$> vs) = [].
Proof. induction vs as [| v vs IH]; [done | exact IH]. Qed.

Lemma forced_exits_context_resets (cs : list JSContext) :
  forced_exits ((λ ctx, EvContextReset (ctx_id ctx)) <$> cs) = [].
Proof. induction cs as [| c cs IH]; [done | exact IH]. Qed.

Lemma live_zombies_app cs1 cs2 : live_zombies (cs1 ++ cs2) = live_zombies cs1 ++ live_zombies cs2.
Proof. unfold live_zombies. by rewrite filter_app, fmap_app. Qed.

Lemma live_zombies_cons ctx cs :
  live_zombies (ctx :: cs) =
    (if IsDefunct ctx then []
     else [(ctx_id ctx, CONTEXT_GARBAGE_COLLECTED_BUT_PROCESS_STILL_ACTIVE)])
    ++ live_zombies cs.
Proof.
  unfold live_zombies. destruct (IsDefunct ctx) eqn:Hd.
  - rewrite filter_cons_False; [done | by rewrite Hd].
  - rewrite filter_cons_True; [done | by rewrite Hd].
Qed.

Lemma forced_exits_zombie_block ctx :
  forced_exits (zombie_block ctx) =
    if IsDefunct ctx then []
    else [(ctx_id ctx, CONTEXT_GARBAGE_COLLECTED_BUT_PROCESS_STILL_ACTIVE)].
Proof. unfold zombie_block. by destruct (IsDefunct ctx). Qed.

Lemma forced_exits_blocks cs :
  forced_exits (flat_map zombie_block cs) = live_zombies cs.
Proof.
  induction cs as [| ctx cs IH]; [done |].
  cbn [flat_map]. rewrite forced_exits_app, live_zombies_cons, IH.
  by rewrite forced_exits_zombie_block.
Qed.

Lemma live_zombies_defunct cs :
  Forall (λ ctx, IsDefunct ctx = true) cs → live_zombies cs = [].
Proof.
  induction 1 as [| ctx cs Hd _ IH]; [done |].
  rewrite live_zombies_cons, Hd, IH. done.
Qed.

Lemma elem_of_live_zombies c code cs :
  (c, code) ∈ live_zombies cs →
  code = CONTEXT_GARBAGE_COLLECTED_BUT_PROCESS_STILL_ACTIVE ∧
  ∃ ctx, ctx ∈ cs ∧ ctx_id ctx = c ∧ IsDefunct ctx = false.
Proof.
  unfold live_zombies. intros Hin.
  apply list_elem_of_fmap in Hin as (ctx & Heq & Hctx).
  apply list_elem_of_filter in Hctx as [Hlive Hctx].
  injection Heq as -> ->. split; [done |]. by exists ctx.
Qed.

Lemma no_assert_in_blocks cs : EvLogAssert ∉ flat_map zombie_block cs.
Proof.
  induction cs as [| ctx cs IH]; [apply not_elem_of_nil |].
  cbn [flat_map]. rewrite elem_of_app. intros [Hin | Hin]; [| done].
  unfold zombie_block in Hin. destruct (IsDefunct ctx); cbn in Hin.
  - apply list_elem_of_singleton in Hin. discriminate.
  - repeat (apply elem_of_cons in Hin as [Hin | Hin]; [discriminate |]).
    by apply elem_of_nil in Hin.
Qed.

(** The first context zombie that is still running, if there is one. *)
Lemma first_live_zombie (cs : list JSContext) :
  Forall (λ ctx, IsDefunct ctx = true) cs ∨
  ∃ cs1 ctx cs2, cs = cs1 ++ ctx :: cs2 ∧
                 Forall (λ ctx, IsDefunct ctx = true) cs1 ∧ IsDefunct ctx = false.
Proof.
  induction cs as [| c cs IH]; [by left |].
  destruct (IsDefunct c) eqn:Hd.
  - destruct IH as [Hall | (cs1 & ctx & cs2 & -> & Hall & Hlive)].
    + left. by constructor.
    + right. exists (c :: cs1), ctx, cs2. repeat split; [| done]. by constructor.
  - right. exists [], c, cs. by repeat split.
Qed.

(** C2 (as the code has it).  In every build a forced exit is only ever
    issued for a context zombie that is not defunct, and with the
    distinguished exit code; a defunct zombie is released without one.  In a
    release build the pass completes and every zombie that is not defunct
    gets the exit call exactly once, inside the engine bracket that directly
    precedes the release of its reference; no assertion is raised.  In a
    debug build the pass is the same until the first zombie that is not
    defunct: its exit call is made once, the assertion is raised and kills
    the process, so neither that reference nor any later zombie is
    processed. *)
Theorem zombie_drain_forced_exits (w : World) :
  let zs := m_context_zombies (this w) in
  let code := CONTEXT_GARBAGE_COLLECTED_BUT_PROCESS_STILL_ACTIVE in
  let r := FreeZombies w in
  (∀ c code', (c, code') ∈ forced_exits (events r) →
     code' = code ∧ ∃ ctx, ctx ∈ zs ∧ ctx_id ctx = c ∧ IsDefunct ctx = false) ∧
  (DEBUG = false →
     outcome r = Ret tt ∧
     world r = zombies_cleared w ∧
     forced_exits (events r) = live_zombies zs ∧
     (EvLogAssert ∉ events r) ∧
     ∀ cs1 ctx cs2, zs = cs1 ++ ctx :: cs2 →
       ∃ pre post,
         events r =
           pre ++
           ((if IsDefunct ctx then []
             else [EvEnterContext (ctx_id ctx);
                   EvProcessExit (ctx_id ctx) code;
                   EvLeaveContext (ctx_id ctx)])
            ++ [EvContextReset (ctx_id ctx)]) ++
           post ∧
         forced_exits pre = live_zombies cs1 ∧
         forced_exits post = live_zombies cs2) ∧
  (DEBUG = true →
     (Forall (λ ctx, IsDefunct ctx = true) zs →
        outcome r = Ret tt ∧ world r = zombies_cleared w ∧
        forced_exits (events r) = [] ∧ EvLogAssert ∉ events r) ∧
     (∀ cs1 ctx cs2, zs = cs1 ++ ctx :: cs2 →
        Forall (λ ctx, IsDefunct ctx = true) cs1 → IsDefunct ctx = false →
        outcome r = Abort ∧
        forced_exits (events r) = [(ctx_id ctx, code)] ∧
        (∃ pre, events r =
                  pre ++ [EvEnterContext (ctx_id ctx);
                          EvProcessExit (ctx_id ctx) code; EvLogAssert] ∧
                forced_exits pre = []) ∧
        m_context_zombies (this (world r)) = zs)).
Proof.
  intros zs code r.
  assert (Hrel : DEBUG = false →
     outcome r = Ret tt ∧
     world r = zombies_cleared w ∧
     forced_exits (events r) = live_zombies zs ∧
     (EvLogAssert ∉ events r) ∧
     ∀ cs1 ctx cs2, zs = cs1 ++ ctx :: cs2 →
       ∃ pre post,
         events r = pre ++ zombie_block ctx ++ post ∧
         forced_exits pre = live_zombies cs1 ∧
         forced_exits post = live_zombies cs2).
  { intros HD. subst r. rewrite (FreeZombies_release w HD).
    unfold outcome, world, events; cbn [fst snd].
    repeat apply conj; [done | done | | |].
    - rewrite !forced_exits_app, forced_exits_value_resets, forced_exits_blocks.
      cbn. by rewrite app_nil_r.
    - rewrite !elem_of_app, list_elem_of_fmap.
      intros [Hin | [(v & Hv & _) | [Hin | Hin]]].
      + apply list_elem_of_singleton in Hin. discriminate.
      + discriminate.
      + by apply no_assert_in_blocks in Hin.
      + apply list_elem_of_singleton in Hin. discriminate.
    - intros cs1 ctx cs2 Hz. fold zs. rewrite Hz.
      rewrite flat_map_app. cbn [flat_map].
      exists ([EvLock m_zombie_mutex] ++
              ((λ v, EvValueReset (val_id v)) <$> m_value_zombies (this w)) ++
              flat_map zombie_block cs1),
             (flat_map zombie_block cs2 ++ [EvUnlock m_zombie_mutex]).
      split; [by rewrite <- !app_assoc |]. split.
      + rewrite !forced_exits_app, forced_exits_value_resets, forced_exits_blocks.
        done.
      + rewrite !forced_exits_app, forced_exits_blocks. cbn. by rewrite app_nil_r. }
  assert (Hdbg1 : Forall (λ ctx, IsDefunct ctx = true) zs →
        outcome r = Ret tt ∧ world r = zombies_cleared w ∧
        forced_exits (events r) = [] ∧ EvLogAssert ∉ events r).
  { intros Hall. subst r. rewrite (FreeZombies_defunct w Hall).
    unfold outcome, world, events; cbn [fst snd].
    repeat apply conj; [done | done | |].
    - rewrite !forced_exits_app, forced_exits_value_resets,
        forced_exits_context_resets. done.
    - rewrite !elem_of_app, !list_elem_of_fmap.
      intros [Hin | [(v & Hv & _) | [(ctx & Hv & _) | Hin]]]; try discriminate.
      + apply list_elem_of_singleton in Hin. discriminate.
      + apply list_elem_of_singleton in Hin. discriminate. }
  assert (Hdbg2 : DEBUG = true → ∀ cs1 ctx cs2, zs = cs1 ++ ctx :: cs2 →
        Forall (λ ctx, IsDefunct ctx = true) cs1 → IsDefunct ctx = false →
        outcome r = Abort ∧
        forced_exits (events r) = [(ctx_id ctx, code)] ∧
        (∃ pre, events r =
                  pre ++ [EvEnterContext (ctx_id ctx);
                          EvProcessExit (ctx_id ctx) code; EvLogAssert] ∧
                forced_exits pre = []) ∧
        m_context_zombies (this (world r)) = zs).
  { intros HD cs1 ctx cs2 Hz Hall Hlive. subst r.
    rewrite (FreeZombies_debug w cs1 ctx cs2 HD Hz Hall Hlive).
    unfold outcome, world, events; cbn [fst snd].
    repeat apply conj; [done | | | done].
    - rewrite !forced_exits_app, forced_exits_value_resets,
        forced_exits_context_resets. done.
    - exists ([EvLock m_zombie_mutex] ++
              ((λ v, EvValueReset (val_id v)) <$> m_value_zombies (this w)) ++
              ((λ ctx, EvContextReset (ctx_id ctx)) <$> cs1)).
      split; [by rewrite <- !app_assoc |].
      rewrite !forced_exits_app, forced_exits_value_resets,
        forced_exits_context_resets. done. }
  repeat apply conj.
  - intros c code' Hin.
    destruct (decide (DEBUG = true)) as [HD | HD].
    + destruct (first_live_zombie zs) as [Hall | (cs1 & ctx & cs2 & Hz & Hall & Hlive)].
      * destruct (Hdbg1 Hall) as (_ & _ & Hnone & _). rewrite Hnone in Hin.
        by apply elem_of_nil in Hin.
      * destruct (Hdbg2 HD cs1 ctx cs2 Hz Hall Hlive) as (_ & Hone & _).
        rewrite Hone in Hin. apply list_elem_of_singleton in Hin.
        injection Hin as -> ->. split; [done |]. exists ctx.
        repeat split; [| done]. rewrite Hz. apply elem_of_app. right. left.
    + apply not_true_is_false in HD. destruct (Hrel HD) as (_ & _ & Hex & _).
      rewrite Hex in Hin. by apply elem_of_live_zombies.
  - exact Hrel.
  - intros HD. split; [exact Hdbg1 | exact (Hdbg2 HD)].
Qed.

(** ** Reading traces: lock state *)

Lemma held_from_app m b t1 t2 :
  held_from m b (t1 ++ t2) = held_from m (held_from m b t1) t2.
Proof. unfold held_from. apply fold_left_app. Qed.

Lemma held_from_lock_free m b tr :
  Forall (λ e, is_lock_event e = false) tr → held_from m b tr = b.
Proof.
  induction 1 as [| e tr He _ IH]; [done |].
  unfold held_from in *. cbn [fold_left].
  destruct e; try discriminate; exact IH.
Qed.

Lemma check_events_app P m b h t1 t2 :
  check_events P m b h (t1 ++ t2) =
    check_events P m b h t1 && check_events P m b (held_from m h t1) t2.
Proof.
  revert h. induction t1 as [| e t1 IH]; intros h; [done |].
  cbn [app check_events]. rewrite IH. unfold held_from. cbn [fold_left].
  by rewrite andb_assoc.
Qed.

Lemma check_events_lock_free P m b tr :
  Forall (λ e, is_lock_event e = false) tr → check_events P m b b tr = true.
Proof.
  induction 1 as [| e tr He _ IH]; [done |].
  cbn [check_events]. rewrite bool_decide_eq_true_2 by done.
  destruct (P e); destruct e; try discriminate; exact IH.
Qed.

Lemma check_events_none P m b h tr :
  Forall (λ e, P e = false) tr → check_events P m b h tr = true.
Proof.
  intros Hall. revert h. induction Hall as [| e tr He _ IH]; intros h; [done |].
  cbn [check_events]. rewrite He. apply IH.
Qed.

Lemma check_events_sound P m b h tr :
  check_events P m b h tr = true ↔
  ∀ pre e post, tr = pre ++ e :: post → P e = true → held_from m h pre = b.
Proof.
  revert h. induction tr as [| x tr IH]; intros h.
  - split; [| done]. intros _ [| ??] ?? Heq; discriminate.
  - cbn [check_events]. rewrite andb_true_iff, IH. split.
    + intros [Hx Hrest] pre e post Heq HP. destruct pre as [| y pre].
      * injection Heq as -> ->. rewrite HP in Hx. by apply bool_decide_eq_true_1 in Hx.
      * injection Heq as -> ->. unfold held_from. cbn [fold_left].
        by apply (Hrest pre e post).
    + intros Hall. split.
      * destruct (P x) eqn:HP; [| done]. apply bool_decide_eq_true_2.
        by apply (Hall [] x tr).
      * intros pre e post -> HP. by apply (Hall (x :: pre) e post).
Qed.

Lemma at_events_check P m b tr :
  at_events P m b tr ↔ check_events P m b false tr = true.
Proof. unfold at_events, held. by rewrite check_events_sound. Qed.

(** ** Task dispatcher *)

Lemma weight_unfold r : weight r = S (weights (arrivals r)).
Proof.
  destruct r as [i t rn st c arr]. cbn [weight arrivals]. f_equal.
Qed.

Lemma weights_app q1 q2 : weights (q1 ++ q2) = (weights q1 + weights q2)%nat.
Proof.
  induction q1 as [| r q1 IH]; [done |].
  unfold weights in *. cbn [app fold_right]. rewrite IH. lia.
Qed.

Lemma weights_cons r q : weights (r :: q) = (S (weights (arrivals r)) + weights q)%nat.
Proof. unfold weights. cbn [fold_right]. by rewrite weight_unfold. Qed.

Lemma push_arrivals_run rs : forall w,
  push_arrivals rs w =
    (Ret tt, push_back_all rs w, (λ a, EvEnqueue (rid a)) <$> rs).
Proof.
  induction rs as [| a rs IH]; intros w.
  - cbn. unfold mret, M_ret, push_back_all, with_this.
    rewrite app_nil_r. destruct w as [p s []]; reflexivity.
  - cbn [push_arrivals]. unfold mbind, M_bind, upd_this, emit.
    rewrite IH. unfold push_back_all, with_this. cbn.
    rewrite <- app_assoc. reflexivity.
Qed.

Lemma find_method_cases detached chain w :
  find_method detached chain w = (Ret tt, w, []) ∨
  find_method detached chain w =
    (Abort, w, (if detached then [EvDetachCurrentThread] else []) ++ [EvLogAssert]) ∨
  find_method detached chain w = (Undefined, w, []).
Proof.
  induction chain as [| found supers IH]; [by right; right |].
  cbn [find_method]. destruct found; [by left |].
  destruct supers as [| s supers]; [| exact IH].
  right; left. unfold mbind, M_bind, android_log_assert, emit, abort.
  destruct detached; reflexivity.
Qed.

(** What one loop iteration does between [unlock] and [lock]. *)
Lemma run_body_cases r w :
  (∃ body,
     run_body r w =
       (Ret tt, push_back_all (arrivals r) w,
        body ++ ((λ a, EvEnqueue (rid a)) <$> arrivals r)) ∧
     executed body = [rid r] ∧ enqueued body = [] ∧
     Forall (λ e, is_lock_event e = false) body ∧
     Forall (λ e, is_engine_call e = false) body ∧
     Forall (λ e, is_dequeue e = false) body ∧
     Forall (λ e, is_zombie_event e = false) body) ∨
  (∃ o evs,
     run_body r w = (o, w, evs) ∧ (o = Abort ∨ o = Undefined) ∧
     executed evs = [] ∧ enqueued evs = [] ∧
     Forall (λ e, is_lock_event e = false) evs ∧
     Forall (λ e, is_engine_call e = false) evs ∧
     Forall (λ e, is_host_callback e = false) evs ∧
     Forall (λ e, is_dequeue e = false) evs ∧
     Forall (λ e, is_zombie_event e = false) evs).
Proof.
  unfold run_body. destruct (c_runnable r) as [f |].
  - left. exists [EvRunNative (rid r)].
    unfold mbind, M_bind, emit. rewrite push_arrivals_run.
    repeat split; repeat constructor.
  - set (d := bool_decide (getEnvStat r = JNI_EDETACHED)).
    destruct (find_method_cases d (jclass_chain (thiz r)) w) as [Hf | [Hf | Hf]].
    + left.
      exists ((if d then [EvAttachCurrentThread] else []) ++
              [EvCallVoidMethod (rid r) (jref (thiz r)) (jref (runnable r));
               EvDeleteGlobalRef (jref (thiz r));
               EvDeleteGlobalRef (jref (runnable r))] ++
              (if d then [EvDetachCurrentThread] else [])).
      unfold mbind, M_bind.
      destruct d; unfold emit, mret, M_ret; rewrite Hf; rewrite push_arrivals_run;
        repeat split; repeat constructor.
    + right. exists Abort.
      exists ((if d then [EvAttachCurrentThread] else []) ++
              (if d then [EvDetachCurrentThread] else []) ++ [EvLogAssert]).
      unfold mbind, M_bind.
      destruct d; unfold emit, mret, M_ret; rewrite Hf;
        repeat split; try (by left); repeat constructor.
    + right. exists Undefined.
      exists (if d then [EvAttachCurrentThread] else []).
      unfold mbind, M_bind.
      destruct d; unfold emit, mret, M_ret; rewrite Hf;
        repeat split; try (by right); repeat constructor.
Qed.

Lemma drain_step fuel r rest w :
  m_runnables (this w) = r :: rest ->
  drain (S fuel) w =
   match run_body r w with
   | (Ret _, w1, t1) =>
       match m_runnables (this w1) with
       | [] => (Undefined, w1, EvUnlock m_async_mutex :: t1 ++ [EvLock m_async_mutex])
       | _ :: q' =>
           let '(o, w3, t3) := drain fuel (with_this (set_m_runnables q') w1) in
           (o, w3,
            EvUnlock m_async_mutex
            :: t1 ++ EvLock m_async_mutex :: EvDeleteRunnable (rid r) :: t3)
       end
   | (Abort, w1, t1) => (Abort, w1, EvUnlock m_async_mutex :: t1)
   | (Undefined, w1, t1) => (Undefined, w1, EvUnlock m_async_mutex :: t1)
   | (OutOfFuel, w1, t1) => (OutOfFuel, w1, EvUnlock m_async_mutex :: t1)
   end.
Proof.
  intros Hq. cbn [drain]. unfold mbind, M_bind, get_this. rewrite Hq.
  unfold unlock, lock, emit, erase_begin, mbind, M_bind, get_this.
  destruct (run_body r w) as [[[] w1] t1]; try reflexivity.
  destruct (m_runnables (this w1)) as [| x q'] eqn:Hq1; [reflexivity |].
  unfold upd_this, with_this.
  destruct (drain fuel _) as [[o w3] t3]. reflexivity.
Qed.

Lemma drain_empty fuel w :
  m_runnables (this w) = [] -> drain fuel w = (Ret tt, w, []).
Proof.
  intros Hq. destruct fuel; cbn [drain]; unfold mbind, M_bind, get_this;
    rewrite Hq; reflexivity.
Qed.

Lemma executed_app t1 t2 : executed (t1 ++ t2) = executed t1 ++ executed t2.
Proof. apply omap_app. Qed.

Lemma enqueued_app t1 t2 : enqueued (t1 ++ t2) = enqueued t1 ++ enqueued t2.
Proof. apply omap_app. Qed.

Lemma executed_enqueues (rs : list Runnable) :
  executed ((λ a, EvEnqueue (rid a)) <$> rs) = [].
Proof. induction rs as [| a rs IH]; [done | exact IH]. Qed.

Lemma enqueued_enqueues (rs : list Runnable) :
  enqueued ((λ a, EvEnqueue (rid a)) <$> rs) = rid <$> rs.
Proof. induction rs as [| a rs IH]; [done |]. cbn. f_equal. exact IH. Qed.

Lemma Forall_enqueues (P : Event -> bool) (rs : list Runnable) :
  (∀ i, P (EvEnqueue i) = false) ->
  Forall (λ e, P e = false) ((λ a, EvEnqueue (rid a)) <$> rs).
Proof. intros HP. induction rs; constructor; auto. Qed.

(** The loop of [callback], entered with the queue mutex held. *)
Lemma drain_spec (P : Event -> bool) fuel :
  (∀ m, P (EvLock m) = false) -> (∀ m, P (EvUnlock m) = false) ->
  (∀ i, P (EvDeleteRunnable i) = false) ->
  ∀ w, (weights (m_runnables (this w)) <= fuel)%nat →
  let r := drain fuel w in
  let q := m_runnables (this w) in
  outcome r ≠ OutOfFuel ∧
  executed (events r) `prefix_of` (rid <$> q) ++ enqueued (events r) ∧
  check_events P m_async_mutex false true (events r) = true ∧
  check_events is_dequeue m_async_mutex true true (events r) = true ∧
  (outcome r = Ret tt →
     world r = with_this (set_m_runnables []) w ∧
     executed (events r) = (rid <$> q) ++ enqueued (events r) ∧
     held_from m_async_mutex true (events r) = true).
Proof.
  intros HPl HPu HPd.
  induction fuel as [| fuel IH]; intros w Hfuel r q.
  - destruct (m_runnables (this w)) as [| x rest] eqn:Hq.
    + subst r q. rewrite (drain_empty _ w Hq).
      unfold outcome, world, events; cbn [fst snd].
      repeat apply conj; try done.
      intros _. repeat apply conj; try done.
      unfold with_this. rewrite <- Hq. destruct w as [p s []]; reflexivity.
    + rewrite weights_cons in Hfuel. lia.
  - destruct (m_runnables (this w)) as [| x rest] eqn:Hq.
    + subst r q. rewrite (drain_empty _ w Hq).
      unfold outcome, world, events; cbn [fst snd].
      repeat apply conj; try done.
      intros _. repeat apply conj; try done.
      unfold with_this. rewrite <- Hq. destruct w as [p s []]; reflexivity.
    + subst r q. rewrite (drain_step fuel x rest w Hq).
      rewrite weights_cons in Hfuel.
      destruct (run_body_cases x w) as
        [(body & Hrun & Hex & Henq & Hlf & _ & Hdq & _) |
         (o & evs & Hrun & Ho & Hex & Henq & Hlf & _ & _ & Hdq & _)].
      * rewrite Hrun.
        assert (Hq1 : m_runnables (this (push_back_all (arrivals x) w))
                      = x :: (rest ++ arrivals x)).
        { unfold push_back_all, with_this. cbn. by rewrite Hq. }
        rewrite Hq1.
        set (w2 := with_this (set_m_runnables (rest ++ arrivals x))
                     (push_back_all (arrivals x) w)).
        assert (Hq2 : m_runnables (this w2) = rest ++ arrivals x) by reflexivity.
        destruct (IH w2) as (Hof & Hpre & Hck & Hckd & Hret).
        { rewrite Hq2, weights_app. lia. }
        rewrite Hq2 in Hpre, Hret.
        destruct (drain fuel w2) as [[o3 w3] t3].
        unfold outcome, world, events in *; cbn [fst snd] in *.
        set (enq := (λ a : Runnable, EvEnqueue (rid a)) <$> arrivals x) in *.
        assert (Hmid_lf : Forall (λ e, is_lock_event e = false) (body ++ enq)).
        { apply Forall_app. split; [done |]. by apply Forall_enqueues. }
        assert (Hmid_dq : Forall (λ e, is_dequeue e = false) (body ++ enq)).
        { apply Forall_app. split; [done |]. by apply Forall_enqueues. }
        assert (Hmid_ex : executed (body ++ enq) = [rid x]).
        { rewrite executed_app, Hex. subst enq. by rewrite executed_enqueues. }
        assert (Hmid_enq : enqueued (body ++ enq) = rid <$> arrivals x).
        { rewrite enqueued_app, Henq. subst enq. by rewrite enqueued_enqueues. }
        generalize dependent (body ++ enq). intros mid Hrun Hmid_lf Hmid_dq Hmid_ex Hmid_enq.
        change (EvUnlock m_async_mutex
                :: mid ++ EvLock m_async_mutex :: EvDeleteRunnable (rid x) :: t3)
          with ([EvUnlock m_async_mutex] ++ mid ++
                [EvLock m_async_mutex; EvDeleteRunnable (rid x)] ++ t3).
        rewrite !executed_app, !enqueued_app, Hmid_ex, Hmid_enq.
        rewrite fmap_app, <- app_assoc in Hpre, Hret.
        rewrite !check_events_app, !held_from_app.
        rewrite !(held_from_lock_free _ _ _ Hmid_lf).
        repeat apply conj.
        -- done.
        -- rewrite fmap_cons. cbn. by apply prefix_cons.
        -- cbn [check_events held_from fold_left lock_step].
           rewrite !HPl, !HPu, !HPd. rewrite !decide_True by done.
           rewrite (check_events_lock_free P _ false _ Hmid_lf).
           cbn. exact Hck.
        -- rewrite (check_events_none is_dequeue _ _ _ _ Hmid_dq).
           cbn. exact Hckd.
        -- intros Ho. destruct (Hret Ho) as (Hw3 & Hall & Hheld).
           repeat apply conj.
           ++ rewrite Hw3. subst w2. unfold push_back_all, with_this.
              destruct w as [p s []]; reflexivity.
           ++ rewrite Hall. rewrite fmap_cons. reflexivity.
           ++ cbn. exact Hheld.
      * rewrite Hrun.
        destruct o; try (destruct Ho; discriminate).
        -- unfold outcome, world, events; cbn [fst snd].
           change (EvUnlock m_async_mutex :: evs) with ([EvUnlock m_async_mutex] ++ evs).
           rewrite executed_app, Hex.
           repeat apply conj; try done.
           ++ apply prefix_nil.
           ++ rewrite check_events_app. cbn [check_events held_from fold_left lock_step].
              rewrite HPu, decide_True by done.
              by rewrite (check_events_lock_free P _ false _ Hlf).
           ++ rewrite check_events_app. cbn [check_events held_from fold_left lock_step].
              cbn. by rewrite (check_events_none is_dequeue _ _ _ _ Hdq).
        -- unfold outcome, world, events; cbn [fst snd].
           change (EvUnlock m_async_mutex :: evs) with ([EvUnlock m_async_mutex] ++ evs).
           rewrite executed_app, Hex.
           repeat apply conj; try done.
           ++ apply prefix_nil.
           ++ rewrite check_events_app. cbn [check_events held_from fold_left lock_step].
              rewrite HPu, decide_True by done.
              by rewrite (check_events_lock_free P _ false _ Hlf).
           ++ rewrite check_events_app. cbn [check_events held_from fold_left lock_step].
              cbn. by rewrite (check_events_none is_dequeue _ _ _ _ Hdq).
Qed.

Lemma Forall_not_lock_held P m b h tr :
  Forall (λ e, e ≠ EvLock m ∧ e ≠ EvUnlock m) tr →
  held_from m h tr = h ∧ (h = b → check_events P m b h tr = true).
Proof.
  induction 1 as [| e tr [Hl Hu] _ [IH1 IH2]]; [done |].
  assert (Hstep : lock_step m h e = h).
  { destruct e; try done; cbn; case_decide; congruence. }
  unfold held_from in *. cbn [fold_left check_events]. rewrite Hstep.
  split; [done |]. intros ->. rewrite bool_decide_eq_true_2 by done.
  rewrite IH2 by done. by destruct (P e).
Qed.

Lemma run_body_quiet r w :
  Forall (λ e, is_lock_event e = false ∧ is_engine_call e = false ∧
               is_dequeue e = false ∧ is_zombie_event e = false)
         (events (run_body r w)).
Proof.
  destruct (run_body_cases r w) as
    [(body & Hrun & _ & _ & Hlf & Hec & Hdq & Hz) |
     (o & evs & Hrun & _ & _ & _ & Hlf & Hec & _ & Hdq & Hz)];
    rewrite Hrun; unfold events; cbn [snd].
  - apply Forall_app. split.
    + rewrite !Forall_forall in *. naive_solver.
    + apply Forall_fmap. apply Forall_true. done.
  - rewrite !Forall_forall in *. naive_solver.
Qed.

Lemma drain_quiet fuel : ∀ w,
  Forall (λ e, is_engine_call e = false ∧ is_zombie_event e = false ∧
               ∀ m, m ≠ m_async_mutex → e ≠ EvLock m ∧ e ≠ EvUnlock m)
         (events (drain fuel w)).
Proof.
  induction fuel as [| fuel IH]; intros w.
  - destruct (m_runnables (this w)) as [| x rest] eqn:Hq.
    + rewrite (drain_empty _ w Hq). constructor.
    + cbn [drain]. unfold mbind, M_bind, get_this. rewrite Hq. constructor.
  - destruct (m_runnables (this w)) as [| x rest] eqn:Hq.
    + rewrite (drain_empty _ w Hq). constructor.
    + rewrite (drain_step fuel x rest w Hq).
      pose proof (run_body_quiet x w) as Hb.
      assert (Hb' : Forall (λ e, is_engine_call e = false ∧ is_zombie_event e = false ∧
               ∀ m, m ≠ m_async_mutex → e ≠ EvLock m ∧ e ≠ EvUnlock m)
               (events (run_body x w))).
      { eapply Forall_impl; [exact Hb |]. intros e (Hl & He & _ & Hz).
        repeat split; try done; destruct e; done. }
      destruct (run_body x w) as [[[] w1] t1]; unfold events in *; cbn [snd] in *.
      * destruct (m_runnables (this w1)) as [| y q'].
        -- cbn [snd]. constructor; [repeat split; try done; congruence |].
           apply Forall_app. split; [done |].
           constructor; [repeat split; try done; congruence | constructor].
        -- specialize (IH (with_this (set_m_runnables q') w1)).
           destruct (drain fuel _) as [[o3 w3] t3]. cbn [snd] in *.
           constructor; [repeat split; try done; congruence |].
           apply Forall_app. split; [done |].
           constructor; [repeat split; try done; congruence |].
           constructor; [repeat split; try done |]. done.
      * cbn [snd]. constructor; [repeat split; try done; congruence | done].
      * cbn [snd]. constructor; [repeat split; try done; congruence | done].
      * cbn [snd]. constructor; [repeat split; try done; congruence | done].
Qed.

Lemma zombie_blocks_are_zombie_events cs :
  Forall (λ e, is_zombie_event e = true) (flat_map zombie_block cs).
Proof.
  induction cs as [| ctx cs IH]; [constructor |].
  cbn [flat_map]. apply Forall_app. split; [| done].
  unfold zombie_block. destruct (IsDefunct ctx); repeat constructor.
Qed.

(** The two ways a zombie pass can end. *)
Lemma FreeZombies_cases w :
  (∃ mid, FreeZombies w =
            (Ret tt, zombies_cleared w,
             [EvLock m_zombie_mutex] ++ mid ++ [EvUnlock m_zombie_mutex]) ∧
          Forall (λ e, is_zombie_event e = true) mid) ∨
  (∃ mid, FreeZombies w =
            (Abort, with_this (set_m_value_zombies []) w,
             [EvLock m_zombie_mutex] ++ mid ++ [EvLogAssert]) ∧
          Forall (λ e, is_zombie_event e = true) mid ∧ DEBUG = true).
Proof.
  destruct (decide (DEBUG = true)) as [HD | HD].
  - destruct (first_live_zombie (m_context_zombies (this w)))
      as [Hall | (cs1 & ctx & cs2 & Hz & Hall & Hlive)].
    + left.
      exists (((λ v, EvValueReset (val_id v)) <$> m_value_zombies (this w)) ++
              ((λ ctx, EvContextReset (ctx_id ctx)) <$> m_context_zombies (this w))).
      rewrite (FreeZombies_defunct w Hall). split; [by rewrite <- !app_assoc |].
      apply Forall_app. split; apply Forall_fmap, Forall_true; done.
    + right.
      exists (((λ v, EvValueReset (val_id v)) <$> m_value_zombies (this w)) ++
              ((λ ctx, EvContextReset (ctx_id ctx)) <$> cs1) ++
              [EvEnterContext (ctx_id ctx);
               EvProcessExit (ctx_id ctx)
                 CONTEXT_GARBAGE_COLLECTED_BUT_PROCESS_STILL_ACTIVE]).
      rewrite (FreeZombies_debug w cs1 ctx cs2 HD Hz Hall Hlive).
      repeat split; [by rewrite <- !app_assoc | | done].
      apply Forall_app. split; [apply Forall_fmap, Forall_true; done |].
      apply Forall_app. split; [apply Forall_fmap, Forall_true; done |].
      repeat constructor.
  - apply not_true_is_false in HD. left.
    exists (((λ v, EvValueReset (val_id v)) <$> m_value_zombies (this w)) ++
            flat_map zombie_block (m_context_zombies (this w))).
    rewrite (FreeZombies_release w HD). split; [by rewrite <- !app_assoc |].
    apply Forall_app. split; [apply Forall_fmap, Forall_true; done |].
    apply zombie_blocks_are_zombie_events.
Qed.

Lemma callback_unfold fuel h w :
  callback fuel h w =
    match FreeZombies w with
    | (Ret _, wz, tz) =>
        match drain fuel wz with
        | (Ret _, wd, td) =>
            (Ret tt, with_this (set_m_async_handle None) wd,
             [EvDeleteGroupData h] ++ tz ++ [EvLock m_async_mutex] ++ td ++
             [EvUvClose h; EvClearAsyncHandle; EvUnlock m_async_mutex])
        | (o, wd, td) =>
            (o, wd, [EvDeleteGroupData h] ++ tz ++ [EvLock m_async_mutex] ++ td)
        end
    | (o, wz, tz) => (o, wz, [EvDeleteGroupData h] ++ tz)
    end.
Proof.
  unfold callback, mbind, M_bind, lock, unlock, emit, upd_this.
  destruct (FreeZombies w) as [[[] wz] tz]; try reflexivity.
  destruct (drain fuel wz) as [[[] wd] td]; reflexivity.
Qed.

Lemma zombie_events_not_tasks mid :
  Forall (λ e, is_zombie_event e = true) mid →
  executed mid = [] ∧ enqueued mid = [] ∧
  Forall (λ e, is_task_body e = false) mid ∧
  Forall (λ e, is_host_callback e = false) mid ∧
  Forall (λ e, is_dequeue e = false) mid ∧
  Forall (λ e, is_lock_event e = false) mid.
Proof.
  induction 1 as [| e mid He _ (IH1 & IH2 & IH3 & IH4 & IH5 & IH6)].
  - repeat split; constructor.
  - destruct e; try discriminate; repeat split; try done; by constructor.
Qed.

Lemma lock_free_not_mutex m tr :
  Forall (λ e, is_lock_event e = false) tr →
  Forall (λ e, e ≠ EvLock m ∧ e ≠ EvUnlock m) tr.
Proof.
  intros H. eapply Forall_impl; [exact H |]. intros e He. split; intros ->; discriminate.
Qed.

(** The queue mutex along a wake: released at every task body, held at
    every dequeue. *)
Lemma callback_lock_discipline (fuel h : nat) (w : World) :
  (weights (m_runnables (this w)) <= fuel)%nat →
  at_events is_task_body m_async_mutex false (events (callback fuel h w)) ∧
  at_events is_dequeue m_async_mutex true (events (callback fuel h w)).
Proof.
  intros Hfuel. rewrite callback_unfold.
  destruct (FreeZombies_cases w) as
    [(mid & Hfz & Hmid) | (mid & Hfz & Hmid & HD)]; rewrite Hfz.
  - destruct (zombie_events_not_tasks mid Hmid) as (_ & _ & Hzt & _ & Hzd & Hzl).
    set (tz := [EvLock m_zombie_mutex] ++ mid ++ [EvUnlock m_zombie_mutex]).
    assert (Htz_async : Forall (λ e, e ≠ EvLock m_async_mutex ∧ e ≠ EvUnlock m_async_mutex)
                          ([EvDeleteGroupData h] ++ tz)).
    { subst tz. constructor; [done |]. constructor; [done |].
      apply Forall_app. split; [by apply lock_free_not_mutex |].
      constructor; [done | constructor]. }
    assert (Htz_task : Forall (λ e, is_task_body e = false) ([EvDeleteGroupData h] ++ tz)).
    { subst tz. constructor; [done |]. constructor; [done |].
      apply Forall_app. split; [done |]. repeat constructor. }
    assert (Htz_dq : Forall (λ e, is_dequeue e = false) ([EvDeleteGroupData h] ++ tz)).
    { subst tz. constructor; [done |]. constructor; [done |].
      apply Forall_app. split; [done |]. repeat constructor. }
    destruct (Forall_not_lock_held is_task_body _ false false _ Htz_async) as [Hh1 Hc1].
    destruct (drain_spec is_task_body fuel ltac:(done) ltac:(done) ltac:(done)
                (zombies_cleared w) Hfuel)
      as (_ & _ & Hck & Hckd & _).
    destruct (drain fuel (zombies_cleared w)) as [[od wd] td].
    unfold events in *; cbn [snd] in *.
    assert (Hgen :
      ∀ closing,
        Forall (λ e, is_task_body e = false) closing →
        Forall (λ e, is_dequeue e = false) closing →
        let evs := [EvDeleteGroupData h] ++ tz ++ [EvLock m_async_mutex] ++ td ++ closing in
        at_events is_task_body m_async_mutex false evs ∧
        at_events is_dequeue m_async_mutex true evs).
    { intros closing Hct Hcd evs. split.
      - apply at_events_check. subst evs.
        rewrite (app_assoc [EvDeleteGroupData h] tz).
        rewrite (check_events_app _ _ _ _ ([EvDeleteGroupData h] ++ tz)).
        rewrite Hh1, Hc1 by done.
        rewrite !check_events_app, ?held_from_app.
        cbn [check_events held_from fold_left lock_step andb].
        rewrite decide_True by done. cbn [is_task_body run_of].
        rewrite Hck. cbn. by apply check_events_none.
      - apply at_events_check. subst evs.
        rewrite (app_assoc [EvDeleteGroupData h] tz).
        rewrite (check_events_app _ _ _ _ ([EvDeleteGroupData h] ++ tz)).
        rewrite Hh1, (check_events_none is_dequeue _ _ _ _ Htz_dq).
        rewrite !check_events_app, ?held_from_app.
        cbn [check_events held_from fold_left lock_step andb is_dequeue].
        rewrite decide_True by done. rewrite Hckd. cbn.
        by apply check_events_none. }
    destruct od as [[] | | |]; cbn [snd].
    + apply Hgen; repeat constructor.
    + rewrite <- (app_nil_r td). apply Hgen; constructor.
    + rewrite <- (app_nil_r td). apply Hgen; constructor.
    + rewrite <- (app_nil_r td). apply Hgen; constructor.
  - destruct (zombie_events_not_tasks mid Hmid) as (_ & _ & Hzt & _ & Hzd & _).
    unfold events; cbn [snd].
    split; apply at_events_check, check_events_none;
      (constructor; [done |]); (constructor; [done |]);
      (apply Forall_app; split; [done |]); repeat constructor.
Qed.

(** The wake as a whole, given fuel for the queue and its arrivals: the
    zombie pass comes first, the bodies run in enqueue order with the queue
    mutex released, and a wake that returns ends by closing the handle. *)
Lemma callback_run_spec (fuel h : nat) (w : World) :
  (weights (m_runnables (this w)) <= fuel)%nat →
  let r := callback fuel h w in
  let q := m_runnables (this w) in
  outcome r ≠ OutOfFuel ∧
  (∃ rest, events r = EvDeleteGroupData h :: events (FreeZombies w) ++ rest ∧
           Forall (λ e, is_zombie_event e = false) rest ∧
           executed (events (FreeZombies w)) = [] ∧
           (outcome (FreeZombies w) ≠ Ret tt → rest = [])) ∧
  executed (events r) `prefix_of` (rid <$> q) ++ enqueued (events r) ∧
  at_events is_task_body m_async_mutex false (events r) ∧
  at_events is_dequeue m_async_mutex true (events r) ∧
  (outcome r = Ret tt →
     executed (events r) = (rid <$> q) ++ enqueued (events r) ∧
     (∃ pre, events r =
               pre ++ [EvUvClose h; EvClearAsyncHandle; EvUnlock m_async_mutex] ∧
             executed pre = executed (events r)) ∧
     m_runnables (this (world r)) = [] ∧
     m_async_handle (this (world r)) = None ∧
     m_value_zombies (this (world r)) = [] ∧
     m_context_zombies (this (world r)) = [] ∧
     held m_async_mutex (events r) = false).
Proof.
  intros Hfuel r q.
  pose proof (callback_lock_discipline fuel h w Hfuel) as Hlock.
  subst r. revert Hlock. rewrite callback_unfold.
  destruct (FreeZombies_cases w) as
    [(mid & Hfz & Hmid) | (mid & Hfz & Hmid & HD)]; rewrite Hfz.
  - destruct (zombie_events_not_tasks mid Hmid) as (Hzx & Hze & _ & _ & _ & Hzl).
    set (tz := [EvLock m_zombie_mutex] ++ mid ++ [EvUnlock m_zombie_mutex]).
    assert (Htz_ex : executed tz = []).
    { subst tz. rewrite !executed_app, Hzx. done. }
    assert (Htz_enq : enqueued tz = []).
    { subst tz. rewrite !enqueued_app, Hze. done. }
    assert (Hh1 : held_from m_async_mutex false ([EvDeleteGroupData h] ++ tz) = false).
    { apply (Forall_not_lock_held is_task_body _ false false).
      subst tz. constructor; [done |]. constructor; [done |].
      apply Forall_app. split; [by apply lock_free_not_mutex |].
      constructor; [done | constructor]. }
    destruct (drain_spec is_task_body fuel ltac:(done) ltac:(done) ltac:(done)
                (zombies_cleared w) Hfuel)
      as (Hof & Hpre & _ & _ & Hret).
    pose proof (drain_quiet fuel (zombies_cleared w)) as Hquiet.
    change (m_runnables (this (zombies_cleared w))) with q in Hpre, Hret.
    destruct (drain fuel (zombies_cleared w)) as [[od wd] td].
    unfold outcome, world, events in *; cbn [fst snd] in *.
    assert (Hgen :
      ∀ closing,
        (closing = [] ∨
         closing = [EvUvClose h; EvClearAsyncHandle; EvUnlock m_async_mutex]) →
        let evs := [EvDeleteGroupData h] ++ tz ++ [EvLock m_async_mutex] ++ td ++ closing in
        (∃ rest, evs = EvDeleteGroupData h :: tz ++ rest ∧
           Forall (λ e, is_zombie_event e = false) rest ∧ executed tz = [] ∧
           (Ret tt ≠ Ret tt → rest = [])) ∧
        executed evs `prefix_of` (rid <$> q) ++ enqueued evs ∧
        executed evs = executed td ∧ enqueued evs = enqueued td).
    { intros closing Hcl evs.
      assert (Hcl_ex : executed closing = [] ∧ enqueued closing = [] ∧
                Forall (λ e, is_zombie_event e = false) closing).
      { destruct Hcl as [-> | ->]; repeat split; repeat constructor. }
      destruct Hcl_ex as (Hcx & Hce & Hcz).
      assert (Hex : executed evs = executed td).
      { subst evs. rewrite !executed_app, Htz_ex, Hcx. cbn. by rewrite app_nil_r. }
      assert (Hen : enqueued evs = enqueued td).
      { subst evs. rewrite !enqueued_app, Htz_enq, Hce. cbn. by rewrite app_nil_r. }
      split; [| split; [by rewrite Hex, Hen | done]].
      exists ([EvLock m_async_mutex] ++ td ++ closing).
      split; [done |]. split; [| split; [done | intros Hc; exfalso; by apply Hc]].
      constructor; [done |]. apply Forall_app. split; [| done].
      eapply Forall_impl; [exact Hquiet |]. by intros e (_ & ? & _). }
    destruct od as [[] | | |]; cbn [fst snd]; intros [Hbody Hdeq].
    + destruct (Hgen
                  [EvUvClose h; EvClearAsyncHandle; EvUnlock m_async_mutex])
        as (Hz1 & Hp1 & Hex & Hen); [by right |].
      destruct (Hret eq_refl) as (Hwd & Hall & Hheld).
      split; [done |]. split; [exact Hz1 |]. split; [exact Hp1 |].
      split; [exact Hbody |]. split; [exact Hdeq |].
      intros _. repeat apply conj.
      * rewrite Hex, Hen. exact Hall.
      * exists ([EvDeleteGroupData h] ++ tz ++ [EvLock m_async_mutex] ++ td).
        split; [by rewrite <- !app_assoc |].
        rewrite Hex. rewrite !executed_app, Htz_ex. done.
      * rewrite Hwd. reflexivity.
      * reflexivity.
      * rewrite Hwd. reflexivity.
      * rewrite Hwd. reflexivity.
      * unfold held. rewrite (app_assoc [EvDeleteGroupData h] tz).
        rewrite (held_from_app _ _ ([EvDeleteGroupData h] ++ tz)), Hh1.
        rewrite !held_from_app.
        change (held_from m_async_mutex false [EvLock m_async_mutex]) with true.
        rewrite Hheld. reflexivity.
    + destruct (Hgen []) as (Hz1 & Hp1 & Hex & Hen); [by left |].
      rewrite app_nil_r in *.
      split; [done |]. split; [exact Hz1 |]. split; [exact Hp1 |].
      split; [exact Hbody |]. split; [exact Hdeq | done].
    + destruct (Hgen []) as (Hz1 & Hp1 & Hex & Hen); [by left |].
      rewrite app_nil_r in *.
      split; [done |]. split; [exact Hz1 |]. split; [exact Hp1 |].
      split; [exact Hbody |]. split; [exact Hdeq | done].
    + done.
  - destruct (zombie_events_not_tasks mid Hmid) as (Hzx & _).
    unfold outcome, world, events; cbn [fst snd]. intros [Hbody Hdeq].
    set (tz := [EvLock m_zombie_mutex] ++ mid ++ [EvLogAssert]) in *.
    assert (Htz_ex : executed tz = []).
    { subst tz. rewrite !executed_app, Hzx. done. }
    split; [done |]. split.
    { exists []. rewrite app_nil_r. repeat split; [constructor | done]. }
    split; [rewrite executed_app, Htz_ex; apply prefix_nil |].
    split; [exact Hbody |]. split; [exact Hdeq | done].
Qed.


(** ** Disposal *)

Lemma dispose_managed_run ev l : ∀ w,
  dispose_managed ev l w = (Ret tt, w, ev <$> omap weak_lock l).
Proof.
  induction l as [| wp l IH]; intros w; [reflexivity |].
  cbn [dispose_managed omap list_omap]. unfold mbind, M_bind.
  destruct (weak_lock wp); unfold emit, mret, M_ret; rewrite IH; reflexivity.
Qed.

Lemma dispose_v8_run w :
  ∃ p', dispose_v8 w = (Ret tt, with_proc (λ _, p') w, dispose_v8_events (s_init_count (proc w))) ∧
        s_init_count p' = s_init_count (proc w) ∧
        s_isolate_map p' = s_isolate_map (proc w).
Proof.
  unfold dispose_v8_events.
  destruct (decide (s_init_count (proc w) = 0)) as [H0 | Hne].
  - rewrite (dispose_v8_zero w H0). eexists. split; [reflexivity |]. done.
  - rewrite (dispose_v8_nonzero w Hne). exists (proc w).
    split; [by destruct w |]. done.
Qed.

Lemma Dispose_defunct w :
  m_isDefunct (this w) = true → Dispose w = (Ret tt, w, []).
Proof.
  intros Hd. unfold Dispose, mbind, M_bind, get_this. rewrite Hd. reflexivity.
Qed.

Lemma Dispose_unfold w :
  m_isDefunct (this w) = false →
  Dispose w =
    match FreeZombies (with_this torn_down w) with
    | (Ret _, wz, tz) =>
        let wreg :=
          if decide (is_Some (s_isolate_map (proc wz) !! m_isolate (this w)))
          then with_proc (set_s_isolate_map
                            (delete (m_isolate (this w)) (s_isolate_map (proc wz)))) wz
          else wz in
        let '(o, wv, tv) :=
          if m_manage_isolate (this w)
          then (Ret tt, wreg, [EvIsolateDispose (m_isolate (this w))])
          else dispose_v8 wreg in
        (o, wv,
         dispose_head (this w) ++ tz ++ 
         [EvLock s_mutex] ++
         (if decide (is_Some (s_isolate_map (proc wz) !! m_isolate (this w)))
          then [EvRegistryErase (m_isolate (this w))] else []) ++
         [EvUnlock s_mutex] ++ tv ++
         (if has_startup_data (m_startup_data (this w))
          then [EvDeleteStartupData] else []))
    | (o, wz, tz) => (o, wz, dispose_head (this w) ++ tz)
    end.
Proof.
  intros Hd. unfold Dispose, mbind, M_bind, get_this. rewrite Hd.
  unfold lock, unlock, emit, upd_this, get_proc, upd_proc.
  rewrite !dispose_managed_run.
  cbn [proc self this].
  change (FreeZombies _) with (FreeZombies (with_this torn_down w)).
  destruct (FreeZombies (with_this torn_down w)) as [[[] wz] tz];
    [| unfold dispose_head; cbn -[omap fmap]; rewrite <- ?app_assoc; reflexivity ..].
  cbn [proc self this].
  unfold dispose_head, mret, M_ret.
  destruct (decide (is_Some (s_isolate_map (proc wz) !! m_isolate (this w)))) as [Hreg | Hreg];
    destruct (m_manage_isolate (this w));
    cbn -[omap fmap dispose_v8 dispose_v8_events has_startup_data app].
  - destruct (has_startup_data (m_startup_data (this w)));
      cbn -[omap fmap]; rewrite <- ?app_assoc; reflexivity.
  - match goal with |- context [dispose_v8 ?w1] =>
      destruct (dispose_v8_run w1) as (p' & Hrun & _) end.
    unfold with_proc in Hrun |- *. cbn [proc self this] in Hrun |- *. rewrite Hrun.
    destruct (has_startup_data (m_startup_data (this w)));
      cbn -[omap fmap dispose_v8_events]; rewrite <- ?app_assoc; reflexivity.
  - destruct (has_startup_data (m_startup_data (this w)));
      cbn -[omap fmap]; rewrite <- ?app_assoc; reflexivity.
  - match goal with |- context [dispose_v8 ?w1] =>
      destruct (dispose_v8_run w1) as (p' & Hrun & _) end.
    unfold with_proc in Hrun |- *. cbn [proc self this] in Hrun |- *. rewrite Hrun.
    destruct (has_startup_data (m_startup_data (this w)));
      cbn -[omap fmap dispose_v8_events]; rewrite <- ?app_assoc; reflexivity.
Qed.

Lemma executed_no_tasks tr :
  Forall (λ e, is_task_body e = false) tr → executed tr = [].
Proof.
  induction 1 as [| e tr He _ IH]; [done |].
  unfold executed in *. cbn [omap list_omap]. 
  destruct (run_of e) eqn:Hr; [| exact IH].
  unfold is_task_body in He. rewrite Hr in He.
  by rewrite bool_decide_eq_true_2 in He.
Qed.

Lemma FreeZombies_no_tasks w :
  Forall (λ e, is_task_body e = false) (events (FreeZombies w)).
Proof.
  destruct (FreeZombies_cases w) as [(mid & Hfz & Hmid) | (mid & Hfz & Hmid & _)];
    rewrite Hfz; unfold events; cbn [snd];
    destruct (zombie_events_not_tasks mid Hmid) as (_ & _ & Ht & _);
    (constructor; [done |]); apply Forall_app; (split; [done |]); repeat constructor.
Qed.

Lemma FreeZombies_keeps w :
  proc (world (FreeZombies w)) = proc w ∧
  self (world (FreeZombies w)) = self w ∧
  m_isDefunct (this (world (FreeZombies w))) = m_isDefunct (this w) ∧
  m_runnables (this (world (FreeZombies w))) = m_runnables (this w) ∧
  m_managedValues (this (world (FreeZombies w))) = m_managedValues (this w) ∧
  m_managedContexts (this (world (FreeZombies w))) = m_managedContexts (this w) ∧
  m_value_zombies (this (world (FreeZombies w))) = [] ∧
  (outcome (FreeZombies w) = Ret tt →
     m_context_zombies (this (world (FreeZombies w))) = []).
Proof.
  destruct (FreeZombies_cases w) as [(mid & Hfz & Hmid) | (mid & Hfz & Hmid & _)];
    rewrite Hfz; unfold world, outcome; cbn [fst snd]; by repeat split.
Qed.

Lemma dispose_head_no_tasks g :
  Forall (λ e, is_task_body e = false) (dispose_head g).
Proof.
  unfold dispose_head. repeat (apply Forall_app; split); try (repeat constructor).
  - apply Forall_fmap, Forall_true. done.
  - apply Forall_fmap, Forall_true. done.
Qed.

Lemma dispose_tail_no_tasks p g :
  Forall (λ e, is_task_body e = false) (dispose_tail p g).
Proof.
  unfold dispose_tail, dispose_v8_events.
  repeat (apply Forall_app; split); repeat case_decide;
    try destruct (m_manage_isolate g); try destruct (has_startup_data _);
    repeat constructor.
Qed.

(** What [Dispose] does on a group that is not defunct. *)
Lemma Dispose_run w :
  m_isDefunct (this w) = false →
  let g := this w in
  let zs := FreeZombies (with_this torn_down w) in
  events (Dispose w) =
    dispose_head g ++ events zs ++
    (match outcome zs with Ret _ => dispose_tail (proc w) g | _ => [] end) ∧
  outcome (Dispose w) = outcome zs ∧
  self (world (Dispose w)) = self w ∧
  this (world (Dispose w)) = this (world zs) ∧
  s_init_count (proc (world (Dispose w))) = s_init_count (proc w) ∧
  (outcome zs = Ret tt →
     s_isolate_map (proc (world (Dispose w)))
       = delete (m_isolate g) (s_isolate_map (proc w))).
Proof.
  intros Hd g zs. rewrite (Dispose_unfold w Hd).
  pose proof (FreeZombies_keeps (with_this torn_down w)) as (Hp & Hs & _).
  fold zs in Hp, Hs |- *.
  destruct zs as [[oz wz] tz] eqn:Hzs. 
  unfold world, outcome, events in *; cbn [fst snd] in *.
  cbn [proc self with_this] in Hp, Hs.
  destruct oz as [[] | | |]; cbn [fst snd]; [| rewrite ?app_nil_r, ?Hp; by repeat split ..].
  rewrite Hp.
  set (wreg := if decide (is_Some (s_isolate_map (proc w) !! m_isolate (this w)))
               then with_proc (set_s_isolate_map
                      (delete (m_isolate (this w)) (s_isolate_map (proc w)))) wz
               else wz).
  assert (Hwreg : self wreg = self w ∧ this wreg = this wz ∧
                  s_init_count (proc wreg) = s_init_count (proc w) ∧
                  s_isolate_map (proc wreg)
                    = delete (m_isolate (this w)) (s_isolate_map (proc w))).
  { subst wreg. case_decide as Hreg; cbn; rewrite ?Hp; repeat split; try done.
    symmetry. apply delete_id. by apply eq_None_not_Some. }
  destruct Hwreg as (Hws & Hwt & Hwc & Hwm).
  unfold dispose_tail. fold g.
  destruct (m_manage_isolate g).
  - cbn [fst snd]. repeat split; try done.
  - destruct (dispose_v8_run wreg) as (p' & Hrun & Hc' & Hm').
    rewrite Hrun. cbn [fst snd]. rewrite Hwc.
    repeat split; try done.
    + cbn. by rewrite Hc'.
    + cbn. intros _. by rewrite Hm'.
Qed.

(** C3 (as the code has it): on a group that is not defunct [Dispose] first
    clears the task queue and then, in this order, (1) removes the GC
    prologue hook from the isolate, (2) disposes every managed value that is
    still alive and then every managed context that is still alive, (3) sets
    the defunct flag, (4) frees the zombies, and, unless the zombie pass was
    cut short by the debug assertion, (5) erases the isolate from the
    registry under the registry mutex, (6) disposes the isolate if the group
    owns it and otherwise calls [dispose_v8], which leaves the process-wide
    count as it was, (7) frees the startup data when there is some. *)
Theorem dispose_teardown_order (w : World) :
  m_isDefunct (this w) = false →
  let g := this w in
  let zs := FreeZombies (with_this torn_down w) in
  events (Dispose w) =
    ([EvClearRunnables] ++
     [EvRemoveGCPrologueCallback (m_isolate g)] ++
     (EvValueDispose <$> omap weak_lock (m_managedValues g)) ++
     (EvContextDispose <$> omap weak_lock (m_managedContexts g)) ++
     [EvSetDefunct]) ++
    events zs ++
    (match outcome zs with
     | Ret _ =>
         [EvLock s_mutex] ++
         (if decide (is_Some (s_isolate_map (proc w) !! m_isolate g))
          then [EvRegistryErase (m_isolate g)] else []) ++
         [EvUnlock s_mutex] ++
         (if m_manage_isolate g then [EvIsolateDispose (m_isolate g)]
          else dispose_v8_events (s_init_count (proc w))) ++
         (if has_startup_data (m_startup_data g) then [EvDeleteStartupData] else [])
     | _ => []
     end) ∧
  m_isDefunct (this (with_this torn_down w)) = true ∧
  outcome (Dispose w) = outcome zs ∧
  s_init_count (proc (world (Dispose w))) = s_init_count (proc w) ∧
  m_isDefunct (this (world (Dispose w))) = true ∧
  m_managedValues (this (world (Dispose w))) = [] ∧
  m_managedContexts (this (world (Dispose w))) = [] ∧
  (outcome zs = Ret tt →
     s_isolate_map (proc (world (Dispose w)))
       = delete (m_isolate g) (s_isolate_map (proc w)) ∧
     m_value_zombies (this (world (Dispose w))) = [] ∧
     m_context_zombies (this (world (Dispose w))) = []).
Proof.
  intros Hd g zs.
  destruct (Dispose_run w Hd) as (Hev & Ho & _ & Hthis & Hcount & Hmap).
  destruct (FreeZombies_keeps (with_this torn_down w))
    as (_ & _ & Hdef & _ & Hmv & Hmc & Hvz & Hcz).
  subst g zs. cbv zeta in Hev, Hthis, Hcount, Hmap, Ho.
  split; [exact Hev |]. split; [reflexivity |]. split; [exact Ho |].
  split; [exact Hcount |]. rewrite Hthis.
  split; [by rewrite Hdef |]. split; [exact Hmv |]. split; [exact Hmc |].
  intros Hret. split; [by apply Hmap |]. split; [exact Hvz | by apply Hcz].
Qed.

(** C4: on a defunct group [Dispose] returns at once, with no event and the
    world as it was: no isolate is disposed, no registry entry is erased.
    Every [Dispose] leaves the group defunct, so a second [Dispose] (the
    destructor's included) is this no-op. *)
Theorem dispose_twice_is_noop :
  (∀ w, m_isDefunct (this w) = true → Dispose w = (Ret tt, w, [])) ∧
  (∀ w, m_isDefunct (this (world (Dispose w))) = true ∧
        Dispose (world (Dispose w)) = (Ret tt, world (Dispose w), []) ∧
        (Dispose;; Dispose) w = Dispose w).
Proof.
  split; [exact Dispose_defunct |].
  intros w.
  assert (Hdef : m_isDefunct (this (world (Dispose w))) = true).
  { destruct (m_isDefunct (this w)) eqn:Hd.
    - by rewrite (Dispose_defunct w Hd).
    - destruct (Dispose_run w Hd) as (_ & _ & _ & Hthis & _).
      destruct (FreeZombies_keeps (with_this torn_down w)) as (_ & _ & Hdf & _).
      by rewrite Hthis, Hdf. }
  repeat split; [done | by apply Dispose_defunct |].
  unfold mbind, M_bind.
  pose proof (Dispose_defunct _ Hdef) as Hsnd. unfold world in Hsnd.
  destruct (Dispose w) as [[[[] | | |] w1] t1]; cbn [fst snd] in *; try done.
  rewrite Hsnd. by rewrite app_nil_r.
Qed.

Lemma callback_empty_queue fuel h w :
  m_runnables (this w) = [] → executed (events (callback fuel h w)) = [].
Proof.
  intros Hq. rewrite callback_unfold.
  pose proof (FreeZombies_no_tasks w) as Hnt.
  pose proof (FreeZombies_keeps w) as (_ & _ & _ & Hqz & _).
  destruct (FreeZombies w) as [[oz wz] tz].
  unfold events, world in *; cbn [fst snd] in *.
  destruct oz as [[] | | |]; cbn [snd]; try (apply executed_no_tasks; by constructor).
  rewrite (drain_empty fuel wz) by congruence. cbn [snd].
  apply executed_no_tasks. constructor; [done |].
  apply Forall_app. split; [done |]. repeat constructor.
Qed.

(** C10: on a group that is not defunct, the first thing [Dispose] does is
    to clear [m_runnables], before the hook is removed and before any
    managed object is disposed; it executes no task body, leaves the queue
    empty, and a later wake of the dispatch callback executes none either. *)
Theorem dispose_discards_pending_tasks (w : World) :
  m_isDefunct (this w) = false →
  (∃ rest, events (Dispose w) = EvClearRunnables :: rest) ∧
  executed (events (Dispose w)) = [] ∧
  m_runnables (this (world (Dispose w))) = [] ∧
  (∀ fuel h, executed (events (callback fuel h (world (Dispose w)))) = []).
Proof.
  intros Hd.
  destruct (Dispose_run w Hd) as (Hev & _ & _ & Hthis & _).
  destruct (FreeZombies_keeps (with_this torn_down w)) as (_ & _ & _ & Hq & _).
  assert (Hempty : m_runnables (this (world (Dispose w))) = []).
  { by rewrite Hthis, Hq. }
  repeat apply conj.
  - rewrite Hev. unfold dispose_head. eexists. reflexivity.
  - rewrite Hev. apply executed_no_tasks.
    apply Forall_app. split; [apply dispose_head_no_tasks |].
    apply Forall_app. split; [apply FreeZombies_no_tasks |].
    destruct (outcome _); [apply dispose_tail_no_tasks | constructor ..].
  - exact Hempty.
  - intros fuel h. by apply callback_empty_queue.
Qed.

(** ** Mutexes around calls that leave the group *)

Lemma GCPrologueCallback_run gctype flags items : ∀ w,
  GCPrologueCallback gctype flags items w =
    (Ret tt, w, (λ item, EvGCCallback (gc_cb item) gctype flags (gc_data item)) <$> items).
Proof.
  induction items as [| item rest IH]; intros w; [reflexivity |].
  cbn [GCPrologueCallback]. unfold mbind, M_bind, emit. rewrite IH. reflexivity.
Qed.

Lemma StaticGCPrologueCallback_run isolate gctype flags w :
  StaticGCPrologueCallback isolate gctype flags w =
    (Ret tt, w,
     [EvLock s_mutex] ++
     match s_isolate_map (proc w) !! isolate with
     | Some ptr =>
         if decide (ptr = self w)
         then (λ item, EvGCCallback (gc_cb item) gctype flags (gc_data item))
                <$> m_gc_callbacks (this w)
         else [EvOtherGroupGCPrologue ptr gctype flags]
     | None => []
     end ++
     [EvUnlock s_mutex]).
Proof.
  unfold StaticGCPrologueCallback, mbind, M_bind, lock, unlock, emit, get_proc,
    get_self, get_this.
  destruct (s_isolate_map (proc w) !! isolate) as [ptr |]; [| reflexivity].
  destruct (decide (ptr = self w)); [| reflexivity].
  rewrite GCPrologueCallback_run. reflexivity.
Qed.

Lemma at_events_bracket P m mid last :
  Forall (λ e, is_lock_event e = false) mid →
  P (EvLock m) = false → Forall (λ e, P e = false) last →
  at_events P m true ([EvLock m] ++ mid ++ last).
Proof.
  intros Hmid HPl Hlast. apply at_events_check.
  rewrite !check_events_app. cbn [check_events]. rewrite HPl. cbn [andb].
  change (held_from m false [EvLock m]) with (lock_step m false (EvLock m)).
  cbn [lock_step]. rewrite decide_True by done.
  rewrite (check_events_lock_free P m true mid Hmid).
  by rewrite (check_events_none P m true _ last Hlast).
Qed.

(** Outside the queue mutex, [callback] takes and releases only the zombie
    mutex, and has released it before the first task body. *)
Lemma callback_other_mutexes fuel h w m :
  m ≠ m_async_mutex → at_events is_task_body m false (events (callback fuel h w)).
Proof.
  intros Hm. apply at_events_check. rewrite callback_unfold.
  pose proof (FreeZombies_no_tasks w) as Hnt.
  destruct (FreeZombies_cases w) as [(mid & Hfz & Hmid) | (mid & Hfz & Hmid & _)];
    rewrite Hfz in *; unfold events in *; cbn [snd] in *.
  - destruct (zombie_events_not_tasks mid Hmid) as (_ & _ & _ & _ & _ & Hlf).
    pose proof (drain_quiet fuel (zombies_cleared w)) as Hquiet.
    assert (Hpfx : held_from m false
              ([EvDeleteGroupData h] ++
               [EvLock m_zombie_mutex] ++ mid ++ [EvUnlock m_zombie_mutex]) = false).
    { rewrite !held_from_app. rewrite (held_from_lock_free _ _ mid Hlf).
      cbn. repeat case_decide; congruence. }
    remember ([EvLock m_zombie_mutex] ++ mid ++ [EvUnlock m_zombie_mutex]) as tz.
    assert (Hrest : ∀ td closing,
              td = (drain fuel (zombies_cleared w)).2 →
              Forall (λ e, e ≠ EvLock m ∧ e ≠ EvUnlock m) closing →
              check_events is_task_body m false false
                ([EvDeleteGroupData h] ++ tz ++
                 [EvLock m_async_mutex] ++ td ++ closing) = true).
    { intros td closing Hdr Hcl.
      rewrite (app_assoc [EvDeleteGroupData h] tz).
      rewrite check_events_app, Hpfx.
      rewrite (check_events_none is_task_body m false false _)
        by (constructor; [done | exact Hnt]).
      apply Forall_not_lock_held; [| done].
      constructor; [split; congruence |].
      apply Forall_app. split; [| done]. subst td.
      eapply Forall_impl; [exact Hquiet |]. intros e (_ & _ & He). by apply He. }
    destruct (drain fuel (zombies_cleared w)) as [[od wd] td] eqn:Hdr.
    destruct od as [[] | | |]; cbn [snd].
    + apply Hrest; [done |]. repeat constructor; congruence.
    + rewrite <- (app_nil_r td). apply Hrest; [done | constructor].
    + rewrite <- (app_nil_r td). apply Hrest; [done | constructor].
    + rewrite <- (app_nil_r td). apply Hrest; [done | constructor].
  - apply check_events_none. constructor; [done | exact Hnt].
Qed.

Lemma Dispose_isolate_calls_unlocked w m :
  at_events is_isolate_call m false (events (Dispose w)).
Proof.
  apply at_events_check.
  destruct (m_isDefunct (this w)) eqn:Hd.
  { by rewrite (Dispose_defunct w Hd). }
  destruct (Dispose_run w Hd) as (Hev & _). rewrite Hev. clear Hev.
  assert (Hhead : Forall (λ e, is_lock_event e = false) (dispose_head (this w))).
  { unfold dispose_head. repeat (apply Forall_app; split); try (repeat constructor);
      apply Forall_fmap, Forall_true; done. }
  rewrite check_events_app, (check_events_lock_free _ _ _ _ Hhead).
  rewrite (held_from_lock_free _ _ _ Hhead). cbn [andb].
  destruct (FreeZombies_cases (with_this torn_down w))
    as [(mid & Hfz & Hmid) | (mid & Hfz & Hmid & _)];
    rewrite Hfz; unfold events, outcome; cbn [fst snd];
    destruct (zombie_events_not_tasks mid Hmid) as (_ & _ & _ & _ & _ & Hlf).
  - assert (Hmid_ic : Forall (λ e, is_isolate_call e = false) mid).
    { eapply Forall_impl; [exact Hmid |]. by intros []. }
    rewrite !check_events_app, !held_from_app.
    rewrite (held_from_lock_free _ _ mid Hlf).
    rewrite (check_events_none is_isolate_call m false _ mid Hmid_ic).
    unfold dispose_tail, dispose_v8_events.
    destruct m; repeat case_decide; destruct (m_manage_isolate (this w));
      destruct (has_startup_data (m_startup_data (this w))); reflexivity.
  - rewrite app_nil_r. apply check_events_none.
    constructor; [done |]. apply Forall_app. split; [| repeat constructor].
    eapply Forall_impl; [exact Hmid |]. by intros [].
Qed.

(** C5 (as the code has it): no mutex of the core is held while the drain
    executes a task body, native closure or Java runnable, and none is held
    while [Dispose] calls the isolate (hook removal, isolate disposal).  But
    the zombie mutex is held during every call into the engine that
    [FreeZombies] makes, the forced exit included; the process-wide mutex is
    held while [StaticGCPrologueCallback] delivers the GC callbacks of the
    group, and while [init_v8] and [dispose_v8] bring the runtime up or
    down. *)
Theorem locks_around_outside_calls :
  (∀ fuel h w, (weights (m_runnables (this w)) <= fuel)%nat →
     outside_all_locks is_task_body (events (callback fuel h w))) ∧
  (∀ w, outside_all_locks is_isolate_call (events (Dispose w))) ∧
  (∀ w, at_events is_engine_call m_zombie_mutex true (events (FreeZombies w))) ∧
  (∀ isolate gctype flags w,
     at_events is_host_callback s_mutex true
       (events (StaticGCPrologueCallback isolate gctype flags w))) ∧
  (∀ w, at_events is_runtime_call s_mutex true (events (init_v8 w)) ∧
        at_events is_runtime_call s_mutex true (events (dispose_v8 w))).
Proof.
  repeat apply conj.
  - intros fuel h w Hfuel m.
    destruct (decide (m = m_async_mutex)) as [-> | Hm].
    + by destruct (callback_lock_discipline fuel h w Hfuel) as [Ha _].
    + by apply callback_other_mutexes.
  - intros w m. apply Dispose_isolate_calls_unlocked.
  - intros w.
    destruct (FreeZombies_cases w) as [(mid & Hfz & Hmid) | (mid & Hfz & Hmid & _)];
      rewrite Hfz; unfold events; cbn [snd];
      destruct (zombie_events_not_tasks mid Hmid) as (_ & _ & _ & _ & _ & Hlf);
      apply at_events_bracket; try done; repeat constructor.
  - intros isolate gctype flags w. rewrite StaticGCPrologueCallback_run.
    unfold events; cbn [snd].
    apply at_events_bracket; [| done | repeat constructor].
    destruct (s_isolate_map (proc w) !! isolate) as [ptr |]; [| constructor].
    destruct (decide (ptr = self w)); [| repeat constructor].
    apply Forall_fmap, Forall_true. done.
  - intros w. split; apply at_events_check;
      destruct (decide (s_init_count (proc w) = 0)) as [H0 | Hne].
    + by rewrite (init_v8_first w H0).
    + by rewrite (init_v8_later w Hne).
    + by rewrite (dispose_v8_zero w H0).
    + by rewrite (dispose_v8_nonzero w Hne).
Qed.

(** ** Construction *)

Lemma fread_full fp :
  f_tell fp = Z.of_nat (length (f_contents fp)) →
  (length (f_contents fp) <= f_readable fp)%nat →
  fread fp (ftell_end fp) = f_contents fp.
Proof.
  intros Htell Hle. unfold fread, ftell_end. rewrite Htell, Nat2Z.id.
  apply take_ge. lia.
Qed.

(** ** The blocking call *)




(** * Further properties of the code *)

(** ** Delivery of a Java runnable *)

Lemma find_method_found detached chain w :
  true ∈ chain → find_method detached chain w = (Ret tt, w, []).
Proof.
  induction chain as [| found supers IH]; intros Hin.
  - by apply elem_of_nil in Hin.
  - cbn [find_method]. destruct found; [reflexivity |].
    apply elem_of_cons in Hin as [Hin | Hin]; [discriminate |].
    destruct supers as [| s supers]; [by apply elem_of_nil in Hin |].
    by apply IH.
Qed.

Lemma find_method_missing detached chain w :
  chain ≠ [] → true ∉ chain →
  find_method detached chain w =
    (Abort, w, (if detached then [EvDetachCurrentThread] else []) ++ [EvLogAssert]).
Proof.
  induction chain as [| found supers IH]; intros Hne Hnot; [done |].
  cbn [find_method]. destruct found; [exfalso; apply Hnot; left |].
  destruct supers as [| s supers].
  - unfold mbind, M_bind, android_log_assert, emit, abort.
    destruct detached; reflexivity.
  - apply IH; [done |]. intros Hin. apply Hnot. by right.
Qed.

(** X1: the lookup of [inContextCallback] walks up the class hierarchy of the
    receiver.  It returns, without touching the group, as soon as one class
    of the hierarchy has the method; when no class has it, the process is
    aborted by the assertion, after the thread has been detached if this
    delivery had attached it. *)
Theorem find_method_outcome (detached : bool) (chain : list bool) (w : World) :
  chain ≠ [] →
  (true ∈ chain → find_method detached chain w = (Ret tt, w, [])) ∧
  (true ∉ chain →
     find_method detached chain w =
       (Abort, w,
        (if detached then [EvDetachCurrentThread] else []) ++ [EvLogAssert])).
Proof.
  intros Hne. split.
  - apply find_method_found.
  - by apply find_method_missing.
Qed.

Lemma count_event_app e t1 t2 :
  count_event e (t1 ++ t2) = (count_event e t1 + count_event e t2)%nat.
Proof. unfold count_event. by rewrite filter_app, length_app. Qed.

Lemma count_event_cons e x t :
  count_event e (x :: t) =
    ((if decide (x = e) then 1 else 0) + count_event e t)%nat.
Proof.
  unfold count_event. destruct (decide (x = e)).
  - by rewrite filter_cons_True.
  - by rewrite filter_cons_False.
Qed.

Lemma count_event_nil e : count_event e [] = 0%nat.
Proof. reflexivity. Qed.

Lemma count_event_enqueues e (rs : list Runnable) :
  (∀ i, e ≠ EvEnqueue i) →
  count_event e ((λ a, EvEnqueue (rid a)) <$> rs) = 0%nat.
Proof.
  intros He. induction rs as [| a l IH]; [done |].
  cbn [fmap list_fmap]. rewrite count_event_cons, decide_False; [exact IH |].
  intros Heq. by apply (He (rid a)).
Qed.

Lemma run_body_java r w :
  c_runnable r = None →
  let d := bool_decide (getEnvStat r = JNI_EDETACHED) in
  run_body r w =
    match find_method d (jclass_chain (thiz r)) w with
    | (Ret _, w1, t1) =>
        (Ret tt, push_back_all (arrivals r) w1,
         (if d then [EvAttachCurrentThread] else []) ++ t1 ++
         [EvCallVoidMethod (rid r) (jref (thiz r)) (jref (runnable r));
          EvDeleteGlobalRef (jref (thiz r));
          EvDeleteGlobalRef (jref (runnable r))] ++
         (if d then [EvDetachCurrentThread] else []) ++
         ((λ a, EvEnqueue (rid a)) <$> arrivals r))
    | (o, w1, t1) => (o, w1, (if d then [EvAttachCurrentThread] else []) ++ t1)
    end.
Proof.
  intros Hc d. unfold run_body. rewrite Hc. fold d.
  unfold mbind, M_bind.
  destruct d; unfold emit, mret, M_ret;
    destruct (find_method _ _ w) as [[[] w1] t1]; try reflexivity;
    rewrite push_arrivals_run; cbn -[fmap]; rewrite <- ?app_assoc; reflexivity.
Qed.

(** X2: a Java runnable whose receiver has a class.  The draining thread is
    attached to the JVM exactly when [GetEnv] reported it detached, and then
    it is detached again exactly once, whether the runnable is delivered or
    the lookup aborts.  When the method is found, [inContextCallback] is
    called once and then the two global references are deleted; when it is
    not, the runnable is not called, no reference is deleted and the group
    is left as it was. *)
Theorem java_runnable_delivery (r : Runnable) (w : World) :
  c_runnable r = None →
  jclass_chain (thiz r) ≠ [] →
  let d := bool_decide (getEnvStat r = JNI_EDETACHED) in
  let res := run_body r w in
  count_event EvAttachCurrentThread (events res) = (if d then 1 else 0)%nat ∧
  count_event EvDetachCurrentThread (events res) = (if d then 1 else 0)%nat ∧
  (true ∈ jclass_chain (thiz r) →
     outcome res = Ret tt ∧
     events res =
       (if d then [EvAttachCurrentThread] else []) ++
       [EvCallVoidMethod (rid r) (jref (thiz r)) (jref (runnable r));
        EvDeleteGlobalRef (jref (thiz r));
        EvDeleteGlobalRef (jref (runnable r))] ++
       (if d then [EvDetachCurrentThread] else []) ++
       ((λ a, EvEnqueue (rid a)) <$> arrivals r)) ∧
  (true ∉ jclass_chain (thiz r) →
     outcome res = Abort ∧ world res = w ∧
     events res =
       (if d then [EvAttachCurrentThread] else []) ++
       (if d then [EvDetachCurrentThread] else []) ++ [EvLogAssert]).
Proof.
  intros Hc Hne d res. subst res. rewrite (run_body_java r w Hc). fold d.
  destruct (decide (true ∈ jclass_chain (thiz r))) as [Hin | Hnot].
  - rewrite (find_method_found d _ w Hin).
    unfold outcome, world, events; cbn [fst snd app].
    split; [| split; [| split; [done | done]]].
    + destruct d; cbn [app]; rewrite ?count_event_app, !count_event_cons,
        count_event_enqueues by done;
        repeat case_decide; try discriminate; try done; rewrite ?count_event_nil; lia.
    + destruct d; cbn [app]; rewrite ?count_event_app, !count_event_cons,
        count_event_enqueues by done;
        repeat case_decide; try discriminate; try done; rewrite ?count_event_nil; lia.
  - rewrite (find_method_missing d _ w Hne Hnot).
    unfold outcome, world, events; cbn [fst snd].
    repeat split; try done; destruct d; reflexivity.
Qed.

(** ** The mutex protocol *)

Lemma well_locked_app st t1 t2 :
  well_locked st (t1 ++ t2) = well_locked st t1 ≫= λ s, well_locked s t2.
Proof.
  revert st. induction t1 as [| e t1 IH]; intros st; [done |].
  destruct e; cbn [app well_locked]; try apply IH.
  - destruct st; [done | apply IH].
  - destruct st as [m' |]; [| done]. case_decide; [apply IH | done].
Qed.

Lemma well_locked_lock_free st tr :
  Forall (λ e, is_lock_event e = false) tr → well_locked st tr = Some st.
Proof.
  induction 1 as [| e tr He _ IH]; [done |].
  destruct e; try discriminate; exact IH.
Qed.

Lemma well_locked_bracket m mid :
  Forall (λ e, is_lock_event e = false) mid →
  well_locked None ([EvLock m] ++ mid ++ [EvUnlock m]) = Some None.
Proof.
  intros Hmid. cbn [app well_locked]. rewrite well_locked_app.
  rewrite (well_locked_lock_free _ _ Hmid). cbn. by rewrite decide_True.
Qed.

Lemma keeps_protocol_app_ret t1 (r : Outcome unit * World * list Event) o w' :
  well_locked None t1 = Some None →
  keeps_protocol r → o = outcome r →
  keeps_protocol (o, w', t1 ++ events r).
Proof.
  intros H1 (st & Hst & Hret) ->. exists st. unfold events, outcome in *; cbn [fst snd].
  rewrite well_locked_app, H1. cbn. done.
Qed.

Lemma drain_well_locked fuel : ∀ w,
  ∃ st, well_locked (Some m_async_mutex) (events (drain fuel w)) = Some st ∧
        (outcome (drain fuel w) = Ret tt → st = Some m_async_mutex).
Proof.
  induction fuel as [| fuel IH]; intros w.
  - destruct (m_runnables (this w)) as [| x rest] eqn:Hq.
    + rewrite (drain_empty _ w Hq). by exists (Some m_async_mutex).
    + cbn [drain]. unfold mbind, M_bind, get_this. rewrite Hq.
      by exists (Some m_async_mutex).
  - destruct (m_runnables (this w)) as [| x rest] eqn:Hq.
    + rewrite (drain_empty _ w Hq). by exists (Some m_async_mutex).
    + rewrite (drain_step fuel x rest w Hq).
      pose proof (run_body_quiet x w) as Hb.
      assert (Hlf : Forall (λ e, is_lock_event e = false) (events (run_body x w))).
      { eapply Forall_impl; [exact Hb |]. by intros e (? & _). }
      destruct (run_body x w) as [[[] w1] t1]; unfold events, outcome in *;
        cbn [fst snd] in *.
      * destruct (m_runnables (this w1)) as [| y q'].
        -- exists (Some m_async_mutex). cbn [fst snd well_locked].
           rewrite decide_True by done. rewrite well_locked_app.
           rewrite (well_locked_lock_free _ _ Hlf). cbn. done.
        -- destruct (IH (with_this (set_m_runnables q') w1)) as (st & Hst & Hret).
           destruct (drain fuel _) as [[o3 w3] t3]. cbn [fst snd] in *.
           exists st. cbn [well_locked]. rewrite decide_True by done.
           rewrite well_locked_app, (well_locked_lock_free _ _ Hlf). cbn.
           done.
      * exists None. cbn [well_locked]. rewrite decide_True by done.
        by rewrite (well_locked_lock_free _ _ Hlf).
      * exists None. cbn [well_locked]. rewrite decide_True by done.
        by rewrite (well_locked_lock_free _ _ Hlf).
      * exists None. cbn [well_locked]. rewrite decide_True by done.
        by rewrite (well_locked_lock_free _ _ Hlf).
Qed.

Lemma FreeZombies_protocol w : keeps_protocol (FreeZombies w).
Proof.
  destruct (FreeZombies_cases w) as [(mid & Hfz & Hmid) | (mid & Hfz & Hmid & _)];
    rewrite Hfz; destruct (zombie_events_not_tasks mid Hmid) as (_ & _ & _ & _ & _ & Hlf).
  - exists None. split; [| done]. by apply well_locked_bracket.
  - exists (Some m_zombie_mutex). split; [| done].
    unfold events; cbn [snd app well_locked]. rewrite well_locked_app.
    by rewrite (well_locked_lock_free _ _ Hlf).
Qed.

Lemma callback_protocol fuel h w : keeps_protocol (callback fuel h w).
Proof.
  rewrite callback_unfold.
  destruct (FreeZombies_protocol w) as (stz & Hstz & Hretz).
  destruct (FreeZombies w) as [[oz wz] tz]. unfold events, outcome in *; cbn [fst snd] in *.
  destruct oz as [[] | | |]; try (exists stz; cbn [fst snd well_locked app]; by split).
  rewrite (Hretz eq_refl) in Hstz.
  destruct (drain_well_locked fuel wz) as (st & Hst & Hret).
  destruct (drain fuel wz) as [[od wd] td]. unfold events, outcome in *; cbn [fst snd] in *.
  destruct od as [[] | | |].
  - exists None. unfold keeps_protocol, events, outcome; cbn [fst snd]. split; [| done].
    cbn [app well_locked]. rewrite !well_locked_app, Hstz. cbn.
    rewrite !well_locked_app, Hst. rewrite (Hret eq_refl). cbn.
    by rewrite decide_True.
  - exists st. unfold events, outcome; cbn [fst snd]. split; [| done].
    cbn [app well_locked]. rewrite !well_locked_app, Hstz. cbn.
    done.
  - exists st. unfold events, outcome; cbn [fst snd]. split; [| done].
    cbn [app well_locked]. rewrite !well_locked_app, Hstz. cbn.
    done.
  - exists st. unfold events, outcome; cbn [fst snd]. split; [| done].
    cbn [app well_locked]. rewrite !well_locked_app, Hstz. cbn.
    done.
Qed.

(** ** Closed forms of the scheduling calls *)

Lemma ensure_wake_run h w :
  ensure_wake h w =
    (Ret tt,
     with_this (set_m_async_handle (wake_handle h (m_async_handle (this w)))) w,
     wake_events h (m_async_handle (this w))).
Proof.
  unfold ensure_wake, mbind, M_bind, get_this, wake_handle, wake_events.
  destruct w as [p s g]. cbn [this].
  destruct (m_async_handle g) as [h0 |] eqn:Hh.
  - unfold mret, M_ret, with_this. cbn. destruct g; cbn in *. by rewrite Hh.
  - reflexivity.
Qed.

Lemma schedule_java_runnable_run r h w :
  schedule_java_runnable r h w =
    (Ret tt,
     with_this (λ g, set_m_async_handle (wake_handle h (m_async_handle g))
                       (set_m_runnables (m_runnables g ++ [r]) g)) w,
     [EvLock m_async_mutex; EvEnqueue (rid r)] ++
     wake_events h (m_async_handle (this w)) ++ [EvUnlock m_async_mutex]).
Proof.
  unfold schedule_java_runnable, mbind, M_bind, lock, unlock, emit, upd_this.
  rewrite ensure_wake_run. reflexivity.
Qed.

Lemma MarkZombie_value_run obj_addr obj h w :
  obj_addr ≠ self w →
  MarkZombie_value obj_addr obj h w =
    (Ret tt,
     with_this (λ g, set_m_async_handle (wake_handle h (m_async_handle g))
                       (set_m_value_zombies (m_value_zombies g ++ [obj]) g)) w,
     [EvLock m_zombie_mutex; EvUnlock m_zombie_mutex; EvLock m_async_mutex] ++
     wake_events h (m_async_handle (this w)) ++ [EvUnlock m_async_mutex]).
Proof.
  intros Hne. unfold MarkZombie_value, mbind, M_bind, get_self.
  rewrite decide_False by done.
  unfold lock, unlock, emit, upd_this, mbind, M_bind.
  rewrite ensure_wake_run. reflexivity.
Qed.

Lemma MarkZombie_context_run obj_addr obj h w :
  obj_addr ≠ self w →
  MarkZombie_context obj_addr obj h w =
    (Ret tt,
     with_this (λ g, set_m_async_handle (wake_handle h (m_async_handle g))
                       (set_m_context_zombies (m_context_zombies g ++ [obj]) g)) w,
     [EvLock m_zombie_mutex; EvUnlock m_zombie_mutex; EvLock m_async_mutex] ++
     wake_events h (m_async_handle (this w)) ++ [EvUnlock m_async_mutex]).
Proof.
  intros Hne. unfold MarkZombie_context, mbind, M_bind, get_self.
  rewrite decide_False by done.
  unfold lock, unlock, emit, upd_this, mbind, M_bind.
  rewrite ensure_wake_run. reflexivity.
Qed.

Lemma MarkZombie_self_run obj_v obj_c h w :
  MarkZombie_value (self w) obj_v h w = (Ret tt, w, []) ∧
  MarkZombie_context (self w) obj_c h w = (Ret tt, w, []).
Proof.
  unfold MarkZombie_value, MarkZombie_context, mbind, M_bind, get_self.
  by rewrite !decide_True.
Qed.

Lemma wake_events_lock_free h old :
  Forall (λ e, is_lock_event e = false) (wake_events h old).
Proof. destruct old; repeat constructor. Qed.

Lemma ContextGroup_ctor_events iso tid w :
  outcome (ContextGroup_ctor iso tid w) = Ret tt ∧
  events (ContextGroup_ctor iso tid w) =
    events (init_v8 w) ++
    [EvIsolateNew iso false; EvAddGCPrologueCallback iso; EvSetMicrotasksPolicy iso].
Proof.
  unfold ContextGroup_ctor, mbind, M_bind.
  destruct (decide (s_init_count (proc w) = 0)) as [H0 | Hne].
  - rewrite (init_v8_first w H0). by split.
  - rewrite (init_v8_later w Hne). by split.
Qed.

Lemma ContextGroup_ctor_snapshot_events snapshot size iso tid w :
  outcome (ContextGroup_ctor_snapshot snapshot size iso tid w) = Ret tt ∧
  events (ContextGroup_ctor_snapshot snapshot size iso tid w) =
    events (init_v8 w) ++
    [EvIsolateNew iso (match snapshot with
                       | Some _ => negb (size =? 0)
                       | None => false
                       end);
     EvAddGCPrologueCallback iso; EvSetMicrotasksPolicy iso].
Proof.
  unfold ContextGroup_ctor_snapshot, mbind, M_bind.
  destruct (decide (s_init_count (proc w) = 0)) as [H0 | Hne].
  - rewrite (init_v8_first w H0). by split.
  - rewrite (init_v8_later w Hne). by split.
Qed.

Lemma init_v8_protocol w : keeps_protocol (init_v8 w).
Proof.
  exists None. split; [| done].
  destruct (decide (s_init_count (proc w) = 0)) as [H0 | Hne].
  - by rewrite (init_v8_first w H0).
  - by rewrite (init_v8_later w Hne).
Qed.

Lemma dispose_v8_events_protocol count :
  well_locked None (dispose_v8_events count) = Some None.
Proof. unfold dispose_v8_events. by case_decide. Qed.

Lemma well_locked_app_Some st t1 st1 t2 :
  well_locked st t1 = Some st1 → well_locked st (t1 ++ t2) = well_locked st1 t2.
Proof. intros H. by rewrite well_locked_app, H. Qed.

Lemma dispose_tail_protocol p g : well_locked None (dispose_tail p g) = Some None.
Proof.
  unfold dispose_tail. cbn [app well_locked].
  assert (Hreg : well_locked (Some s_mutex)
                   (if decide (is_Some (s_isolate_map p !! m_isolate g))
                    then [EvRegistryErase (m_isolate g)] else [])
                 = Some (Some s_mutex)) by (by case_decide).
  rewrite (well_locked_app_Some _ _ _ _ Hreg). cbn [well_locked].
  rewrite decide_True by done.
  assert (Hiso : well_locked None
                   (if m_manage_isolate g then [EvIsolateDispose (m_isolate g)]
                    else dispose_v8_events (s_init_count p)) = Some None).
  { destruct (m_manage_isolate g); [done | apply dispose_v8_events_protocol]. }
  rewrite (well_locked_app_Some _ _ _ _ Hiso).
  by destruct (has_startup_data _).
Qed.

Lemma Dispose_protocol w : keeps_protocol (Dispose w).
Proof.
  destruct (m_isDefunct (this w)) eqn:Hd.
  { rewrite (Dispose_defunct w Hd). by exists None. }
  destruct (Dispose_run w Hd) as (Hev & Ho & _).
  destruct (FreeZombies_protocol (with_this torn_down w)) as (stz & Hstz & Hretz).
  assert (Hhead : Forall (λ e, is_lock_event e = false) (dispose_head (this w))).
  { unfold dispose_head. repeat (apply Forall_app; split); try (repeat constructor);
      apply Forall_fmap, Forall_true; done. }
  unfold keeps_protocol. rewrite Hev, Ho. clear Hev Ho.
  rewrite (well_locked_app_Some _ _ _ _ (well_locked_lock_free None _ Hhead)).
  rewrite (well_locked_app_Some _ _ _ _ Hstz).
  destruct (outcome (FreeZombies (with_this torn_down w))) as [[] | | |].
  - rewrite (Hretz eq_refl). exists None. split; [| done].
    apply dispose_tail_protocol.
  - exists stz. by split.
  - exists stz. by split.
  - exists stz. by split.
Qed.

Lemma New_run heap fs snapshotFile iso tid w :
  (∃ pre sn sz,
     New heap fs snapshotFile iso tid w =
       (Ret tt, world (ContextGroup_ctor_snapshot sn sz iso tid w),
        pre ++ events (ContextGroup_ctor_snapshot sn sz iso tid w)) ∧
     ((fs snapshotFile = None ∧ pre = [EvFopen false] ∧ sn = None ∧ sz = 0) ∨
      (∃ fp, fs snapshotFile = Some fp ∧
             allocates heap (ftell_end fp) = true ∧
             Z.of_nat (length (fread fp (ftell_end fp))) ≠ ftell_end fp ∧
             pre = [EvFopen true; EvDeleteBuffer; EvFclose] ∧ sn = None ∧ sz = 0) ∨
      (∃ fp, fs snapshotFile = Some fp ∧
             allocates heap (ftell_end fp) = true ∧
             Z.of_nat (length (fread fp (ftell_end fp))) = ftell_end fp ∧
             pre = [EvFopen true; EvFclose] ∧
             sn = Some (fread fp (ftell_end fp)) ∧ sz = wrap_int (ftell_end fp)))) ∨
  (∃ fp, fs snapshotFile = Some fp ∧
         allocates heap (ftell_end fp) = false ∧
         New heap fs snapshotFile iso tid w =
           (Abort, w, [EvFopen true; EvBadAlloc (ftell_end fp)])).
Proof.
  unfold New. destruct (fs snapshotFile) as [fp |].
  - destruct (allocates heap (ftell_end fp)) eqn:Halloc.
    + left. unfold new_array. rewrite Halloc. case_decide as Hread.
      * exists [EvFopen true; EvDeleteBuffer; EvFclose], None, 0.
        split; [| right; left; by exists fp].
        change (ContextGroup_ctor iso tid) with (ContextGroup_ctor_snapshot None 0 iso tid).
        destruct (ContextGroup_ctor_snapshot_events None 0 iso tid w) as [Hco _].
        unfold mbind, M_bind, emit, mret, M_ret.
        destruct (ContextGroup_ctor_snapshot None 0 iso tid w) as [[o w1] t1].
        unfold outcome in Hco; cbn [fst] in Hco. by subst o.
      * exists [EvFopen true; EvFclose], (Some (fread fp (ftell_end fp))),
          (wrap_int (ftell_end fp)).
        split; [| right; right; by exists fp].
        destruct (ContextGroup_ctor_snapshot_events (Some (fread fp (ftell_end fp)))
                    (wrap_int (ftell_end fp)) iso tid w) as [Hco _].
        unfold mbind, M_bind, emit, mret, M_ret.
        destruct (ContextGroup_ctor_snapshot _ _ iso tid w) as [[o w1] t1].
        unfold outcome in Hco; cbn [fst] in Hco. by subst o.
    + right. exists fp. split; [done |]. split; [done |].
      unfold new_array. rewrite Halloc. reflexivity.
  - left. exists [EvFopen false], None, 0. split; [| by left].
    change (ContextGroup_ctor iso tid) with (ContextGroup_ctor_snapshot None 0 iso tid).
    destruct (ContextGroup_ctor_snapshot_events None 0 iso tid w) as [Hco _].
    unfold mbind, M_bind, emit.
    destruct (ContextGroup_ctor_snapshot None 0 iso tid w) as [[o w1] t1].
    unfold outcome in Hco; cbn [fst] in Hco. by subst o.
Qed.

Lemma keeps_protocol_bracketed (o : Outcome unit) w' pre m mid :
  Forall (λ e, is_lock_event e = false) pre →
  Forall (λ e, is_lock_event e = false) mid →
  keeps_protocol (o, w', pre ++ [EvLock m] ++ mid ++ [EvUnlock m]).
Proof.
  intros Hpre Hmid. exists None. split; [| done].
  unfold events; cbn [snd].
  rewrite (well_locked_app_Some _ _ _ _ (well_locked_lock_free None _ Hpre)).
  by apply well_locked_bracket.
Qed.

(** X3: the three mutexes are used as plain, non-recursive locks and never
    nested.  Along every operation of the group a mutex is only locked while
    no mutex is held, only the mutex that is held is unlocked, and when the
    operation returns no mutex is held.  This covers the group's own code:
    what a task body or a GC callback does is outside. *)
Theorem mutex_protocol :
  (∀ fuel h w, keeps_protocol (callback fuel h w)) ∧
  (∀ w, keeps_protocol (Dispose w)) ∧
  (∀ w, keeps_protocol (FreeZombies w)) ∧
  (∀ obj_addr obj h w, keeps_protocol (MarkZombie_value obj_addr obj h w)) ∧
  (∀ obj_addr obj h w, keeps_protocol (MarkZombie_context obj_addr obj h w)) ∧
  (∀ r h w, keeps_protocol (schedule_java_runnable r h w)) ∧
  (∀ isolate gctype flags w,
     keeps_protocol (StaticGCPrologueCallback isolate gctype flags w)) ∧
  (∀ w, keeps_protocol (init_v8 w)) ∧
  (∀ w, keeps_protocol (dispose_v8 w)) ∧
  (∀ iso tid w, keeps_protocol (ContextGroup_ctor iso tid w)) ∧
  (∀ isolate tid uv_loop w,
     keeps_protocol (ContextGroup_ctor_isolate isolate tid uv_loop w)) ∧
  (∀ snapshot size iso tid w,
     keeps_protocol (ContextGroup_ctor_snapshot snapshot size iso tid w)) ∧
  (∀ heap fs snapshotFile iso tid w,
     keeps_protocol (New heap fs snapshotFile iso tid w)).
Proof.
  assert (Hctor : ∀ iso tid w, keeps_protocol (ContextGroup_ctor iso tid w)).
  { intros iso tid w. destruct (ContextGroup_ctor_events iso tid w) as [Ho Hev].
    destruct (init_v8_protocol w) as (st & Hst & Hret).
    exists None. split; [| done]. rewrite Hev.
    assert (Hinit : outcome (init_v8 w) = Ret tt).
    { destruct (decide (s_init_count (proc w) = 0)) as [H0 | Hne].
      - by rewrite (init_v8_first w H0).
      - by rewrite (init_v8_later w Hne). }
    rewrite (Hret Hinit) in Hst.
    by rewrite (well_locked_app_Some _ _ _ _ Hst). }
  assert (Hsnap : ∀ snapshot size iso tid w,
            keeps_protocol (ContextGroup_ctor_snapshot snapshot size iso tid w)).
  { intros snapshot size iso tid w.
    destruct (ContextGroup_ctor_snapshot_events snapshot size iso tid w) as [Ho Hev].
    destruct (init_v8_protocol w) as (st & Hst & Hret).
    exists None. split; [| done]. rewrite Hev.
    assert (Hinit : outcome (init_v8 w) = Ret tt).
    { destruct (decide (s_init_count (proc w) = 0)) as [H0 | Hne].
      - by rewrite (init_v8_first w H0).
      - by rewrite (init_v8_later w Hne). }
    rewrite (Hret Hinit) in Hst.
    by rewrite (well_locked_app_Some _ _ _ _ Hst). }
  repeat apply conj.
  - apply callback_protocol.
  - apply Dispose_protocol.
  - apply FreeZombies_protocol.
  - intros obj_addr obj h w. destruct (decide (obj_addr = self w)) as [-> | Hne].
    + destruct (MarkZombie_self_run obj (mkJSContext 0 false) h w) as [Hv _].
      rewrite Hv. by exists None.
    + rewrite (MarkZombie_value_run _ _ _ _ Hne).
      exists None. split; [| done]. unfold events; cbn [snd app well_locked].
      rewrite !decide_True by done.
      rewrite (well_locked_app_Some _ _ _ _
                 (well_locked_lock_free _ _ (wake_events_lock_free h _))).
      cbn. by rewrite decide_True.
  - intros obj_addr obj h w. destruct (decide (obj_addr = self w)) as [-> | Hne].
    + destruct (MarkZombie_self_run (mkJSValue 0) obj h w) as [_ Hc].
      rewrite Hc. by exists None.
    + rewrite (MarkZombie_context_run _ _ _ _ Hne).
      exists None. split; [| done]. unfold events; cbn [snd app well_locked].
      rewrite !decide_True by done.
      rewrite (well_locked_app_Some _ _ _ _
                 (well_locked_lock_free _ _ (wake_events_lock_free h _))).
      cbn. by rewrite decide_True.
  - intros r h w. rewrite schedule_java_runnable_run.
    exists None. split; [| done]. unfold events; cbn [snd app well_locked].
    rewrite (well_locked_app_Some _ _ _ _
               (well_locked_lock_free _ _ (wake_events_lock_free h _))).
    cbn. by rewrite decide_True.
  - intros isolate gctype flags w. rewrite StaticGCPrologueCallback_run.
    apply (keeps_protocol_bracketed _ _ []); [constructor |].
    destruct (s_isolate_map (proc w) !! isolate) as [ptr |]; [| constructor].
    destruct (decide (ptr = self w)); [| repeat constructor].
    apply Forall_fmap, Forall_true. done.
  - apply init_v8_protocol.
  - intros w. exists None. split; [| done].
    destruct (decide (s_init_count (proc w) = 0)) as [H0 | Hne].
    + by rewrite (dispose_v8_zero w H0).
    + by rewrite (dispose_v8_nonzero w Hne).
  - exact Hctor.
  - intros isolate tid uv_loop w. by exists None.
  - exact Hsnap.
  - intros heap fs snapshotFile iso tid w.
    destruct (New_run heap fs snapshotFile iso tid w)
      as [(pre & sn & sz & Hnew & Hcases) | (fp & _ & _ & Hnew)]; rewrite Hnew.
    + destruct (Hsnap sn sz iso tid w) as (st & Hst & Hret).
      destruct (ContextGroup_ctor_snapshot_events sn sz iso tid w) as [Hco _].
      assert (Hpre : Forall (λ e, is_lock_event e = false) pre).
      { destruct Hcases as [(_ & -> & _) |
                            [(fp & _ & _ & _ & -> & _) | (fp & _ & _ & _ & -> & _)]];
          by repeat constructor. }
      exists None. split; [| done]. unfold events at 1; cbn [snd].
      rewrite (well_locked_app_Some _ _ _ _ (well_locked_lock_free None _ Hpre)).
      by rewrite Hst, (Hret Hco).
    + by exists None.
Qed.

Lemma wakes_sent_app t1 t2 : wakes_sent (t1 ++ t2) = wakes_sent t1 ++ wakes_sent t2.
Proof. apply omap_app. Qed.

Lemma wakes_sent_wake_events h old :
  wakes_sent (wake_events h old) = match old with Some _ => [] | None => [h] end.
Proof. by destruct old. Qed.

Lemma enqueued_wake_events h old : enqueued (wake_events h old) = [].
Proof. by destruct old. Qed.

Lemma callback_ret_handle fuel h w :
  outcome (callback fuel h w) = Ret tt →
  m_async_handle (this (world (callback fuel h w))) = None.
Proof.
  rewrite callback_unfold.
  destruct (FreeZombies w) as [[oz wz] tz].
  destruct oz as [[] | | |]; try done.
  destruct (drain fuel wz) as [[od wd] td].
  by destruct od as [[] | | |].
Qed.

(** X4: scheduling calls made back to back append their runnables to the
    queue in call order and send at most one wake-up: the first call sends it
    if no wake-up was under way, the later ones find the handle set.  Once a
    drain has returned, the next scheduling call sends a wake-up again. *)
Theorem schedule_sends_one_wake :
  (∀ rs w,
     let res := schedule_all rs w in
     let old := m_async_handle (this w) in
     outcome res = Ret tt ∧
     m_runnables (this (world res)) = m_runnables (this w) ++ rs.*1 ∧
     enqueued (events res) = rid <$> rs.*1 ∧
     wakes_sent (events res) =
       match rs, old with
       | (_, h) :: _, None => [h]
       | _, _ => []
       end ∧
     m_async_handle (this (world res)) =
       match rs with
       | [] => old
       | (_, h) :: _ => Some (default h old)
       end) ∧
  (∀ fuel h w r h',
     outcome (callback fuel h w) = Ret tt →
     wakes_sent (events (schedule_java_runnable r h' (world (callback fuel h w)))) = [h']).
Proof.
  split.
  - intros rs. induction rs as [| [r h] rest IH]; intros w.
    + cbn. rewrite app_nil_r. by destruct (m_async_handle (this w)).
    + cbn zeta. cbn [schedule_all]. unfold mbind, M_bind.
      rewrite schedule_java_runnable_run.
      set (w1 := with_this _ w).
      specialize (IH w1). cbn zeta in IH.
      destruct IH as (Ho & Hq & Henq & Hwake & Hh).
      destruct (schedule_all rest w1) as [[o2 w2] t2].
      unfold outcome, world, events in *; cbn [fst snd] in *.
      subst o2. split; [done |]. split.
      { rewrite Hq. subst w1. cbn. by rewrite <- app_assoc. }
      split.
      { rewrite !enqueued_app, Henq, enqueued_wake_events. by cbn. }
      split.
      { rewrite !wakes_sent_app, Hwake, wakes_sent_wake_events.
        subst w1. cbn. destruct (m_async_handle (this w)); cbn; by destruct rest as [| []]. }
      rewrite Hh. subst w1. cbn. unfold wake_handle.
      destruct rest as [| []]; [done |].
      by destruct (m_async_handle (this w)).
  - intros fuel h w r h' Hret.
    rewrite schedule_java_runnable_run. unfold events; cbn [snd].
    rewrite !wakes_sent_app, wakes_sent_wake_events.
    by rewrite (callback_ret_handle _ _ _ Hret).
Qed.

(** ** Termination of the drain *)

Lemma deliverable_unfold r :
  deliverable r = method_found r && forallb deliverable (arrivals r).
Proof. by destruct r. Qed.

Lemma forallb_deliverable l :
  forallb deliverable l = true ↔ Forall (λ r, deliverable r = true) l.
Proof.
  induction l as [| a l IH]; [done |].
  cbn [forallb]. by rewrite andb_true_iff, Forall_cons, IH.
Qed.

Lemma find_method_ret_iff detached chain w :
  outcome (find_method detached chain w) = Ret tt ↔ true ∈ chain.
Proof.
  split.
  - intros Hret. destruct (decide (true ∈ chain)) as [| Hnot]; [done |].
    destruct chain as [| c chain]; [done |].
    by rewrite (find_method_missing detached (c :: chain) w) in Hret.
  - intros Hin. by rewrite (find_method_found _ _ _ Hin).
Qed.

Lemma run_body_ret_iff r w :
  outcome (run_body r w) = Ret tt ↔ method_found r = true.
Proof.
  unfold method_found. destruct (c_runnable r) as [c |] eqn:Hc.
  - unfold run_body. rewrite Hc. unfold mbind, M_bind, emit.
    rewrite push_arrivals_run. done.
  - rewrite (run_body_java r w Hc). cbn zeta.
    rewrite bool_decide_eq_true, <- (find_method_ret_iff
      (bool_decide (getEnvStat r = JNI_EDETACHED)) _ w).
    destruct (find_method _ _ w) as [[[[]| | |] w1] t1]; done.
Qed.

Lemma deleted_app t1 t2 : deleted (t1 ++ t2) = deleted t1 ++ deleted t2.
Proof. apply omap_app. Qed.

Lemma deleted_no_dequeue tr :
  Forall (λ e, is_dequeue e = false) tr → deleted tr = [].
Proof.
  induction 1 as [| e tr He _ IH]; [done |].
  unfold deleted in *. cbn. rewrite IH. by destruct e.
Qed.

Lemma deleted_enqueues (rs : list Runnable) :
  deleted ((λ a, EvEnqueue (rid a)) <$> rs) = [].
Proof. by induction rs. Qed.

Lemma drain_returns_iff fuel : ∀ w,
  (weights (m_runnables (this w)) <= fuel)%nat →
  (outcome (drain fuel w) = Ret tt ↔
   Forall (λ r, deliverable r = true) (m_runnables (this w))) ∧
  (outcome (drain fuel w) = Ret tt →
   deleted (events (drain fuel w)) = executed (events (drain fuel w))).
Proof.
  induction fuel as [| fuel IH]; intros w Hfuel.
  - destruct (m_runnables (this w)) as [| r rest] eqn:Hq.
    + rewrite (drain_empty _ _ Hq). done.
    + rewrite weights_cons in Hfuel. lia.
  - destruct (m_runnables (this w)) as [| r rest] eqn:Hq.
    + rewrite (drain_empty _ _ Hq). done.
    + rewrite (drain_step fuel r rest w Hq).
      rewrite weights_cons in Hfuel.
      pose proof (run_body_ret_iff r w) as Hiff.
      destruct (run_body_cases r w) as
        [(body & Hrun & Hex & _ & _ & _ & Hdq & _) | (o & evs & Hrun & Ho & _)].
      * rewrite Hrun in Hiff |- *. unfold outcome in Hiff; cbn [fst] in Hiff.
        assert (Hq1 : m_runnables (this (push_back_all (arrivals r) w))
                      = r :: rest ++ arrivals r).
        { cbn. by rewrite Hq. }
        rewrite Hq1.
        set (w2 := with_this (set_m_runnables (rest ++ arrivals r))
                     (push_back_all (arrivals r) w)).
        assert (Hq2 : m_runnables (this w2) = rest ++ arrivals r) by done.
        destruct (IH w2) as [IHiff IHdel].
        { rewrite Hq2, weights_app. lia. }
        rewrite Hq2 in IHiff.
        destruct (drain fuel w2) as [[o3 w3] t3].
        unfold outcome, events in *; cbn [fst snd] in *.
        split.
        -- rewrite IHiff, Forall_app, Forall_cons, deliverable_unfold,
             andb_true_iff, forallb_deliverable.
           destruct Hiff as [Hiff _]. specialize (Hiff eq_refl).
           tauto.
        -- intros Ho3. specialize (IHdel Ho3).
           change (EvUnlock m_async_mutex :: (body ++ _) ++ EvLock m_async_mutex
                     :: EvDeleteRunnable (rid r) :: t3)
             with ([EvUnlock m_async_mutex] ++ (body ++ ((λ a, EvEnqueue (rid a)) <$> arrivals r))
                     ++ [EvLock m_async_mutex; EvDeleteRunnable (rid r)] ++ t3).
           rewrite !deleted_app, !executed_app, IHdel, Hex,
             (deleted_no_dequeue _ Hdq), deleted_enqueues, executed_enqueues.
           done.
      * rewrite Hrun in Hiff |- *. unfold outcome, events in *; cbn [fst snd] in *.
        assert (Hnf : method_found r = false).
        { destruct (method_found r); [| done].
          destruct Hiff as [_ Hiff]. specialize (Hiff eq_refl).
          destruct Ho; congruence. }
        assert (Hno : ¬ Forall (λ r0, deliverable r0 = true) (r :: rest)).
        { rewrite Forall_cons, deliverable_unfold, Hnf. cbn. intros [? _]. done. }
        destruct Ho as [-> | ->]; cbn [fst snd]; split; done.
Qed.

Lemma FreeZombies_returns w :
  DEBUG = false ∨ Forall (λ ctx, IsDefunct ctx = true) (m_context_zombies (this w)) →
  ∃ mid, FreeZombies w =
           (Ret tt, zombies_cleared w,
            [EvLock m_zombie_mutex] ++ mid ++ [EvUnlock m_zombie_mutex]) ∧
         Forall (λ e, is_zombie_event e = true) mid.
Proof.
  intros Hz.
  destruct (FreeZombies_cases w) as [(mid & Hfz & Hmid) | (mid & Hfz & Hmid & Hdbg)].
  - by exists mid.
  - destruct Hz as [Hrel | Hdef]; [congruence |].
    rewrite (FreeZombies_defunct w Hdef) in Hfz. discriminate.
Qed.

(** X5: the drain returns exactly when every queued task can be delivered.
    With a loop bound that covers the queue and the arrivals, and a zombie
    pass that does not abort (a release build, or no context zombie still
    running), [callback] returns if and only if every runnable of the queue,
    and every runnable that arrives while one of them runs, is a native
    closure or a Java runnable whose method is found.  When it returns, the
    runnables it deleted are the runnables it ran, in the same order, and the
    group is left with an empty queue, no zombies and no wake handle, and
    otherwise unchanged. *)
Theorem callback_returns_iff_deliverable (fuel h : nat) (w : World) :
  (weights (m_runnables (this w)) <= fuel)%nat →
  DEBUG = false ∨ Forall (λ ctx, IsDefunct ctx = true) (m_context_zombies (this w)) →
  let r := callback fuel h w in
  (outcome r = Ret tt ↔
   Forall (λ t, deliverable t = true) (m_runnables (this w))) ∧
  (outcome r = Ret tt →
     deleted (events r) = executed (events r) ∧
     world r =
       with_this (λ g, set_m_async_handle None
                         (set_m_runnables []
                            (set_m_context_zombies []
                               (set_m_value_zombies [] g)))) w).
Proof.
  intros Hfuel Hz r. subst r.
  destruct (FreeZombies_returns w Hz) as (mid & Hfz & Hmid).
  destruct (zombie_events_not_tasks mid Hmid) as (Hexm & _ & _ & _ & Hdqm & _).
  rewrite callback_unfold, Hfz.
  assert (Hq : m_runnables (this (zombies_cleared w)) = m_runnables (this w)) by done.
  destruct (drain_returns_iff fuel (zombies_cleared w)) as [Hiff Hdel].
  { by rewrite Hq. }
  assert (Hfuel' : (weights (m_runnables (this (zombies_cleared w))) <= fuel)%nat)
    by by rewrite Hq.
  pose proof (drain_spec (λ _, false) fuel (λ _, eq_refl) (λ _, eq_refl)
                (λ _, eq_refl) (zombies_cleared w) Hfuel') as (_ & _ & _ & _ & Hret).
  rewrite Hq in Hiff.
  destruct (drain fuel (zombies_cleared w)) as [[od wd] td].
  unfold outcome, world, events in *; cbn [fst snd] in *.
  destruct od as [[] | | |]; cbn [fst snd].
  - split; [done |]. intros _.
    destruct (Hret eq_refl) as (Hw & _). subst wd.
    split; [| done].
    rewrite !deleted_app, !executed_app, (Hdel eq_refl),
      (deleted_no_dequeue _ Hdqm), Hexm. done.
  - split; [| done]. rewrite <- Hiff. done.
  - split; [| done]. rewrite <- Hiff. done.
  - split; [| done]. rewrite <- Hiff. done.
Qed.

(** ** Release of zombies *)

Lemma value_resets_app t1 t2 : value_resets (t1 ++ t2) = value_resets t1 ++ value_resets t2.
Proof. apply omap_app. Qed.

Lemma context_resets_app t1 t2 :
  context_resets (t1 ++ t2) = context_resets t1 ++ context_resets t2.
Proof. apply omap_app. Qed.

Lemma value_resets_values (vs : list JSValue) :
  value_resets ((λ v, EvValueReset (val_id v)) <$> vs) = val_id <$> vs.
Proof. induction vs as [| v vs IH]; [done |]. unfold value_resets in *. cbn. by rewrite IH. Qed.

Lemma context_resets_values (vs : list JSValue) :
  context_resets ((λ v, EvValueReset (val_id v)) <$> vs) = [].
Proof. by induction vs. Qed.

Lemma value_resets_contexts (cs : list JSContext) :
  value_resets ((λ ctx, EvContextReset (ctx_id ctx)) <$> cs) = [].
Proof. by induction cs. Qed.

Lemma context_resets_contexts (cs : list JSContext) :
  context_resets ((λ ctx, EvContextReset (ctx_id ctx)) <$> cs) = ctx_id <$> cs.
Proof.
  induction cs as [| c cs IH]; [done |]. unfold context_resets in *. cbn. by rewrite IH.
Qed.

Lemma value_resets_blocks cs : value_resets (flat_map zombie_block cs) = [].
Proof.
  induction cs as [| c cs IH]; [done |].
  cbn [flat_map]. rewrite value_resets_app, IH.
  unfold zombie_block. by destruct (IsDefunct c).
Qed.

Lemma context_resets_blocks cs : context_resets (flat_map zombie_block cs) = ctx_id <$> cs.
Proof.
  induction cs as [| c cs IH]; [done |].
  cbn [flat_map]. rewrite context_resets_app, IH.
  unfold zombie_block. by destruct (IsDefunct c).
Qed.

Lemma value_resets_not_zombie tr :
  Forall (λ e, is_zombie_event e = false) tr → value_resets tr = [].
Proof.
  induction 1 as [| e tr He _ IH]; [done |].
  unfold value_resets in *. cbn. rewrite IH. by destruct e.
Qed.

Lemma FreeZombies_resets w :
  value_resets (events (FreeZombies w)) = val_id <$> m_value_zombies (this w) ∧
  context_resets (events (FreeZombies w))
    `prefix_of` (ctx_id <$> m_context_zombies (this w)) ∧
  (outcome (FreeZombies w) = Ret tt →
   context_resets (events (FreeZombies w)) = ctx_id <$> m_context_zombies (this w)).
Proof.
  destruct (decide (DEBUG = false)) as [Hrel | Hdbg].
  - rewrite (FreeZombies_release w Hrel). unfold events, outcome; cbn [fst snd].
    rewrite !value_resets_app, !context_resets_app, value_resets_values,
      context_resets_values, value_resets_blocks, context_resets_blocks.
    cbn. rewrite !app_nil_r. done.
  - apply not_false_is_true in Hdbg.
    destruct (first_live_zombie (m_context_zombies (this w)))
      as [Hdef | (cs1 & ctx & cs2 & Hcs & Hdef & Hlive)].
    + rewrite (FreeZombies_defunct w Hdef). unfold events, outcome; cbn [fst snd].
      rewrite !value_resets_app, !context_resets_app, value_resets_values,
        context_resets_values, value_resets_contexts, context_resets_contexts.
      cbn. rewrite !app_nil_r. done.
    + rewrite (FreeZombies_debug w cs1 ctx cs2 Hdbg Hcs Hdef Hlive).
      unfold events, outcome; cbn [fst snd].
      rewrite !value_resets_app, !context_resets_app, value_resets_values,
        context_resets_values, value_resets_contexts, context_resets_contexts.
      cbn. rewrite !app_nil_r, Hcs, fmap_app.
      split; [done |]. split; [| done]. by apply prefix_app_r.
Qed.

(** X6: the zombie pass lets go of the zombies in the order they were marked,
    values first.  Every value zombie is released exactly once, whatever the
    build and whether or not the pass aborts on a context that still runs;
    the context zombies released are a prefix of the list, and the whole
    list when the pass returns.  Afterwards the group has no value zombie
    left. *)
Theorem zombies_released_in_order (w : World) :
  let r := FreeZombies w in
  value_resets (events r) = val_id <$> m_value_zombies (this w) ∧
  (∃ rest, events r =
             [EvLock m_zombie_mutex] ++
             ((λ v, EvValueReset (val_id v)) <$> m_value_zombies (this w)) ++ rest ∧
           value_resets rest = [] ∧
           context_resets rest = context_resets (events r)) ∧
  context_resets (events r) `prefix_of` (ctx_id <$> m_context_zombies (this w)) ∧
  m_value_zombies (this (world r)) = [] ∧
  (outcome r = Ret tt →
     context_resets (events r) = ctx_id <$> m_context_zombies (this w) ∧
     m_context_zombies (this (world r)) = []).
Proof.
  intros r. subst r.
  destruct (FreeZombies_resets w) as (Hv & Hpre & Hret).
  destruct (FreeZombies_keeps w) as (_ & _ & _ & _ & _ & _ & Hvz & Hcz).
  split; [done |]. split; [| split; [done | split; [done |]]].
  - destruct (decide (DEBUG = false)) as [Hrel | Hdbg].
    + rewrite (FreeZombies_release w Hrel). unfold events; cbn [snd].
      eexists. split; [reflexivity |].
      rewrite !value_resets_app, !context_resets_app, value_resets_blocks,
        context_resets_values. done.
    + apply not_false_is_true in Hdbg.
      destruct (first_live_zombie (m_context_zombies (this w)))
        as [Hdef | (cs1 & ctx & cs2 & Hcs & Hdef & Hlive)].
      * rewrite (FreeZombies_defunct w Hdef). unfold events; cbn [snd].
        eexists. split; [reflexivity |].
        rewrite !value_resets_app, !context_resets_app, value_resets_contexts,
          context_resets_values. done.
      * rewrite (FreeZombies_debug w cs1 ctx cs2 Hdbg Hcs Hdef Hlive).
        unfold events; cbn [snd].
        eexists. split; [reflexivity |].
        rewrite !value_resets_app, !context_resets_app, value_resets_contexts,
          context_resets_values. done.
  - intros Ho. split; [by apply Hret | by apply Hcz].
Qed.

Lemma context_resets_not_zombie tr :
  Forall (λ e, is_zombie_event e = false) tr → context_resets tr = [].
Proof.
  induction 1 as [| e tr He _ IH]; [done |].
  unfold context_resets in *. cbn. rewrite IH. by destruct e.
Qed.

Lemma forced_exits_not_zombie tr :
  Forall (λ e, is_zombie_event e = false) tr → forced_exits tr = [].
Proof.
  induction 1 as [| e tr He _ IH]; [done |].
  unfold forced_exits in *. cbn. rewrite IH. by destruct e.
Qed.

Lemma callback_zombie_split fuel h w :
  ∃ rest, events (callback fuel h w) =
            [EvDeleteGroupData h] ++ events (FreeZombies w) ++ rest ∧
          Forall (λ e, is_zombie_event e = false) rest.
Proof.
  rewrite callback_unfold.
  destruct (FreeZombies w) as [[oz wz] tz]. unfold events; cbn [snd].
  destruct oz as [[] | | |];
    try (exists []; rewrite app_nil_r; by split).
  pose proof (drain_quiet fuel wz) as Hq.
  destruct (drain fuel wz) as [[od wd] td]. unfold events in Hq; cbn [snd] in Hq.
  assert (Htd : Forall (λ e, is_zombie_event e = false) td).
  { eapply Forall_impl; [exact Hq |]. by intros e (_ & He & _). }
  destruct od as [[] | | |]; cbn [snd].
  - exists ([EvLock m_async_mutex] ++ td ++
            [EvUvClose h; EvClearAsyncHandle; EvUnlock m_async_mutex]).
    split; [done |]. apply Forall_app. split; [by repeat constructor |].
    apply Forall_app. split; [done | by repeat constructor].
  - exists ([EvLock m_async_mutex] ++ td). split; [done |].
    apply Forall_app. split; [by repeat constructor | done].
  - exists ([EvLock m_async_mutex] ++ td). split; [done |].
    apply Forall_app. split; [by repeat constructor | done].
  - exists ([EvLock m_async_mutex] ++ td). split; [done |].
    apply Forall_app. split; [by repeat constructor | done].
Qed.

(** X7: an object marked as a zombie is let go of by the next drain.  Marking
    an object other than the group itself appends it to the zombie list and
    leaves a wake-up under way, sending one only if none was; the drain that
    follows releases the marked value after the values marked before it.  In
    a release build the drain also lets go of a marked context, and forces
    the exit of its process if the context still runs.  A group handed to
    its own [MarkZombie] is ignored. *)
Theorem marked_zombie_is_released (obj_addr h fuel h' : nat) (w : World) :
  obj_addr ≠ self w →
  (∀ obj,
     let m := MarkZombie_value obj_addr obj h w in
     outcome m = Ret tt ∧
     m_value_zombies (this (world m)) = m_value_zombies (this w) ++ [obj] ∧
     is_Some (m_async_handle (this (world m))) ∧
     wakes_sent (events m) =
       match m_async_handle (this w) with Some _ => [] | None => [h] end ∧
     value_resets (events (callback fuel h' (world m))) =
       (val_id <$> m_value_zombies (this w)) ++ [val_id obj]) ∧
  (∀ obj,
     let m := MarkZombie_context obj_addr obj h w in
     outcome m = Ret tt ∧
     m_context_zombies (this (world m)) = m_context_zombies (this w) ++ [obj] ∧
     is_Some (m_async_handle (this (world m))) ∧
     wakes_sent (events m) =
       match m_async_handle (this w) with Some _ => [] | None => [h] end ∧
     (DEBUG = false →
        context_resets (events (callback fuel h' (world m))) =
          (ctx_id <$> m_context_zombies (this w)) ++ [ctx_id obj] ∧
        (IsDefunct obj = false →
           (ctx_id obj, CONTEXT_GARBAGE_COLLECTED_BUT_PROCESS_STILL_ACTIVE)
             ∈ forced_exits (events (callback fuel h' (world m)))))) ∧
  (∀ obj_v obj_c,
     MarkZombie_value (self w) obj_v h w = (Ret tt, w, []) ∧
     MarkZombie_context (self w) obj_c h w = (Ret tt, w, [])).
Proof.
  intros Hne. split; [| split].
  - intros obj m. subst m. rewrite (MarkZombie_value_run _ obj h _ Hne).
    unfold outcome, world, events; cbn [fst snd].
    split; [done |]. split; [done |]. split; [by eexists |]. split.
    { rewrite !wakes_sent_app, wakes_sent_wake_events. cbn.
      by destruct (m_async_handle (this w)). }
    match goal with |- context [callback fuel h' ?x] => set (w1 := x) end.
    destruct (callback_zombie_split fuel h' w1) as (rest & Hev & Hrest).
    destruct (FreeZombies_resets w1) as (Hv & _).
    unfold events in *. rewrite Hev, !value_resets_app, Hv,
      (value_resets_not_zombie _ Hrest).
    subst w1. cbn. by rewrite app_nil_r, fmap_app.
  - intros obj m. subst m. rewrite (MarkZombie_context_run _ obj h _ Hne).
    unfold outcome, world, events; cbn [fst snd].
    split; [done |]. split; [done |]. split; [by eexists |]. split.
    { rewrite !wakes_sent_app, wakes_sent_wake_events. cbn.
      by destruct (m_async_handle (this w)). }
    intros Hrel.
    match goal with |- context [callback fuel h' ?x] => set (w1 := x) end.
    destruct (callback_zombie_split fuel h' w1) as (rest & Hev & Hrest).
    unfold events in *. rewrite Hev, (FreeZombies_release w1 Hrel). cbn [snd].
    split.
    + rewrite !context_resets_app, context_resets_values, context_resets_blocks,
        (context_resets_not_zombie _ Hrest).
      subst w1. cbn. by rewrite !app_nil_r, fmap_app.
    + intros Hlive.
      rewrite !forced_exits_app, forced_exits_blocks.
      subst w1. cbn [this with_this m_context_zombies set_m_context_zombies
                     set_m_async_handle].
      rewrite live_zombies_app, live_zombies_cons, Hlive.
      rewrite !elem_of_app, !elem_of_cons. naive_solver.
  - intros obj_v obj_c. apply MarkZombie_self_run.
Qed.

(** ** GC callbacks *)

Lemma UnregisterGCCallback_run cb data w :
  UnregisterGCCallback cb data w =
    (Ret tt,
     with_gc_callbacks
       (unregister_fold cb data (m_gc_callbacks (this w)) (m_gc_callbacks (this w))) w,
     []).
Proof.
  unfold UnregisterGCCallback, mbind, M_bind, get_this.
  by rewrite unregister_loop_fold.
Qed.

Lemma unregister_fold_no_match cb data l :
  Forall (λ e, ¬ gc_matches cb data e) (unregister_fold cb data l l).
Proof.
  rewrite unregister_fold_filter. apply Forall_forall. intros e He Hm.
  apply list_elem_of_filter in He as [Hall Hin].
  rewrite Forall_forall in Hall. by apply (Hall e Hin Hm).
Qed.




Lemma gc_deliveries_app t1 t2 :
  gc_deliveries (t1 ++ t2) = gc_deliveries t1 ++ gc_deliveries t2.
Proof. apply omap_app. Qed.

Lemma gc_deliveries_callbacks gctype flags (items : list GCCallback) :
  gc_deliveries
    ((λ item, EvGCCallback (gc_cb item) gctype flags (gc_data item)) <$> items) =
  (λ item, (gc_cb item, gctype, flags, gc_data item)) <$> items.
Proof.
  induction items as [| i l IH]; [done |].
  unfold gc_deliveries in *. cbn. by rewrite IH.
Qed.

Lemma StaticGCPrologueCallback_deliveries isolate gctype flags w :
  gc_deliveries (events (StaticGCPrologueCallback isolate gctype flags w)) =
    if decide (s_isolate_map (proc w) !! isolate = Some (self w))
    then (λ item, (gc_cb item, gctype, flags, gc_data item)) <$> m_gc_callbacks (this w)
    else [].
Proof.
  rewrite StaticGCPrologueCallback_run. unfold events; cbn [snd].
  rewrite !gc_deliveries_app.
  destruct (s_isolate_map (proc w) !! isolate) as [ptr |] eqn:Hl.
  - destruct (decide (ptr = self w)) as [-> | Hne].
    + rewrite decide_True by done. rewrite gc_deliveries_callbacks.
      cbn. by rewrite app_nil_r.
    + rewrite decide_False by congruence. done.
  - rewrite decide_False by done. done.
Qed.

(** X9: a GC event of the engine reaches the callbacks of the group the
    registry names for the isolate, once each, in registration order, with
    the GC type and flags of the event and each callback's own data; the
    group and the process are left as they were.  If the registry has no
    entry for the isolate or names another group, none of this group's
    callbacks is called.  A callback registered since is called last; a pair
    that was unregistered is not called any more. *)
Theorem gc_event_fans_out (isolate : nat) (gctype flags : Z) (w : World) :
  let deliver w' :=
    gc_deliveries (events (StaticGCPrologueCallback isolate gctype flags w')) in
  let entry item := (gc_cb item, gctype, flags, gc_data item) in
  outcome (StaticGCPrologueCallback isolate gctype flags w) = Ret tt ∧
  world (StaticGCPrologueCallback isolate gctype flags w) = w ∧
  (s_isolate_map (proc w) !! isolate = Some (self w) →
     deliver w = entry <$> m_gc_callbacks (this w) ∧
     (∀ addr cb data,
        deliver (world (RegisterGCCallback addr cb data w)) =
          deliver w ++ [(cb, gctype, flags, data)])) ∧
  (s_isolate_map (proc w) !! isolate ≠ Some (self w) → deliver w = []) ∧
  (∀ cb data,
     (cb, gctype, flags, data) ∉ deliver (world (UnregisterGCCallback cb data w))).
Proof.
  intros deliver entry. subst deliver entry. cbn beta.
  split; [by rewrite StaticGCPrologueCallback_run |].
  split; [by rewrite StaticGCPrologueCallback_run |].
  split; [| split].
  - intros Hreg. rewrite !StaticGCPrologueCallback_deliveries.
    rewrite decide_True by done. split; [done |].
    intros addr cb data. rewrite StaticGCPrologueCallback_deliveries.
    unfold RegisterGCCallback, upd_this, world; cbn [fst snd proc self this].
    rewrite decide_True by done. cbn. by rewrite fmap_app.
  - intros Hreg. rewrite StaticGCPrologueCallback_deliveries.
    by rewrite decide_False.
  - intros cb data. rewrite StaticGCPrologueCallback_deliveries.
    rewrite UnregisterGCCallback_run. unfold world; cbn [fst snd].
    case_decide; [| apply not_elem_of_nil].
    intros Hin. apply list_elem_of_fmap in Hin as (item & Heq & Hin).
    cbn [this with_gc_callbacks m_gc_callbacks set_m_gc_callbacks] in Hin.
    pose proof (unregister_fold_no_match cb data (m_gc_callbacks (this w))) as Hno.
    rewrite Forall_forall in Hno. apply (Hno item Hin).
    injection Heq as -> ->. by split.
Qed.

(** X10: a disposed group is cut off from GC events through the registry.
    After [Dispose] has returned for a live group, a GC event for the
    group's isolate takes and releases the registry mutex and calls nothing,
    although [Dispose] leaves the list of registered callbacks as it was. *)
Theorem disposed_group_gets_no_gc (gctype flags : Z) (w : World) :
  m_isDefunct (this w) = false →
  outcome (Dispose w) = Ret tt →
  StaticGCPrologueCallback (m_isolate (this w)) gctype flags (world (Dispose w)) =
    (Ret tt, world (Dispose w), [EvLock s_mutex; EvUnlock s_mutex]) ∧
  m_gc_callbacks (this (world (Dispose w))) = m_gc_callbacks (this w) ∧
  EvRemoveGCPrologueCallback (m_isolate (this w)) ∈ events (Dispose w).
Proof.
  intros Hlive Hret.
  destruct (Dispose_run w Hlive) as (Hev & Ho & _ & Hthis & _ & Hmap).
  rewrite Ho in Hret. specialize (Hmap Hret).
  split; [| split].
  - rewrite StaticGCPrologueCallback_run, Hmap, lookup_delete_eq. done.
  - rewrite Hthis.
    destruct (FreeZombies_cases (with_this torn_down w))
      as [(mid & Hfz & _) | (mid & Hfz & _)]; rewrite Hfz in Hret |- *; done.
  - rewrite Hev. apply elem_of_app. left. unfold dispose_head.
    apply elem_of_app. right. apply elem_of_app. left. by left.
Qed.

(** ** A group from construction to disposal *)

Lemma seq_ret (m k : M unit) w :
  outcome (m w) = Ret tt →
  (m;; k) w =
    (outcome (k (world (m w))), world (k (world (m w))),
     events (m w) ++ events (k (world (m w)))).
Proof.
  unfold mbind, M_bind, outcome, world, events.
  destruct (m w) as [[o w1] t1]; cbn [fst snd]. intros ->.
  by destruct (k w1) as [[o2 w2] t2].
Qed.

Lemma seq_ret_parts (m k : M unit) w :
  outcome (m w) = Ret tt →
  outcome ((m;; k) w) = outcome (k (world (m w))) ∧
  world ((m;; k) w) = world (k (world (m w))) ∧
  events ((m;; k) w) = events (m w) ++ events (k (world (m w))).
Proof. intros Ho. by rewrite (seq_ret m k w Ho). Qed.

Lemma ContextGroup_ctor_snapshot_world snapshot size iso tid w :
  world (ContextGroup_ctor_snapshot snapshot size iso tid w) =
    {| proc := set_s_isolate_map (<[iso := self w]> (s_isolate_map (proc w)))
                 (proc (world (init_v8 w)));
       self := self w;
       this := construct iso true None tid (mkStartupData snapshot size)
                 (has_startup_data (mkStartupData snapshot size)) |}.
Proof.
  unfold ContextGroup_ctor_snapshot, mbind, M_bind.
  destruct (decide (s_init_count (proc w) = 0)) as [H0 | Hne].
  - rewrite (init_v8_first w H0). by destruct snapshot.
  - rewrite (init_v8_later w Hne). by destruct snapshot.
Qed.

Lemma init_v8_world w :
  s_init_count (proc (world (init_v8 w))) = wrap_int (s_init_count (proc w) + 1) ∧
  s_isolate_map (proc (world (init_v8 w))) = s_isolate_map (proc w).
Proof.
  destruct (decide (s_init_count (proc w) = 0)) as [H0 | Hne].
  - rewrite (init_v8_first w H0). unfold world; cbn. by rewrite H0.
  - by rewrite (init_v8_later w Hne).
Qed.

Lemma FreeZombies_no_zombies w :
  m_value_zombies (this w) = [] → m_context_zombies (this w) = [] →
  FreeZombies w =
    (Ret tt, zombies_cleared w, [EvLock m_zombie_mutex; EvUnlock m_zombie_mutex]).
Proof.
  intros Hv Hc. rewrite FreeZombies_defunct by (rewrite Hc; constructor).
  by rewrite Hv, Hc.
Qed.

(** The run of [Dispose] on a live group that has no managed object and no
    zombie. *)
Lemma Dispose_fresh w :
  m_isDefunct (this w) = false →
  m_managedValues (this w) = [] → m_managedContexts (this w) = [] →
  m_value_zombies (this w) = [] → m_context_zombies (this w) = [] →
  outcome (Dispose w) = Ret tt ∧
  events (Dispose w) =
    [EvClearRunnables; EvRemoveGCPrologueCallback (m_isolate (this w)); EvSetDefunct;
     EvLock m_zombie_mutex; EvUnlock m_zombie_mutex] ++
    dispose_tail (proc w) (this w) ∧
  s_isolate_map (proc (world (Dispose w))) =
    delete (m_isolate (this w)) (s_isolate_map (proc w)) ∧
  s_init_count (proc (world (Dispose w))) = s_init_count (proc w) ∧
  m_isDefunct (this (world (Dispose w))) = true.
Proof.
  intros Hlive Hmv Hmc Hzv Hzc.
  destruct (Dispose_run w Hlive) as (Hev & Ho & _ & Hthis & Hcount & Hmap).
  rewrite (FreeZombies_no_zombies (with_this torn_down w)) in * by done.
  unfold outcome, world, events in *; cbn [fst snd] in *.
  split; [done |]. split.
  { rewrite Hev. unfold dispose_head. rewrite Hmv, Hmc. reflexivity. }
  split; [by apply Hmap |]. split; [done |]. by rewrite Hthis.
Qed.

Lemma owning_cycle_run snapshot size iso tid w :
  let r := (ContextGroup_ctor_snapshot snapshot size iso tid;; Dispose) w in
  let blob := has_startup_data (mkStartupData snapshot size) in
  outcome r = Ret tt ∧
  events r =
    events (init_v8 w) ++
    [EvIsolateNew iso blob; EvAddGCPrologueCallback iso; EvSetMicrotasksPolicy iso;
     EvClearRunnables; EvRemoveGCPrologueCallback iso; EvSetDefunct;
     EvLock m_zombie_mutex; EvUnlock m_zombie_mutex;
     EvLock s_mutex; EvRegistryErase iso; EvUnlock s_mutex; EvIsolateDispose iso] ++
    (if blob then [EvDeleteStartupData] else []) ∧
  world r = world (Dispose (world (ContextGroup_ctor_snapshot snapshot size iso tid w))).
Proof.
  intros r blob. subst r blob.
  destruct (ContextGroup_ctor_snapshot_events snapshot size iso tid w) as [Hco Hce].
  pose proof (ContextGroup_ctor_snapshot_world snapshot size iso tid w) as Hcw.
  destruct (seq_ret_parts _ Dispose _ Hco) as (-> & -> & ->).
  set (w1 := world (ContextGroup_ctor_snapshot snapshot size iso tid w)) in *.
  destruct (Dispose_fresh w1) as (Ho & Hev & _);
    try (rewrite Hcw; reflexivity).
  split; [done |]. split; [| done].
  rewrite Hce, Hev, Hcw. unfold dispose_tail.
  cbn [proc this m_isolate m_manage_isolate m_startup_data construct
       s_isolate_map set_s_isolate_map].
  rewrite decide_True by (rewrite lookup_insert_eq; by eexists).
  destruct snapshot; cbn [has_startup_data sd_data raw_size];
    by rewrite <- !app_assoc.
Qed.

Lemma init_v8_events_cases w :
  events (init_v8 w) =
    [EvLock s_mutex; EvCreateDefaultPlatform 4; EvInitializePlatform;
     EvV8Initialize; EvUnlock s_mutex] ∨
  events (init_v8 w) = [EvLock s_mutex; EvUnlock s_mutex].
Proof.
  destruct (decide (s_init_count (proc w) = 0)) as [H0 | Hne].
  - left. by rewrite (init_v8_first w H0).
  - right. by rewrite (init_v8_later w Hne).
Qed.

(** X11: a group that creates its isolate, followed from its constructor to
    the end of [Dispose].  The pair always returns.  The group registers its
    isolate and [Dispose] erases exactly that entry; the isolate is created
    once and disposed of once, after the registry entry is gone; the
    use-count of the runtime is one higher afterwards, and the runtime is
    never shut down.  The snapshot buffer is deleted exactly when it was
    handed to the engine as a snapshot.  The constructor without arguments
    behaves as the snapshot constructor given a null buffer. *)
Theorem owning_group_lifecycle (snapshot : option (list Byte.byte)) (size : Z)
    (iso tid : nat) (w : World) :
  let r := (ContextGroup_ctor_snapshot snapshot size iso tid;; Dispose) w in
  let blob := has_startup_data (mkStartupData snapshot size) in
  outcome r = Ret tt ∧
  (∃ pre post,
     events r = pre ++ [EvIsolateNew iso blob] ++ post ∧
     (∀ i b, EvIsolateNew i b ∉ pre ++ post) ∧
     (∀ i, EvIsolateDispose i ∉ pre) ∧
     ∃ mid, post = mid ++ [EvRegistryErase iso; EvUnlock s_mutex; EvIsolateDispose iso] ++
                   (if blob then [EvDeleteStartupData] else []) ∧
            (∀ i, EvIsolateDispose i ∉ mid) ∧ EvDeleteStartupData ∉ pre ++ mid) ∧
  s_isolate_map (proc (world r)) = delete iso (s_isolate_map (proc w)) ∧
  s_init_count (proc (world r)) = wrap_int (s_init_count (proc w) + 1) ∧
  m_isDefunct (this (world r)) = true ∧
  (EvV8Dispose ∉ events r) ∧
  ContextGroup_ctor iso tid = ContextGroup_ctor_snapshot None 0 iso tid.
Proof.
  intros r blob. subst r blob.
  destruct (owning_cycle_run snapshot size iso tid w) as (Ho & Hev & Hw).
  pose proof (ContextGroup_ctor_snapshot_world snapshot size iso tid w) as Hcw.
  destruct (init_v8_world w) as [Hcount Hmap].
  rewrite Hw, Hev.
  set (w1 := world (ContextGroup_ctor_snapshot snapshot size iso tid w)) in *.
  destruct (Dispose_fresh w1) as (_ & _ & Hreg & Hcnt & Hdef);
    try (rewrite Hcw; reflexivity).
  split; [done |]. split.
  { exists (events (init_v8 w)).
    exists ([EvAddGCPrologueCallback iso; EvSetMicrotasksPolicy iso;
             EvClearRunnables; EvRemoveGCPrologueCallback iso; EvSetDefunct;
             EvLock m_zombie_mutex; EvUnlock m_zombie_mutex;
             EvLock s_mutex; EvRegistryErase iso; EvUnlock s_mutex;
             EvIsolateDispose iso] ++
            (if has_startup_data (mkStartupData snapshot size)
             then [EvDeleteStartupData] else [])).
    split; [reflexivity |].
    split; [| split].
    - intros i b. rewrite !not_elem_of_app. split; [| split].
      + destruct (init_v8_events_cases w) as [-> | ->]; not_in_list.
      + not_in_list.
      + destruct (has_startup_data _); not_in_list.
    - intros i. destruct (init_v8_events_cases w) as [-> | ->]; not_in_list.
    - exists [EvAddGCPrologueCallback iso; EvSetMicrotasksPolicy iso;
              EvClearRunnables; EvRemoveGCPrologueCallback iso; EvSetDefunct;
              EvLock m_zombie_mutex; EvUnlock m_zombie_mutex; EvLock s_mutex].
      split; [reflexivity |]. split; [intros i; not_in_list |].
      rewrite not_elem_of_app. split; [| not_in_list].
      destruct (init_v8_events_cases w) as [-> | ->]; not_in_list. }
  split.
  { rewrite Hreg, Hcw. cbn [proc this m_isolate construct s_isolate_map set_s_isolate_map].
    by rewrite delete_insert_eq. }
  split.
  { rewrite Hcnt, Hcw. cbn [proc s_init_count set_s_isolate_map]. exact Hcount. }
  split; [done |]. split; [| reflexivity].
  rewrite !not_elem_of_app. split; [| split].
  - destruct (init_v8_events_cases w) as [-> | ->]; not_in_list.
  - not_in_list.
  - destruct (has_startup_data _); not_in_list.
Qed.

(** X12: a group that adopts an isolate, followed from its constructor to the
    end of [Dispose].  The pair always returns, and the isolate is neither
    created nor disposed of.  The registry entry for the isolate is replaced
    by this group and then erased, so an entry another group had for the
    same isolate is gone afterwards.  The use-count of the runtime is not
    changed, and the runtime is shut down exactly when that count is zero. *)
Theorem adopting_group_lifecycle (isolate tid : nat) (uv_loop : option nat) (w : World) :
  let r := (ContextGroup_ctor_isolate isolate tid uv_loop;; Dispose) w in
  outcome r = Ret tt ∧
  events r =
    [EvLock s_mutex; EvUnlock s_mutex; EvAddGCPrologueCallback isolate;
     EvClearRunnables; EvRemoveGCPrologueCallback isolate; EvSetDefunct;
     EvLock m_zombie_mutex; EvUnlock m_zombie_mutex;
     EvLock s_mutex; EvRegistryErase isolate; EvUnlock s_mutex] ++
    dispose_v8_events (s_init_count (proc w)) ∧
  s_isolate_map (proc (world r)) = delete isolate (s_isolate_map (proc w)) ∧
  s_isolate_map (proc (world r)) !! isolate = None ∧
  s_init_count (proc (world r)) = s_init_count (proc w) ∧
  m_isDefunct (this (world r)) = true ∧
  (EvV8Dispose ∈ events r ↔ s_init_count (proc w) = 0).
Proof.
  intros r. subst r.
  assert (Hc : ContextGroup_ctor_isolate isolate tid uv_loop w =
            (Ret tt,
             {| proc := set_s_isolate_map (<[isolate := self w]> (s_isolate_map (proc w)))
                          (proc w);
                self := self w;
                this := construct isolate false uv_loop tid (mkStartupData None 0) false |},
             [EvLock s_mutex; EvUnlock s_mutex; EvAddGCPrologueCallback isolate]))
    by reflexivity.
  destruct (seq_ret_parts (ContextGroup_ctor_isolate isolate tid uv_loop) Dispose w)
    as (-> & -> & ->); [by rewrite Hc |].
  rewrite Hc. change (world (?o, ?x, ?t)) with x. change (events (?o, ?x, ?t)) with t.
  match goal with |- context [Dispose ?x] => set (w1 := x) end.
  destruct (Dispose_fresh w1) as (Ho & Hev & Hreg & Hcnt & Hdef); try reflexivity.
  assert (Hev' : events (Dispose w1) =
            [EvClearRunnables; EvRemoveGCPrologueCallback isolate; EvSetDefunct;
             EvLock m_zombie_mutex; EvUnlock m_zombie_mutex;
             EvLock s_mutex; EvRegistryErase isolate; EvUnlock s_mutex] ++
            dispose_v8_events (s_init_count (proc w))).
  { rewrite Hev. unfold dispose_tail. subst w1.
    cbn [proc this m_isolate m_manage_isolate m_startup_data construct
         s_isolate_map set_s_isolate_map s_init_count has_startup_data sd_data].
    rewrite decide_True; [by rewrite app_nil_r |].
    rewrite lookup_insert_eq. by eexists. }
  assert (Hmap : s_isolate_map (proc (world (Dispose w1)))
                 = delete isolate (s_isolate_map (proc w))).
  { rewrite Hreg. subst w1.
    cbn [proc this m_isolate construct s_isolate_map set_s_isolate_map].
    by rewrite delete_insert_eq. }
  split; [done |]. split; [by rewrite Hev' |]. split; [done |].
  split; [by rewrite Hmap, lookup_delete_eq |].
  split; [by rewrite Hcnt |]. split; [done |].
  rewrite Hev'. unfold dispose_v8_events.
  rewrite !elem_of_app.
  destruct (decide (s_init_count (proc w) = 0)) as [H0 | Hne].
  - split; [done |]. intros _. right. right. apply elem_of_cons. right. by left.
  - split; [| done]. intros [Hin | [Hin | Hin]]; exfalso; revert Hin; not_in_list.
Qed.

(** ** The snapshot buffer *)

Lemma count_event_init_v8 e w :
  e ∈ [EvDeleteBuffer; EvDeleteStartupData; EvFclose] →
  count_event e (events (init_v8 w)) = 0%nat.
Proof.
  intros He. repeat (apply elem_of_cons in He as [-> | He]);
    try (by apply elem_of_nil in He);
    destruct (init_v8_events_cases w) as [-> | ->]; reflexivity.
Qed.

(** X13: what becomes of the buffer [New] reads the snapshot into, followed
    through [New] and the [Dispose] of the group it built.  When the file
    cannot be opened nothing is allocated, closed or deleted.  When the
    buffer can be allocated the pair returns and the file is closed exactly
    once: a buffer that was not filled is deleted by [New] itself and never
    again; a buffer that was filled is deleted once, by [Dispose], unless
    the size passed as [int] is zero, and then nobody deletes it.  When the
    buffer cannot be allocated, [New] is left by the exception right after
    the file was opened: no group is built, and the file is never closed. *)
Theorem snapshot_buffer_release (heap : Z → bool) (fs : string → option File)
    (snapshotFile : string) (iso tid : nat) (w : World) :
  let r := (New heap fs snapshotFile iso tid;; Dispose) w in
  let closes := count_event EvFclose (events r) in
  let drops := count_event EvDeleteBuffer (events r) in
  let frees := count_event EvDeleteStartupData (events r) in
  (fs snapshotFile = None →
     outcome r = Ret tt ∧ closes = 0%nat ∧ drops = 0%nat ∧ frees = 0%nat) ∧
  (∀ fp, fs snapshotFile = Some fp →
     allocates heap (ftell_end fp) = true →
     Z.of_nat (length (fread fp (ftell_end fp))) ≠ ftell_end fp →
     outcome r = Ret tt ∧ closes = 1%nat ∧ drops = 1%nat ∧ frees = 0%nat) ∧
  (∀ fp, fs snapshotFile = Some fp →
     allocates heap (ftell_end fp) = true →
     Z.of_nat (length (fread fp (ftell_end fp))) = ftell_end fp →
     outcome r = Ret tt ∧ closes = 1%nat ∧ drops = 0%nat ∧
     frees = if wrap_int (ftell_end fp) =? 0 then 0%nat else 1%nat) ∧
  (∀ fp, fs snapshotFile = Some fp →
     allocates heap (ftell_end fp) = false →
     r = (Abort, w, [EvFopen true; EvBadAlloc (ftell_end fp)]) ∧
     closes = 0%nat ∧ drops = 0%nat ∧ frees = 0%nat).
Proof.
  intros r closes drops frees. subst closes drops frees r.
  destruct (New_run heap fs snapshotFile iso tid w)
    as [(pre & sn & sz & Hnew & Hcases) | (fp & Hfs & Hno & Hnew)].
  - destruct (ContextGroup_ctor_snapshot_events sn sz iso tid w) as [Hco _].
    destruct (owning_cycle_run sn sz iso tid w) as (Ho & Hev & Hw).
    destruct (seq_ret_parts _ Dispose _ Hco) as (Ho2 & _ & Hev2).
    destruct (seq_ret_parts (New heap fs snapshotFile iso tid) Dispose w)
      as (-> & _ & ->); [by rewrite Hnew |].
    rewrite Hnew. change (world (?o, ?x, ?t)) with x. change (events (?o, ?x, ?t)) with t.
    rewrite <- app_assoc, <- Hev2, Hev. rewrite <- Ho2, Ho.
    assert (Hcount : ∀ e, e ∈ [EvDeleteBuffer; EvDeleteStartupData; EvFclose] →
              count_event e
                (pre ++ events (init_v8 w) ++
                 [EvIsolateNew iso (has_startup_data (mkStartupData sn sz));
                  EvAddGCPrologueCallback iso; EvSetMicrotasksPolicy iso;
                  EvClearRunnables; EvRemoveGCPrologueCallback iso; EvSetDefunct;
                  EvLock m_zombie_mutex; EvUnlock m_zombie_mutex;
                  EvLock s_mutex; EvRegistryErase iso; EvUnlock s_mutex;
                  EvIsolateDispose iso] ++
                 (if has_startup_data (mkStartupData sn sz)
                  then [EvDeleteStartupData] else [])) =
              (count_event e pre +
               count_event e (if has_startup_data (mkStartupData sn sz)
                              then [EvDeleteStartupData] else []))%nat).
    { intros e He. rewrite !count_event_app, (count_event_init_v8 e w He).
      repeat (apply elem_of_cons in He as [-> | He]);
        try (by apply elem_of_nil in He);
        rewrite !count_event_cons, count_event_nil;
        repeat case_decide; try discriminate; lia. }
    rewrite !Hcount by (rewrite !elem_of_cons; tauto).
    destruct Hcases as [(Hfs & -> & -> & ->) |
                        [(fp & Hfs & Hyes & Hshort & -> & -> & ->) |
                         (fp & Hfs & Hyes & Hfull & -> & -> & ->)]];
      rewrite Hfs; cbn [has_startup_data sd_data raw_size].
    + split; [done |].
      split; [intros fp' Hfp'; discriminate |].
      split; intros fp' Hfp'; discriminate.
    + split; [done |].
      split; [intros fp' Hfp' _ _; done |].
      split; intros fp' Hfp' Hyes'; injection Hfp' as <-; [done | congruence].
    + split; [done |].
      split; [intros fp' Hfp' _ Hshort; injection Hfp' as <-; done |].
      split; intros fp' Hfp' Hyes'; injection Hfp' as <-; [| congruence].
      intros _. by destruct (wrap_int (ftell_end fp) =? 0).
  - assert (Hrun : (New heap fs snapshotFile iso tid;; Dispose) w =
                   (Abort, w, [EvFopen true; EvBadAlloc (ftell_end fp)])).
    { unfold mbind, M_bind. by rewrite Hnew. }
    rewrite Hrun, Hfs.
    split; [done |].
    split; [intros fp' Hfp' Hyes; injection Hfp' as <-; congruence |].
    split; [intros fp' Hfp' Hyes; injection Hfp' as <-; congruence |].
    intros fp' Hfp' _. injection Hfp' as <-. done.
Qed.

(** ** Managed objects *)







(** ** Pending work and the wake handle *)

Lemma no_work_inv g :
  m_runnables g = [] → m_value_zombies g = [] → m_context_zombies g = [] →
  wake_inv g.
Proof. intros Hq Hv Hc [? | [? | ?]]; congruence. Qed.

Lemma handle_inv g : is_Some (m_async_handle g) → wake_inv g.
Proof. by intros Hh _. Qed.

Lemma drain_zero r rest w :
  m_runnables (this w) = r :: rest → drain 0 w = (OutOfFuel, w, []).
Proof. intros Hq. unfold drain, mbind, M_bind, get_this. by rewrite Hq. Qed.

Lemma with_this_no_runnables w :
  m_runnables (this w) = [] → with_this (set_m_runnables []) w = w.
Proof. destruct w as [p s []]. cbn. by intros ->. Qed.

Lemma drain_ret_world fuel : ∀ w,
  outcome (drain fuel w) = Ret tt →
  world (drain fuel w) = with_this (set_m_runnables []) w.
Proof.
  induction fuel as [| fuel IH]; intros w.
  - destruct (m_runnables (this w)) as [| r rest] eqn:Hq.
    + rewrite (drain_empty _ _ Hq). intros _. symmetry. by apply with_this_no_runnables.
    + by rewrite (drain_zero r rest w Hq).
  - destruct (m_runnables (this w)) as [| r rest] eqn:Hq.
    + rewrite (drain_empty _ _ Hq). intros _. symmetry. by apply with_this_no_runnables.
    + rewrite (drain_step fuel r rest w Hq).
      destruct (run_body_cases r w) as
        [(body & Hrun & _) | (o & evs & Hrun & Ho & _)]; rewrite Hrun.
      * assert (Hq1 : m_runnables (this (push_back_all (arrivals r) w))
                      = r :: rest ++ arrivals r).
        { cbn. by rewrite Hq. }
        rewrite Hq1.
        set (w2 := with_this (set_m_runnables (rest ++ arrivals r))
                     (push_back_all (arrivals r) w)).
        specialize (IH w2).
        destruct (drain fuel w2) as [[o3 w3] t3].
        unfold outcome, world in *; cbn [fst snd] in *.
        intros Ho3. by rewrite (IH Ho3).
      * by destruct Ho as [-> | ->].
Qed.

Lemma callback_ret_world fuel h w :
  outcome (callback fuel h w) = Ret tt →
  this (world (callback fuel h w)) =
    set_m_async_handle None
      (set_m_runnables [] (set_m_context_zombies [] (set_m_value_zombies [] (this w)))).
Proof.
  rewrite callback_unfold.
  destruct (FreeZombies_cases w) as [(mid & -> & _) | (mid & -> & _)]; [| done].
  pose proof (drain_ret_world fuel (zombies_cleared w)) as Hd.
  destruct (drain fuel (zombies_cleared w)) as [[od wd] td].
  unfold outcome, world in *; cbn [fst snd] in *.
  destruct od as [[] | | |]; try done.
  intros _. by rewrite (Hd eq_refl).
Qed.

Lemma Dispose_ret_this w :
  m_isDefunct (this w) = false → outcome (Dispose w) = Ret tt →
  this (world (Dispose w)) =
    set_m_context_zombies [] (set_m_value_zombies [] (torn_down (this w))).
Proof.
  intros Hlive. destruct (Dispose_run w Hlive) as (_ & -> & _ & -> & _).
  destruct (FreeZombies_cases (with_this torn_down w))
    as [(mid & -> & _) | (mid & -> & _)]; done.
Qed.

(** X15: between operations, pending work has a wake-up under way.  The
    constructors, and [New] when it returns, build a group with no pending
    work ([New] left by an exception leaves the storage as it was).  From
    then on, when the
    operations of the group run one after the other, each one that returns
    leaves the group in a state where a queued runnable or a marked zombie
    comes with a wake handle: scheduling and marking set the handle under
    the queue mutex, and the drain clears the handle only with the queue and
    the zombie lists empty. *)
Theorem pending_work_has_wake :
  (∀ snapshot size iso tid w,
     wake_inv (this (world (ContextGroup_ctor_snapshot snapshot size iso tid w)))) ∧
  (∀ iso tid w, wake_inv (this (world (ContextGroup_ctor iso tid w)))) ∧
  (∀ isolate tid uv_loop w,
     wake_inv (this (world (ContextGroup_ctor_isolate isolate tid uv_loop w)))) ∧
  (∀ heap fs snapshotFile iso tid w,
     outcome (New heap fs snapshotFile iso tid w) = Ret tt ∨ wake_inv (this w) →
     wake_inv (this (world (New heap fs snapshotFile iso tid w)))) ∧
  (∀ r h w, wake_inv (this (world (schedule_java_runnable r h w)))) ∧
  (∀ obj_addr obj h w,
     wake_inv (this w) → wake_inv (this (world (MarkZombie_value obj_addr obj h w)))) ∧
  (∀ obj_addr obj h w,
     wake_inv (this w) → wake_inv (this (world (MarkZombie_context obj_addr obj h w)))) ∧
  (∀ fuel h w,
     outcome (callback fuel h w) = Ret tt →
     wake_inv (this (world (callback fuel h w)))) ∧
  (∀ w, wake_inv (this w) → outcome (Dispose w) = Ret tt →
        wake_inv (this (world (Dispose w)))) ∧
  (∀ obj w, wake_inv (this w) →
        wake_inv (this (world (Manage_value obj w))) ∧
        wake_inv (this (world (Manage_context obj w)))) ∧
  (∀ addr cb data w, wake_inv (this w) →
        wake_inv (this (world (RegisterGCCallback addr cb data w))) ∧
        wake_inv (this (world (UnregisterGCCallback cb data w)))) ∧
  (∀ isolate gctype flags w, wake_inv (this w) →
        wake_inv (this (world (StaticGCPrologueCallback isolate gctype flags w)))).
Proof.
  assert (Hsnap : ∀ snapshot size iso tid w,
     wake_inv (this (world (ContextGroup_ctor_snapshot snapshot size iso tid w)))).
  { intros. rewrite ContextGroup_ctor_snapshot_world. by apply no_work_inv. }
  split; [exact Hsnap |]. split; [intros; apply (Hsnap None 0) |].
  split; [intros; by apply no_work_inv |].
  split.
  { intros heap fs snapshotFile iso tid w Hor.
    destruct (New_run heap fs snapshotFile iso tid w)
      as [(pre & sn & sz & Hnew & _) | (fp & _ & _ & Hnew)];
      rewrite Hnew in Hor |- *; [apply Hsnap |].
    destruct Hor as [Hret | Hinv]; [discriminate | exact Hinv]. }
  split.
  { intros r h w. rewrite schedule_java_runnable_run. apply handle_inv. by eexists. }
  split.
  { intros obj_addr obj h w Hinv.
    destruct (decide (obj_addr = self w)) as [-> | Hne].
    - by destruct (MarkZombie_self_run obj (mkJSContext 0 false) h w) as [-> _].
    - rewrite (MarkZombie_value_run _ obj h _ Hne). apply handle_inv. by eexists. }
  split.
  { intros obj_addr obj h w Hinv.
    destruct (decide (obj_addr = self w)) as [-> | Hne].
    - by destruct (MarkZombie_self_run (mkJSValue 0) obj h w) as [_ ->].
    - rewrite (MarkZombie_context_run _ obj h _ Hne). apply handle_inv. by eexists. }
  split.
  { intros fuel h w Hret. rewrite (callback_ret_world _ _ _ Hret). by apply no_work_inv. }
  split.
  { intros w Hinv Hret. destruct (m_isDefunct (this w)) eqn:Hdef.
    - by rewrite (Dispose_defunct w Hdef).
    - rewrite (Dispose_ret_this w Hdef Hret). by apply no_work_inv. }
  split; [intros obj w Hinv; split; exact Hinv |].
  split.
  { intros addr cb data w Hinv. split; [exact Hinv |].
    rewrite UnregisterGCCallback_run. exact Hinv. }
  intros isolate gctype flags w Hinv. by rewrite StaticGCPrologueCallback_run.
Qed.

(** ** The blocking call *)

Lemma sync_lock_inv_init q pending : sync_lock_inv (sync_init q pending).
Proof. unfold sync_lock_inv, sync_init; cbn. by repeat split. Qed.

Lemma head_app_cons {A} (t : A) (q l : list A) :
  head q = Some t → head (q ++ l) = Some t.
Proof. by destruct q. Qed.

Lemma app_not_nil {A} (q l : list A) : q ≠ [] → q ++ l ≠ [].
Proof. by destruct q. Qed.

Lemma front_needed_app pc q l : front_needed pc q → front_needed pc (q ++ l).
Proof.
  destruct pc; cbn; try done;
    try (by apply head_app_cons); by apply app_not_nil.
Qed.

Lemma sync_lock_inv_step m s s' :
  sync_lock_inv s → sync_step m s = Some s' → sync_lock_inv s'.
Proof.
  intros (Hown & Hcal & Hfront) Hstep.
  destruct s as [hd sg qu wk cp op bs bf]. cbn in *.
  destruct m; cbn in Hstep.
  - unfold sync_ in Hstep; cbn in Hstep.
    destruct cp; try destruct hd as [[] |]; try destruct sg; simplify_eq;
      unfold sync_lock_inv; cbn in *;
      (split; [| split]); try (by apply front_needed_app); try done;
      try (destruct (owner_holds op); intuition congruence).
  - unfold callback_thread in Hstep; cbn in Hstep.
    destruct op as [| | | [| n] | | | | | |]; try destruct hd as [[] |];
      try destruct wk; try destruct qu as [| t qu]; simplify_eq;
      unfold sync_lock_inv; cbn in *;
      (split; [| split]); try done;
      try (destruct (caller_holds cp); intuition congruence);
      try (destruct cp; cbn in *; intuition congruence).
  - simplify_eq. unfold sync_lock_inv; cbn. split; [done |]. split; [| done].
    destruct cp; cbn in *; intuition congruence.
  - unfold other_enqueue in Hstep; cbn in Hstep. destruct hd; simplify_eq.
    unfold sync_lock_inv; cbn. split; [done |]. split; [done |].
    by apply front_needed_app.
Qed.

Lemma sync_lock_inv_run ms : ∀ s, sync_lock_inv s → sync_lock_inv (sync_run ms s).
Proof.
  induction ms as [| m ms IH]; intros s Hs; [done |].
  cbn [sync_run foldl]. apply IH.
  destruct (sync_step m s) as [s' |] eqn:Hstep; [| done].
  by apply (sync_lock_inv_step m s).
Qed.

(** X16: under every schedule of the two threads, of spurious wake-ups and of
    other threads scheduling tasks, the queue mutex is held by the thread in
    [sync_] exactly from its lock to its wait or unlock, and by the draining
    thread exactly while it looks at the queue, erases its front or sets
    [signaled]; so never by both, and not by the draining thread while the
    closure body runs.  The front of the queue is the runnable the draining
    thread is calling, whatever was pushed behind it meanwhile, and the queue
    is not empty when its front is erased. *)
Theorem sync_mutex_and_queue_discipline (q : list nat) (pending : bool)
    (ms : list move) :
  let s := sync_run ms (sync_init q pending) in
  (holder s = Some Owner ↔ owner_holds (opc s) = true) ∧
  (holder s = Some Caller ↔ caller_holds (cpc s) = true) ∧
  ¬ (owner_holds (opc s) = true ∧ caller_holds (cpc s) = true) ∧
  (∀ t, opc s = O_call t → head (queue s) = Some t ∧ holder s ≠ Some Owner) ∧
  (opc s = O_in_body → head (queue s) = Some SyncTask ∧ holder s ≠ Some Owner) ∧
  (opc s = O_erase → queue s ≠ [] ∧ holder s = Some Owner).
Proof.
  intros s.
  destruct (sync_lock_inv_run ms _ (sync_lock_inv_init q pending))
    as (Hown & Hcal & Hfront).
  fold s in Hown, Hcal, Hfront.
  split; [done |]. split; [done |]. split; [| split; [| split]].
  - intros [Ho Hc]. apply Hown in Ho. apply Hcal in Hc. congruence.
  - intros t Ht. rewrite Ht in Hfront, Hown. cbn in *. split; [done |].
    intros Hh. apply Hown in Hh. discriminate.
  - intros Ht. rewrite Ht in Hfront, Hown. cbn in *. split; [done |].
    intros Hh. apply Hown in Hh. discriminate.
  - intros Ht. rewrite Ht in Hfront, Hown. cbn in *. split; [done |].
    by apply Hown.
Qed.

Lemma sync_run_app ms1 ms2 s :
  sync_run (ms1 ++ ms2) s = sync_run ms2 (sync_run ms1 s).
Proof. unfold sync_run. apply foldl_app. Qed.

Lemma owner_rounds_run (q : list nat) : ∀ rest wk,
  sync_run (owner_rounds (length q))
    (mkSync (Some Owner) false ((OtherTask <$> q) ++ rest) wk C_blocked O_pick false false) =
  mkSync (Some Owner) false rest wk C_blocked O_pick false false.
Proof.
  induction q as [| n q IH]; intros rest wk; [done |].
  cbn [length owner_rounds]. rewrite sync_run_app. cbn. apply IH.
Qed.

(** X17: the blocking call can return.  Whatever tasks are queued when
    [sync_] is called, and whether or not a wake-up is already under way,
    there is a schedule of the two threads under which the draining thread
    runs the queued tasks in order, then the closure, and [sync_] returns:
    with the body finished, [signaled] set, the mutex free, and the closure's
    runnable still at the front of the queue for the draining thread to
    erase. *)
Theorem sync_can_return (q : list nat) (pending : bool) :
  sync_run (returning_schedule (length q)) (sync_init q pending) =
    mkSync None true [SyncTask] true C_returned O_relock true true.
Proof.
  unfold returning_schedule. rewrite !sync_run_app.
  assert (H1 : sync_run [MOwner; MOwner]
                 (sync_run [MCaller; MCaller; MCaller] (sync_init q pending)) =
               mkSync (Some Owner) false ((OtherTask <$> q) ++ [SyncTask]) true
                 C_blocked O_pick false false) by reflexivity.
  rewrite H1, owner_rounds_run. reflexivity.
Qed.

(** ** A disposed group still takes tasks *)

(** X18: [Dispose] discards the tasks that are queued when it runs, but it
    does not close the queue: only [Dispose] itself looks at the defunct
    flag.  A Java runnable scheduled on a group after its [Dispose] has
    returned is queued on the defunct group.  [Dispose] leaves the wake
    handle as it was, so the scheduling call sends a wake-up exactly when no
    handle was set; when one was left set by the work [Dispose] discarded, no
    wake-up is sent and the handle stays.  Either way a handle is set
    afterwards, and the next drain runs the runnable first and returns,
    given that the runnable can be delivered. *)
Theorem disposed_group_still_runs_tasks (r : Runnable) (h h' fuel : nat) (w : World) :
  m_isDefunct (this w) = false →
  outcome (Dispose w) = Ret tt →
  c_runnable r = None →
  deliverable r = true →
  (weight r <= fuel)%nat →
  let s := schedule_java_runnable r h (world (Dispose w)) in
  let res := callback fuel h' (world s) in
  m_isDefunct (this (world s)) = true ∧
  m_runnables (this (world s)) = [r] ∧
  m_async_handle (this (world (Dispose w))) = m_async_handle (this w) ∧
  wakes_sent (events s) =
    match m_async_handle (this w) with Some _ => [] | None => [h] end ∧
  m_async_handle (this (world s)) = Some (default h (m_async_handle (this w))) ∧
  outcome res = Ret tt ∧
  ∃ rest, executed (events res) = rid r :: rest.
Proof.
  intros Hlive Hret _ Hdel Hfuel s res. subst s res.
  pose proof (Dispose_ret_this w Hlive Hret) as Hthis.
  remember (world (Dispose w)) as w1 eqn:Hw1. clear Hw1.
  rewrite schedule_java_runnable_run.
  change (world (?o, ?x, ?t)) with x. change (events (?o, ?x, ?t)) with t.
  set (w2 := with_this _ w1).
  assert (Hq : m_runnables (this w2) = [r]) by (subst w2; cbn; by rewrite Hthis).
  assert (Hv : m_value_zombies (this w2) = []) by (subst w2; cbn; by rewrite Hthis).
  assert (Hc : m_context_zombies (this w2) = []) by (subst w2; cbn; by rewrite Hthis).
  split; [subst w2; cbn; by rewrite Hthis |]. split; [done |].
  split; [by rewrite Hthis |]. split.
  { rewrite !wakes_sent_app, wakes_sent_wake_events, Hthis. cbn.
    by destruct (m_async_handle (this w)). }
  split; [subst w2; cbn; by rewrite Hthis |].
  rewrite callback_unfold, (FreeZombies_no_zombies w2 Hv Hc).
  assert (Hq' : m_runnables (this (zombies_cleared w2)) = [r]) by done.
  assert (Hw : (weights (m_runnables (this (zombies_cleared w2))) <= fuel)%nat).
  { rewrite Hq'. cbn. lia. }
  destruct (drain_returns_iff fuel (zombies_cleared w2) Hw) as [Hiff _].
  pose proof (drain_spec (λ _, false) fuel (λ _, eq_refl) (λ _, eq_refl)
                (λ _, eq_refl) (zombies_cleared w2) Hw) as (_ & _ & _ & _ & Hspec).
  rewrite Hq' in Hiff.
  assert (Ho : outcome (drain fuel (zombies_cleared w2)) = Ret tt).
  { apply Hiff. by repeat constructor. }
  destruct (Hspec Ho) as (_ & Hex & _). rewrite Hq' in Hex.
  destruct (drain fuel (zombies_cleared w2)) as [[od wd] td].
  unfold outcome, events in *; cbn [fst snd] in *. subst od. cbn [fst snd].
  split; [done |].
  exists (enqueued td). rewrite !executed_app, Hex. cbn. by rewrite app_nil_r.
Qed.

(** * The wake and the construction from a file, in full *)

(** C1: a wake of the dispatch callback with enough fuel for the queue and
    its arrivals does not run out of fuel.  Its trace starts with the whole
    zombie pass, and no zombie is touched afterwards: every value zombie is
    released, and so is every context zombie unless the debug assertion ends
    the pass at a context that still runs.  The task bodies it executes are,
    in order, a prefix of the enqueue order (the queue found, then the
    arrivals in the order they were pushed); every body runs with the queue
    mutex released and every dequeue happens with it held again.  The wake
    returns exactly when the zombie pass returns and every task can be
    delivered, that is, when no assertion ends the process.  When it
    returns, every zombie has been released, every enqueued task has been
    executed exactly in enqueue order, the queue is empty, and the trace ends
    with closing the handle, clearing [m_async_handle] and releasing the
    mutex. *)
Theorem callback_drains_in_fifo_order (fuel h : nat) (w : World) :
  (weights (m_runnables (this w)) <= fuel)%nat →
  let r := callback fuel h w in
  let q := m_runnables (this w) in
  let zs := m_context_zombies (this w) in
  outcome r ≠ OutOfFuel ∧
  (∃ rest, events r = EvDeleteGroupData h :: events (FreeZombies w) ++ rest ∧
           Forall (λ e, is_zombie_event e = false) rest ∧
           executed (events (FreeZombies w)) = [] ∧
           (outcome (FreeZombies w) ≠ Ret tt → rest = [])) ∧
  value_resets (events r) = val_id <$> m_value_zombies (this w) ∧
  context_resets (events r) `prefix_of` (ctx_id <$> zs) ∧
  (DEBUG = false ∨ Forall (λ ctx, IsDefunct ctx = true) zs →
     outcome (FreeZombies w) = Ret tt ∧
     context_resets (events r) = ctx_id <$> zs) ∧
  executed (events r) `prefix_of` (rid <$> q) ++ enqueued (events r) ∧
  at_events is_task_body m_async_mutex false (events r) ∧
  at_events is_dequeue m_async_mutex true (events r) ∧
  (outcome r = Ret tt ↔
   outcome (FreeZombies w) = Ret tt ∧ Forall (λ t, deliverable t = true) q) ∧
  (outcome r = Ret tt →
     context_resets (events r) = ctx_id <$> zs ∧
     executed (events r) = (rid <$> q) ++ enqueued (events r) ∧
     (∃ pre, events r =
               pre ++ [EvUvClose h; EvClearAsyncHandle; EvUnlock m_async_mutex] ∧
             executed pre = executed (events r)) ∧
     m_runnables (this (world r)) = [] ∧
     m_async_handle (this (world r)) = None ∧
     m_value_zombies (this (world r)) = [] ∧
     m_context_zombies (this (world r)) = [] ∧
     held m_async_mutex (events r) = false).
Proof.
  intros Hfuel r q zs.
  pose proof (callback_run_spec fuel h w Hfuel) as Hspec. cbv zeta in Hspec.
  fold r q in Hspec. destruct Hspec as (Hof & Hz & Hpre & Hbody & Hdeq & Hret).
  destruct (callback_zombie_split fuel h w) as (rest & Hev & Hrest). fold r in Hev.
  destruct (FreeZombies_resets w) as (Hv & Hcp & Hcr). fold zs in Hcp, Hcr.
  assert (Hvr : value_resets (events r) = val_id <$> m_value_zombies (this w)).
  { rewrite Hev, !value_resets_app, Hv, (value_resets_not_zombie _ Hrest).
    cbn. by rewrite app_nil_r. }
  assert (Hcx : context_resets (events r) = context_resets (events (FreeZombies w))).
  { rewrite Hev, !context_resets_app, (context_resets_not_zombie _ Hrest).
    cbn. by rewrite app_nil_r. }
  assert (Hiff : outcome r = Ret tt ↔
            outcome (FreeZombies w) = Ret tt ∧ Forall (λ t, deliverable t = true) q).
  { subst r q. rewrite callback_unfold.
    destruct (FreeZombies_cases w) as [(mid & Hfz & _) | (mid & Hfz & _)]; rewrite Hfz.
    - assert (Hfuel' : (weights (m_runnables (this (zombies_cleared w))) <= fuel)%nat)
        by exact Hfuel.
      destruct (drain_returns_iff fuel (zombies_cleared w) Hfuel') as [Hi _].
      change (m_runnables (this (zombies_cleared w))) with (m_runnables (this w)) in Hi.
      destruct (drain fuel (zombies_cleared w)) as [[od wd] td].
      unfold outcome in *; cbn [fst] in *.
      destruct od as [[] | | |]; cbn [fst]; rewrite <- Hi;
        (split; [intros Hx; by split | intros [_ Hx]; exact Hx]).
    - unfold outcome; cbn [fst].
      split; [intros Hx; discriminate | intros [Hx _]; discriminate]. }
  split; [exact Hof |]. split; [exact Hz |]. split; [exact Hvr |].
  split; [by rewrite Hcx |]. split.
  { intros Hzs. destruct (FreeZombies_returns w Hzs) as (mid & Hfz & _).
    assert (Ho : outcome (FreeZombies w) = Ret tt) by by rewrite Hfz.
    split; [exact Ho |]. rewrite Hcx. by apply Hcr. }
  split; [exact Hpre |]. split; [exact Hbody |]. split; [exact Hdeq |].
  split; [exact Hiff |].
  intros Ho. split; [| by apply Hret].
  rewrite Hcx. apply Hcr. by apply Hiff.
Qed.

Lemma allocates_false heap n :
  allocates heap n = false ↔ n < 0 ∨ heap n = false.
Proof.
  unfold allocates. rewrite andb_false_iff, bool_decide_eq_false. split.
  - intros [Hn | Hh]; [left; lia | by right].
  - intros [Hn | Hh]; [left; lia | by right].
Qed.

(** C7: [New] returns a group whenever the file cannot be opened or the
    buffer for its bytes can be allocated: the group owns a fresh isolate,
    is not defunct and is registered for that isolate.  When the file cannot
    be opened, or [fread] delivers fewer bytes than [ftell] reported, the
    group is built by the default constructor: no snapshot blob, no startup
    data; in the second case the buffer has been deleted.  When as many
    bytes are read as [ftell] reported the group keeps them as its startup
    data; that is the case of a regular file that can be read to its end.
    But not for every path: when [ftell] answers a negative size, or
    one the allocator refuses, [New] is left by the exception of
    [new char[size]] right after opening the file; no group is built and
    the storage is left untouched. *)
Theorem New_returns_unless_allocation_fails (heap : Z → bool)
    (fs : string → option File) (snapshotFile : string) (iso tid : nat) (w : World) :
  let r := New heap fs snapshotFile iso tid w in
  let g := this (world r) in
  ((fs snapshotFile = None ∨
    ∃ fp, fs snapshotFile = Some fp ∧ allocates heap (ftell_end fp) = true) →
     outcome r = Ret tt ∧
     m_isolate g = iso ∧ m_manage_isolate g = true ∧ m_isDefunct g = false ∧
     s_isolate_map (proc (world r)) !! iso = Some (self w)) ∧
  ((fs snapshotFile = None ∨
    ∃ fp, fs snapshotFile = Some fp ∧ allocates heap (ftell_end fp) = true ∧
          Z.of_nat (length (fread fp (ftell_end fp))) ≠ ftell_end fp) →
     snapshot_blob g = false ∧
     m_startup_data g = mkStartupData None 0 ∧
     EvIsolateNew iso false ∈ events r ∧
     (fs snapshotFile ≠ None → EvDeleteBuffer ∈ events r)) ∧
  (∀ fp, fs snapshotFile = Some fp →
     allocates heap (ftell_end fp) = true →
     Z.of_nat (length (fread fp (ftell_end fp))) = ftell_end fp →
     m_startup_data g =
       mkStartupData (Some (fread fp (ftell_end fp))) (wrap_int (ftell_end fp)) ∧
     snapshot_blob g = negb (wrap_int (ftell_end fp) =? 0) ∧
     EvDeleteBuffer ∉ events r) ∧
  (∀ fp, fs snapshotFile = Some fp →
     ftell_end fp < 0 ∨ heap (ftell_end fp) = false →
     r = (Abort, w, [EvFopen true; EvBadAlloc (ftell_end fp)])) ∧
  (∀ fp, fs snapshotFile = Some fp →
     f_tell fp = Z.of_nat (length (f_contents fp)) →
     (length (f_contents fp) <= f_readable fp)%nat →
     heap (ftell_end fp) = true →
     outcome r = Ret tt ∧
     m_startup_data g =
       mkStartupData (Some (f_contents fp)) (wrap_int (ftell_end fp))).
Proof.
  intros r g. subst g r.
  match goal with
  | |- ?A ∧ ?B ∧ ?C ∧ ?D ∧ _ => assert (Hmain : A ∧ B ∧ C ∧ D)
  end; [|
    destruct Hmain as (HA & HB & HC & HD);
    split; [exact HA |]; split; [exact HB |]; split; [exact HC |];
    split; [exact HD |];
    intros fp Hfs Htell Hle Hheap;
    assert (Hyes : allocates heap (ftell_end fp) = true)
      by (unfold allocates, ftell_end; rewrite Htell;
          unfold ftell_end in Hheap; rewrite Htell in Hheap; rewrite Hheap, andb_true_r;
          apply bool_decide_eq_true; lia);
    assert (Hfull : Z.of_nat (length (fread fp (ftell_end fp))) = ftell_end fp)
      by (rewrite (fread_full fp Htell Hle); unfold ftell_end; by rewrite Htell);
    destruct (HA (or_intror (ex_intro _ fp (conj Hfs Hyes)))) as (Ho & _);
    destruct (HC fp Hfs Hyes Hfull) as (Hsd & _);
    rewrite (fread_full fp Htell Hle) in Hsd; by split ].
  destruct (New_run heap fs snapshotFile iso tid w)
    as [(pre & sn & sz & Hnew & Hcases) | (fp & Hfs & Hno & Hnew)].
  - destruct (ContextGroup_ctor_snapshot_events sn sz iso tid w) as [_ Hce].
    pose proof (ContextGroup_ctor_snapshot_world sn sz iso tid w) as Hcw.
    rewrite Hnew.
    change (outcome (?o, ?x, ?t)) with o.
    change (world (?o, ?x, ?t)) with x. change (events (?o, ?x, ?t)) with t.
    rewrite Hcw, Hce.
    cbn [this proc m_isolate m_manage_isolate m_isDefunct m_startup_data snapshot_blob
         construct s_isolate_map set_s_isolate_map].
    assert (Hinit : EvDeleteBuffer ∉ events (init_v8 w)).
    { destruct (init_v8_events_cases w) as [-> | ->]; not_in_list. }
    split.
    { intros _. split; [done |]. split; [done |]. split; [done |]. split; [done |].
      apply lookup_insert_eq. }
    destruct Hcases as [(Hfs & -> & -> & ->) |
                        [(fp & Hfs & Hyes & Hshort & -> & -> & ->) |
                         (fp & Hfs & Hyes & Hfull & -> & -> & ->)]];
      rewrite Hfs; cbn [has_startup_data sd_data raw_size].
    + split.
      { intros _. split; [done |]. split; [done |]. split; [| done].
        rewrite !elem_of_app. right. right. by left. }
      split; [intros fp' Hfp'; discriminate |].
      intros fp' Hfp'; discriminate.
    + split.
      { intros _. split; [done |]. split; [done |]. split.
        - rewrite !elem_of_app. right. right. by left.
        - intros _. rewrite elem_of_app. left. right. by left. }
      split; [intros fp' Hfp' _ Heq; injection Hfp' as <-; done |].
      intros fp' Hfp' Hbad. injection Hfp' as <-.
      apply allocates_false in Hbad. congruence.
    + split.
      { intros [Hnone | (fp' & Hfp' & _ & Hshort)]; [discriminate |].
        injection Hfp' as <-. done. }
      split.
      { intros fp' Hfp' _ _. injection Hfp' as <-.
        split; [done |]. split; [done |].
        rewrite !not_elem_of_app. split; [not_in_list |]. split; [done | not_in_list]. }
      intros fp' Hfp' Hbad. injection Hfp' as <-.
      apply allocates_false in Hbad. congruence.
  - rewrite Hnew, Hfs.
    split.
    { intros [Hnone | (fp' & Hfp' & Hyes)]; [discriminate |].
      injection Hfp' as <-. congruence. }
    split.
    { intros [Hnone | (fp' & Hfp' & Hyes & _)]; [discriminate |].
      injection Hfp' as <-. congruence. }
    split; [intros fp' Hfp' Hyes; injection Hfp' as <-; congruence |].
    intros fp' Hfp' _. injection Hfp' as <-. done.
Qed.

End Build.

(** ** Concrete runs *)

(** C6, as stated, fails: after one [init_v8] a [dispose_v8] leaves the
    count at one and the runtime up. *)
Lemma dispose_v8_does_not_decrement :
  let w1 := world (init_v8 initial_world) in
  s_init_count (proc w1) = 1 /\
  s_init_count (proc (world (dispose_v8 w1))) <> s_init_count (proc w1) - 1 /\
  s_init_count (proc (world (dispose_v8 w1))) <> 0 /\
  v8_initialized (proc (world (dispose_v8 w1))) = true /\
  events (dispose_v8 w1) = [EvLock s_mutex; EvUnlock s_mutex].
Proof. vm_compute. repeat split; discriminate. Qed.

Lemma engine_runtime_lifecycle_witness :
  0 <= s_init_count (proc initial_world) < INT_MAX /\
  s_init_count (proc (world (init_v8 initial_world))) = 0 + 1.
Proof.
  split; [vm_compute; split; [discriminate | reflexivity] |].
  destruct engine_runtime_lifecycle as [H _].
  apply (H initial_world). vm_compute. split; [discriminate | reflexivity].
Defined.

Lemma callback_drains_in_fifo_order_witness :
  (weights (m_runnables (this (sample_world queue_group))) <= 3)%nat /\
  executed (events (callback false (-222) 3 5 (sample_world queue_group)))
    = [1; 2; 3]%nat.
Proof.
  split; [vm_compute; lia |].
  pose proof (callback_drains_in_fifo_order false (-222) 3 5
                (sample_world queue_group)) as H.
  cbv zeta in H.
  destruct H as (_ & _ & _ & _ & _ & _ & _ & _ & _ & Hret); [vm_compute; lia |].
  destruct (Hret eq_refl) as (_ & Hall & _). rewrite Hall. reflexivity.
Defined.

(** C1, as stated, fails in a debug build: with a context zombie that still
    runs, the wake is ended by the assertion of the zombie pass.  The zombie
    is not released, none of the queued tasks is executed, the handle
    is not closed and [m_async_handle] still points to it. *)
Lemma debug_wake_runs_no_task :
  let w := sample_world stale_group in
  let r := callback true (-222) 3 5 w in
  (weights (m_runnables (this w)) <= 3)%nat /\
  rid <$> m_runnables (this w) = [1; 2]%nat /\
  outcome r = Abort /\
  executed (events r) = [] /\
  executed (events r) <> rid <$> m_runnables (this w) /\
  context_resets (events r) = [] /\
  (EvUvClose 5 ∉ events r) /\
  m_async_handle (this (world r)) = Some 5%nat /\
  m_runnables (this (world r)) <> [].
Proof.
  cbv zeta. split; [vm_compute; lia |].
  split; [reflexivity |]. split; [reflexivity |]. split; [reflexivity |].
  split; [vm_compute; discriminate |]. split; [reflexivity |].
  split; [| split; [reflexivity | vm_compute; discriminate]].
  vm_compute. intros Hin.
  repeat (apply elem_of_cons in Hin as [Hin | Hin]; [discriminate |]).
  by apply elem_of_nil in Hin.
Qed.

(** C2, as stated, fails in a debug build: context 12 is not defunct, yet
    the pass is killed by the assertion raised for context 11, so context 12
    gets no exit call and the reference to context 11 is never released. *)
Lemma debug_drain_stops_at_first_live_zombie :
  let w := sample_world zombie_group in
  let r := FreeZombies true (-222) w in
  mkJSContext 12 false ∈ m_context_zombies (this w) /\
  outcome r = Abort /\
  forced_exits (events r) = [(11%nat, -222)] /\
  length (filter (λ p, p.1 = 12%nat) (forced_exits (events r))) <> 1%nat /\
  EvContextReset 11 ∉ events r.
Proof.
  cbv zeta. split; [vm_compute; do 2 right; left |].
  split; [reflexivity |]. split; [reflexivity |]. split; [vm_compute; discriminate |].
  vm_compute. intros Hin.
  repeat (apply elem_of_cons in Hin as [Hin | Hin]; [discriminate |]).
  by apply elem_of_nil in Hin.
Qed.

Lemma zombie_drain_forced_exits_witness :
  false = false /\
  forced_exits (events (FreeZombies false (-222) (sample_world zombie_group)))
    = [(11%nat, -222); (12%nat, -222)].
Proof.
  split; [reflexivity |].
  pose proof (zombie_drain_forced_exits false (-222) (sample_world zombie_group)) as H.
  cbv zeta in H. destruct H as (_ & Hrel & _).
  destruct (Hrel eq_refl) as (_ & _ & Hex & _). rewrite Hex. reflexivity.
Defined.

(** C3, as stated, fails at step (6): disposing a group that borrowed its
    isolate leaves the process-wide count where it was. *)
Lemma dispose_borrowed_isolate_keeps_count :
  let w := sample_world borrowing_group in
  m_isDefunct (this w) = false /\
  m_manage_isolate (this w) = false /\
  outcome (Dispose false (-222) w) = Ret tt /\
  s_init_count (proc w) = 1 /\
  s_init_count (proc (world (Dispose false (-222) w))) <> s_init_count (proc w) - 1.
Proof. cbv zeta. repeat split; try reflexivity. vm_compute. discriminate. Qed.

Lemma dispose_teardown_order_witness :
  m_isDefunct (this (sample_world busy_group)) = false /\
  events (Dispose false (-222) (sample_world busy_group)) =
    [EvClearRunnables; EvRemoveGCPrologueCallback 7; EvValueDispose 30;
     EvContextDispose 31; EvSetDefunct; EvLock m_zombie_mutex;
     EvUnlock m_zombie_mutex; EvLock s_mutex; EvRegistryErase 7;
     EvUnlock s_mutex; EvIsolateDispose 7].
Proof.
  split; [reflexivity |].
  pose proof (dispose_teardown_order false (-222) (sample_world busy_group) eq_refl) as H.
  cbv zeta in H. destruct H as (Hev & _). rewrite Hev. reflexivity.
Defined.

Lemma dispose_twice_is_noop_witness :
  m_isDefunct (this (world (Dispose false (-222) (sample_world busy_group)))) = true /\
  Dispose false (-222) (world (Dispose false (-222) (sample_world busy_group))) =
    (Ret tt, world (Dispose false (-222) (sample_world busy_group)), []).
Proof.
  split; [reflexivity |].
  destruct (dispose_twice_is_noop false (-222)) as [Hnoop _].
  apply Hnoop. reflexivity.
Defined.

(** C5, as stated, fails: the forced exit of a context zombie is called with
    the zombie mutex held, and the GC callbacks are delivered with the
    process-wide mutex held. *)
Lemma calls_made_under_a_mutex :
  ¬ outside_all_locks is_engine_call
      (events (FreeZombies false (-222) (sample_world zombie_group))) /\
  ¬ outside_all_locks is_host_callback
      (events (StaticGCPrologueCallback 7 1 0 (sample_world gc_group))).
Proof.
  split; intros H.
  - specialize (H m_zombie_mutex
                  [EvLock m_zombie_mutex; EvValueReset 20; EvContextReset 10]
                  (EvEnterContext 11)
                  [EvProcessExit 11 (-222); EvLeaveContext 11; EvContextReset 11;
                   EvEnterContext 12; EvProcessExit 12 (-222); EvLeaveContext 12;
                   EvContextReset 12; EvUnlock m_zombie_mutex]
                  eq_refl eq_refl).
    discriminate H.
  - specialize (H s_mutex [EvLock s_mutex] (EvGCCallback 1 1 0 7)
                  [EvGCCallback 2 1 0 7; EvGCCallback 1 1 0 7; EvUnlock s_mutex]
                  eq_refl eq_refl).
    discriminate H.
Qed.

Lemma locks_around_outside_calls_witness :
  (weights (m_runnables (this (sample_world queue_group))) <= 3)%nat /\
  outside_all_locks is_task_body
    (events (callback false (-222) 3 5 (sample_world queue_group))).
Proof.
  split; [vm_compute; lia |].
  destruct (locks_around_outside_calls false (-222)) as [Hcb _].
  apply Hcb. vm_compute. lia.
Defined.

(** C7 at a directory: [fopen] opens it, [ftell] answers [LONG_MAX], and
    [New] is left by the exception with the file open and no group built. *)
Lemma New_returns_unless_allocation_fails_witness :
  (ftell_end directory < 0 \/ sample_heap (ftell_end directory) = false) /\
  New sample_heap (λ _, Some directory) "snapshots" 8 1 (sample_world sample_group) =
    (Abort, sample_world sample_group, [EvFopen true; EvBadAlloc LONG_MAX]).
Proof.
  assert (Hbad : ftell_end directory < 0 \/ sample_heap (ftell_end directory) = false)
    by (right; reflexivity).
  split; [exact Hbad |].
  pose proof (New_returns_unless_allocation_fails sample_heap (λ _, Some directory)
                "snapshots" 8 1 (sample_world sample_group)) as H.
  cbv zeta in H. destruct H as (_ & _ & _ & Hfail & _).
  exact (Hfail directory eq_refl Hbad).
Defined.

Lemma unregister_removes_all_matching_witness :
  NoDup (gc_addr <$> m_gc_callbacks (this (sample_world gc_group))) /\
  m_gc_callbacks (this (world (UnregisterGCCallback 1 7 (sample_world gc_group))))
    = [mkGCCallback 51 2 7].
Proof.
  assert (Hnd : NoDup (gc_addr <$> m_gc_callbacks (this (sample_world gc_group)))).
  { vm_compute. repeat constructor; intros Hin;
      repeat (apply elem_of_cons in Hin as [Hin | Hin]; [discriminate |]);
      by apply elem_of_nil in Hin. }
  split; [exact Hnd |].
  destruct (unregister_removes_all_matching 1 7 (sample_world gc_group) Hnd)
    as (Hrun & _).
  rewrite Hrun. reflexivity.
Defined.


Lemma dispose_discards_pending_tasks_witness :
  m_isDefunct (this (sample_world busy_group)) = false /\
  m_runnables (this (sample_world busy_group)) <> [] /\
  executed (events (Dispose false (-222) (sample_world busy_group))) = [] /\
  executed (events (callback false (-222) 2 5
                      (world (Dispose false (-222) (sample_world busy_group))))) = [].
Proof.
  split; [reflexivity |]. split; [discriminate |].
  destruct (dispose_discards_pending_tasks false (-222) (sample_world busy_group) eq_refl)
    as (_ & Hnone & _ & Hlater).
  split; [exact Hnone | apply Hlater].
Defined.

(** ** Scenarios *)

(** Three tasks scheduled on an idle group: one wake is created, the tasks
    run in the order they were scheduled, and the wake is torn down. *)
Example three_tasks_scenario :
  let schedule :=
    schedule_java_runnable (java_task 1 [true]) 5;;
    schedule_java_runnable (java_task 2 [true]) 6;;
    schedule_java_runnable (java_task 3 [true]) 7 in
  let w1 := world (schedule (sample_world sample_group)) in
  let r := callback false (-222) 3 5 w1 in
  m_async_handle (this w1) = Some 5%nat /\
  filter (λ e, e = EvUvAsyncSend 5 \/ e = EvUvAsyncSend 6 \/ e = EvUvAsyncSend 7)
    (events (schedule (sample_world sample_group))) = [EvUvAsyncSend 5] /\
  outcome r = Ret tt /\
  executed (events r) = [1; 2; 3]%nat /\
  m_runnables (this (world r)) = [] /\
  m_async_handle (this (world r)) = None.
Proof. cbv zeta. repeat split; reflexivity. Qed.

(** A context that is still running is marked a zombie: the next wake calls
    its exit entry point before it releases the reference, ahead of any
    task. *)
Example live_zombie_scenario :
  let w1 := world (MarkZombie_context 900 (mkJSContext 11 false) 5
                     (sample_world sample_group)) in
  events (callback false (-222) 0 5 w1) =
    [EvDeleteGroupData 5; EvLock m_zombie_mutex; EvEnterContext 11;
     EvProcessExit 11 (-222); EvLeaveContext 11; EvContextReset 11;
     EvUnlock m_zombie_mutex; EvLock m_async_mutex; EvUvClose 5;
     EvClearAsyncHandle; EvUnlock m_async_mutex] /\
  outcome (callback true (-222) 0 5 w1) = Abort.
Proof. cbv zeta. split; reflexivity. Qed.

(** An object whose address is the group's own is not marked. *)
Example self_zombie_scenario :
  MarkZombie_value 100 (mkJSValue 100) 5 (sample_world sample_group)
    = (Ret tt, sample_world sample_group, []).
Proof. reflexivity. Qed.

(** A managed value that is still alive is disposed with the group. *)
Example managed_value_scenario :
  EvValueDispose 30
    ∈ events ((Manage_value 30;; Dispose false (-222)) (sample_world sample_group)).
Proof. vm_compute. do 2 right. left. Qed.

(** A pair registered twice and unregistered once is gone altogether. *)
Example register_twice_scenario :
  m_gc_callbacks
    (this (world ((RegisterGCCallback 50 1 7;;
                   RegisterGCCallback 51 1 7;;
                   UnregisterGCCallback 1 7) (sample_world sample_group)))) = [].
Proof. reflexivity. Qed.

(** A snapshot file read in full becomes the startup data; a short read
    does not; a file whose [ftell] fails builds no group at all. *)
Example snapshot_scenario :
  let blob := [Byte.x01; Byte.x02; Byte.x03] in
  let whole := λ _ : string, Some (regular_file blob) in
  let short := λ _ : string, Some (mkFile blob 2 3) in
  let pipe := λ _ : string, Some (mkFile blob 3 (-1)) in
  let w := sample_world sample_group in
  m_startup_data (this (world (New sample_heap whole "snapshot.bin" 8 1 w)))
    = mkStartupData (Some blob) 3 /\
  snapshot_blob (this (world (New sample_heap whole "snapshot.bin" 8 1 w))) = true /\
  m_startup_data (this (world (New sample_heap short "snapshot.bin" 8 1 w)))
    = mkStartupData None 0 /\
  snapshot_blob (this (world (New sample_heap short "snapshot.bin" 8 1 w))) = false /\
  New sample_heap pipe "snapshot.bin" 8 1 w = (Abort, w, [EvFopen true; EvBadAlloc (-1)]).
Proof. cbv zeta. repeat split; reflexivity. Qed.

(** ** Concrete runs of the further properties *)

Lemma find_method_outcome_witness :
  [false; true] ≠ [] ∧ true ∈ [false; true] ∧
  find_method true [false; true] (sample_world sample_group) =
    (Ret tt, sample_world sample_group, []).
Proof.
  assert (Hne : [false; true] ≠ []) by discriminate.
  assert (Hin : true ∈ [false; true]) by (right; left).
  split; [exact Hne |]. split; [exact Hin |].
  destruct (find_method_outcome true [false; true] (sample_world sample_group) Hne)
    as [H _].
  exact (H Hin).
Defined.

Lemma java_runnable_delivery_witness :
  c_runnable (java_task 2 [false; true]) = None ∧
  jclass_chain (thiz (java_task 2 [false; true])) ≠ [] ∧
  events (run_body (java_task 2 [false; true]) (sample_world sample_group)) =
    [EvAttachCurrentThread; EvCallVoidMethod 2 40 41; EvDeleteGlobalRef 40;
     EvDeleteGlobalRef 41; EvDetachCurrentThread].
Proof.
  split; [reflexivity |]. split; [discriminate |].
  pose proof (java_runnable_delivery (java_task 2 [false; true])
                (sample_world sample_group) eq_refl) as H.
  cbv zeta in H. destruct H as (_ & _ & Hfound & _); [discriminate |].
  destruct Hfound as [_ Hev]; [right; left |]. rewrite Hev. reflexivity.
Defined.

Lemma mutex_protocol_witness :
  keeps_protocol (callback false (-222) 3 5 (sample_world queue_group)).
Proof. destruct (mutex_protocol false (-222)) as [H _]. apply H. Defined.

Lemma schedule_sends_one_wake_witness :
  outcome (callback false (-222) 3 5 (sample_world queue_group)) = Ret tt ∧
  wakes_sent
    (events (schedule_java_runnable (java_task 9 [true]) 6
               (world (callback false (-222) 3 5 (sample_world queue_group)))))
    = [6%nat].
Proof.
  split; [reflexivity |].
  destruct (schedule_sends_one_wake false (-222)) as [_ H]. apply H. reflexivity.
Defined.

Lemma callback_returns_iff_deliverable_witness :
  (weights (m_runnables (this (sample_world queue_group))) <= 3)%nat ∧
  false = false ∧
  outcome (callback false (-222) 3 5 (sample_world queue_group)) = Ret tt.
Proof.
  assert (Hf : (weights (m_runnables (this (sample_world queue_group))) <= 3)%nat)
    by (vm_compute; lia).
  split; [exact Hf |]. split; [reflexivity |].
  pose proof (callback_returns_iff_deliverable false (-222) 3 5
                (sample_world queue_group) Hf (or_introl eq_refl)) as H.
  cbv zeta in H. destruct H as [Hiff _]. apply Hiff. repeat constructor.
Defined.

Lemma zombies_released_in_order_witness :
  outcome (FreeZombies false (-222) (sample_world zombie_group)) = Ret tt ∧
  context_resets (events (FreeZombies false (-222) (sample_world zombie_group)))
    = [10; 11; 12]%nat.
Proof.
  split; [reflexivity |].
  pose proof (zombies_released_in_order false (-222) (sample_world zombie_group)) as H.
  cbv zeta in H. destruct H as (_ & _ & _ & _ & Hret).
  destruct (Hret eq_refl) as [Hc _]. rewrite Hc. reflexivity.
Defined.

Lemma marked_zombie_is_released_witness :
  55%nat ≠ self (sample_world sample_group) ∧
  value_resets
    (events (callback false (-222) 3 5
               (world (MarkZombie_value 55 (mkJSValue 20) 6
                         (sample_world sample_group)))))
    = [20%nat].
Proof.
  assert (Hne : 55%nat ≠ self (sample_world sample_group)) by (vm_compute; discriminate).
  split; [exact Hne |].
  destruct (marked_zombie_is_released false (-222) 55 6 3 5
              (sample_world sample_group) Hne) as (Hv & _).
  pose proof (Hv (mkJSValue 20)) as H. cbv zeta in H.
  destruct H as (_ & _ & _ & _ & Hr). rewrite Hr. reflexivity.
Defined.


Lemma gc_event_fans_out_witness :
  s_isolate_map (proc (sample_world gc_group)) !! 7%nat
    = Some (self (sample_world gc_group)) ∧
  gc_deliveries (events (StaticGCPrologueCallback 7 1 0 (sample_world gc_group)))
    = [(1%nat, 1, 0, 7%nat); (2%nat, 1, 0, 7%nat); (1%nat, 1, 0, 7%nat)].
Proof.
  assert (Hreg : s_isolate_map (proc (sample_world gc_group)) !! 7%nat
                 = Some (self (sample_world gc_group))) by reflexivity.
  split; [exact Hreg |].
  pose proof (gc_event_fans_out 7 1 0 (sample_world gc_group)) as H.
  cbv beta zeta in H. destruct H as (_ & _ & Hd & _).
  destruct (Hd Hreg) as [He _]. rewrite He. reflexivity.
Defined.

Lemma disposed_group_gets_no_gc_witness :
  m_isDefunct (this (sample_world gc_group)) = false ∧
  outcome (Dispose false (-222) (sample_world gc_group)) = Ret tt ∧
  events (StaticGCPrologueCallback 7 1 0
            (world (Dispose false (-222) (sample_world gc_group))))
    = [EvLock s_mutex; EvUnlock s_mutex].
Proof.
  split; [reflexivity |]. split; [reflexivity |].
  destruct (disposed_group_gets_no_gc false (-222) 1 0 (sample_world gc_group)
              eq_refl eq_refl) as (H & _).
  change (m_isolate (this (sample_world gc_group))) with 7%nat in H.
  rewrite H. reflexivity.
Defined.

Lemma owning_group_lifecycle_witness :
  outcome ((ContextGroup_ctor_snapshot (Some []) 5 8 1;; Dispose false (-222))
             initial_world) = Ret tt ∧
  s_init_count
    (proc (world ((ContextGroup_ctor_snapshot (Some []) 5 8 1;; Dispose false (-222))
                    initial_world))) = 1.
Proof.
  pose proof (owning_group_lifecycle false (-222) (Some []) 5 8 1 initial_world) as H.
  cbv zeta in H. destruct H as (Ho & _ & _ & Hc & _).
  split; [exact Ho |]. rewrite Hc. reflexivity.
Defined.

Lemma adopting_group_lifecycle_witness :
  s_init_count (proc initial_world) = 0 ∧
  EvV8Dispose ∈
    events ((ContextGroup_ctor_isolate 8 1 (Some 3%nat);; Dispose false (-222))
              initial_world).
Proof.
  split; [reflexivity |].
  pose proof (adopting_group_lifecycle false (-222) 8 1 (Some 3%nat) initial_world) as H.
  cbv zeta in H. destruct H as (_ & _ & _ & _ & _ & _ & Hiff).
  apply Hiff. reflexivity.
Defined.

Lemma snapshot_buffer_release_witness :
  allocates sample_heap (ftell_end (regular_file [Byte.x01])) = true ∧
  Z.of_nat (length (fread (regular_file [Byte.x01])
                      (ftell_end (regular_file [Byte.x01]))))
    = ftell_end (regular_file [Byte.x01]) ∧
  count_event EvDeleteStartupData
    (events ((New sample_heap (λ _, Some (regular_file [Byte.x01])) "snap" 8 1;;
              Dispose false (-222)) initial_world)) = 1%nat.
Proof.
  split; [reflexivity |]. split; [reflexivity |].
  pose proof (snapshot_buffer_release false (-222) sample_heap
                (λ _, Some (regular_file [Byte.x01])) "snap" 8 1 initial_world) as H.
  cbv zeta in H. destruct H as (_ & _ & Hfull & _).
  destruct (Hfull (regular_file [Byte.x01]) eq_refl eq_refl eq_refl)
    as (_ & _ & _ & Hc).
  rewrite Hc. reflexivity.
Defined.


Lemma pending_work_has_wake_witness :
  wake_inv (this (world (schedule_java_runnable (java_task 9 [true]) 6
                           (sample_world sample_group)))).
Proof.
  destruct (pending_work_has_wake false (-222)) as (_ & _ & _ & _ & H & _). apply H.
Defined.

Lemma sync_mutex_and_queue_discipline_witness :
  opc (sync_run [MCaller; MCaller; MCaller; MOwner; MOwner; MOwner; MOwner]
         (sync_init [] false)) = O_in_body ∧
  head (queue (sync_run [MCaller; MCaller; MCaller; MOwner; MOwner; MOwner; MOwner]
                 (sync_init [] false))) = Some SyncTask.
Proof.
  split; [reflexivity |].
  pose proof (sync_mutex_and_queue_discipline [] false
                [MCaller; MCaller; MCaller; MOwner; MOwner; MOwner; MOwner]) as H.
  cbv zeta in H. destruct H as (_ & _ & _ & _ & Hb & _).
  destruct (Hb eq_refl) as [Hh _]. exact Hh.
Defined.

Lemma sync_can_return_witness :
  cpc (sync_run (returning_schedule (length [4%nat; 5%nat]))
         (sync_init [4%nat; 5%nat] true)) = C_returned.
Proof. rewrite (sync_can_return [4%nat; 5%nat] true). reflexivity. Defined.

Lemma disposed_group_still_runs_tasks_witness :
  m_isDefunct
    (this (world (schedule_java_runnable (java_task 1 [true]) 5
                    (sample_world sample_group)))) = false ∧
  outcome
    (Dispose false (-222)
       (world (schedule_java_runnable (java_task 1 [true]) 5
                 (sample_world sample_group)))) = Ret tt ∧
  c_runnable (java_task 9 [true]) = None ∧
  deliverable (java_task 9 [true]) = true ∧
  (weight (java_task 9 [true]) <= 1)%nat ∧
  wakes_sent
    (events (schedule_java_runnable (java_task 9 [true]) 6
               (world (Dispose false (-222)
                         (world (schedule_java_runnable (java_task 1 [true]) 5
                                   (sample_world sample_group))))))) = [] ∧
  outcome
    (callback false (-222) 1 5
       (world (schedule_java_runnable (java_task 9 [true]) 6
                 (world (Dispose false (-222)
                           (world (schedule_java_runnable (java_task 1 [true]) 5
                                     (sample_world sample_group))))))))
    = Ret tt.
Proof.
  assert (Hw : (weight (java_task 9 [true]) <= 1)%nat) by (vm_compute; lia).
  split; [reflexivity |]. split; [reflexivity |]. split; [reflexivity |].
  split; [reflexivity |]. split; [exact Hw |].
  pose proof (disposed_group_still_runs_tasks false (-222) (java_task 9 [true]) 6 5 1
                (world (schedule_java_runnable (java_task 1 [true]) 5
                          (sample_world sample_group)))
                eq_refl eq_refl eq_refl eq_refl Hw) as H.
  cbv zeta in H. destruct H as (_ & _ & _ & Hwake & _ & Ho & _).
  split; [rewrite Hwake; reflexivity | exact Ho].
Defined.
